(** * Admin back-office of the Panchayath Management System

    A shallow embedding of the admin migration (tables, row-level-security
    policies, the [log_admin_action] trigger) and of the view components that
    talk to the store ([AdminUserManagement], [SystemSettings], [AuditLogs]),
    followed by the properties of the audit / permission subsystem.

    Conventions.
    - [text] and [uuid] columns are strings; [timestamptz] values and the
      value of a JavaScript [Date] are instants, modelled as [Z].
    - Values the store generates ([gen_random_uuid()], [now()]) and the
      client's clock are inputs of the request that consumes them.
    - One request to the store is one statement, run in its own transaction:
      it yields [Ok] with the new state, or [Err] and no state at all. *)

From stdpp Require Import base option list strings gmap.
From Stdlib Require Import ZArith Lia String Ascii Sorted DecimalString.

Set Warnings "-register-all".
Open Scope string_scope.
Open Scope list_scope.
Open Scope Z_scope.

(** ** Text *)

Module Text.

(** [String.prototype.toLowerCase], on the ASCII letters. *)
Definition lower_ascii (c : ascii) : ascii :=
  let n := nat_of_ascii c in
  if ((65 <=? n)%nat && (n <=? 90)%nat)%bool then ascii_of_nat (n + 32) else c.

Fixpoint toLowerCase (s : string) : string :=
  match s with
  | EmptyString => EmptyString
  | String c s' => String (lower_ascii c) (toLowerCase s')
  end.

(** [String.prototype.includes]: [sub] occurs somewhere in [s]. *)
Fixpoint includes (s sub : string) : bool :=
  String.prefix sub s ||
  match s with
  | EmptyString => false
  | String _ s' => includes s' sub
  end.

(** [Array.prototype.join]. *)
Fixpoint join (sep : string) (l : list string) : string :=
  match l with
  | [] => ""
  | [x] => x
  | x :: rest => (x ++ sep ++ join sep rest)%string
  end.

(** A JavaScript string is falsy exactly when it is empty. *)
Definition truthy (s : string) : bool := negb (String.eqb s "").

End Text.

(** ** Plain JavaScript objects *)

(** An object made by [{}] is kept as the map of its own properties. It
    inherits from [Object.prototype]: reading a name it does not own gives
    the inherited value, and [__proto__] is an inherited accessor. *)
Module Js.

Definition object_prototype : list string := [
  "constructor"; "__defineGetter__"; "__defineSetter__"; "hasOwnProperty";
  "__lookupGetter__"; "__lookupSetter__"; "isPrototypeOf";
  "propertyIsEnumerable"; "toString"; "valueOf"; "__proto__"; "toLocaleString"
].

(** [key in Object.prototype]. *)
Definition inherited (key : string) : bool :=
  existsb (String.eqb key) object_prototype.

(** [o[key] = value]: an assignment to [__proto__] goes to the inherited
    setter, which changes or keeps the prototype and adds no own
    property. *)
Definition assign {V} (key : string) (value : V) (o : gmap string V)
    : gmap string V :=
  if String.eqb key "__proto__" then o else <[key := value]> o.

End Js.

(** ** jsonb values *)

Inductive json : Type :=
| JNull
| JBool (b : bool)
| JNum (z : Z)
| JStr (s : string)
| JArr (l : list json)
| JObj (fields : list (string * json)).

Abbreviation uuid := string (only parsing).

(** A [timestamptz] is an instant in microseconds since the epoch, the
    resolution of the store; a JavaScript [Date] counts milliseconds. *)
Abbreviation timestamptz := Z (only parsing).
Abbreviation Date := Z (only parsing).

Definition json_opt {A} (f : A -> json) (o : option A) : json :=
  match o with Some a => f a | None => JNull end.

(** ** Schema *)

(** [role text CHECK (role IN ('super_admin', 'admin', 'local_admin'))]. *)
Inductive role_t := super_admin | admin | local_admin.

Definition role_text (r : role_t) : string :=
  match r with
  | super_admin => "super_admin"
  | admin => "admin"
  | local_admin => "local_admin"
  end.

Definition role_eqb (a b : role_t) : bool :=
  match a, b with
  | super_admin, super_admin | admin, admin | local_admin, local_admin => true
  | _, _ => false
  end.

Record admin_user := {
  au_id : uuid;
  au_username : string;
  au_email : option string;
  au_password_hash : string;
  au_role : role_t;
  au_is_active : bool;
  au_last_login : option timestamptz;
  au_created_at : timestamptz;
  au_updated_at : timestamptz
}.

Record admin_permission := {
  ap_id : uuid;
  ap_module : string;
  ap_action : string;
  ap_description : option string;
  ap_created_at : timestamptz
}.

Record admin_user_permission := {
  aup_id : uuid;
  aup_user_id : uuid;
  aup_permission_id : uuid;
  aup_granted_by : option uuid;
  aup_created_at : timestamptz
}.

Record system_setting := {
  ss_id : uuid;
  ss_setting_key : string;
  ss_setting_value : json;
  ss_description : option string;
  ss_updated_by : option uuid;
  ss_created_at : timestamptz;
  ss_updated_at : timestamptz
}.

Record audit_log := {
  al_id : uuid;
  al_user_id : option uuid;
  al_action : string;
  al_table_name : string;
  al_record_id : string;
  al_old_values : option json;
  al_new_values : option json;
  al_ip_address : option string;
  al_user_agent : option string;
  al_created_at : timestamptz
}.

(** The audited domain tables are created by other migrations; the trigger
    only reads their [id] column and serialises the whole row. *)
Inductive domain_table := panchayaths | agents | management_teams.

Definition domain_table_name (d : domain_table) : string :=
  match d with
  | panchayaths => "panchayaths"
  | agents => "agents"
  | management_teams => "management_teams"
  end.

Record domain_row := {
  dr_id : uuid;
  dr_columns : list (string * json)
}.

Record db := {
  admin_users : list admin_user;
  admin_permissions : list admin_permission;
  admin_user_permissions : list admin_user_permission;
  system_settings : list system_setting;
  audit_logs : list audit_log;
  domain_rows : domain_table -> list domain_row
}.

Definition with_admin_users (l : list admin_user) (d : db) : db :=
  {| admin_users := l;
     admin_permissions := admin_permissions d;
     admin_user_permissions := admin_user_permissions d;
     system_settings := system_settings d;
     audit_logs := audit_logs d;
     domain_rows := domain_rows d |}.

Definition with_admin_user_permissions (l : list admin_user_permission) (d : db) : db :=
  {| admin_users := admin_users d;
     admin_permissions := admin_permissions d;
     admin_user_permissions := l;
     system_settings := system_settings d;
     audit_logs := audit_logs d;
     domain_rows := domain_rows d |}.

Definition with_system_settings (l : list system_setting) (d : db) : db :=
  {| admin_users := admin_users d;
     admin_permissions := admin_permissions d;
     admin_user_permissions := admin_user_permissions d;
     system_settings := l;
     audit_logs := audit_logs d;
     domain_rows := domain_rows d |}.

Definition with_audit_logs (l : list audit_log) (d : db) : db :=
  {| admin_users := admin_users d;
     admin_permissions := admin_permissions d;
     admin_user_permissions := admin_user_permissions d;
     system_settings := system_settings d;
     audit_logs := l;
     domain_rows := domain_rows d |}.

Definition domain_table_eqb (a b : domain_table) : bool :=
  match a, b with
  | panchayaths, panchayaths | agents, agents
  | management_teams, management_teams => true
  | _, _ => false
  end.

Definition with_domain_rows (t : domain_table) (l : list domain_row) (d : db) : db :=
  {| admin_users := admin_users d;
     admin_permissions := admin_permissions d;
     admin_user_permissions := admin_user_permissions d;
     system_settings := system_settings d;
     audit_logs := audit_logs d;
     domain_rows := fun t' => if domain_table_eqb t t' then l else domain_rows d t' |}.

(** [uuid] equality on nullable columns: [NULL = x] is never true. *)
Definition opt_is (o : option uuid) (x : uuid) : bool :=
  match o with Some y => String.eqb y x | None => false end.

(** ** Outcome of a statement *)

Inductive pg_error :=
| unique_violation
| foreign_key_violation
| check_violation
| cardinality_violation
| insufficient_privilege
| invalid_object_definition.

Inductive result (A : Type) : Type :=
| Ok (a : A)
| Err (e : pg_error).
Arguments Ok {A} a.
Arguments Err {A} e.

Definition rbind {A B} (r : result A) (k : A -> result B) : result B :=
  match r with Ok a => k a | Err e => Err e end.

Notation "'do' x <- c ; k" := (rbind c (fun x => k))
  (at level 10, x name, c at level 100, k at level 200).

Definition guard (b : bool) (e : pg_error) : result unit :=
  if b then Ok tt else Err e.

(** ** Sessions and row-level security *)

(** The role a request runs as (only [authenticated] is named by the
    policies), whether row security is bypassed for it (a role with
    BYPASSRLS, as [service_role] is, or the owner of the tables), and
    [auth.uid()]. *)
Record session := {
  rolname : string;
  rolbypassrls : bool;
  auth_uid : option uuid
}.

Inductive table :=
| t_admin_users
| t_admin_permissions
| t_admin_user_permissions
| t_system_settings
| t_audit_logs
| t_domain (d : domain_table).

Definition table_eqb (a b : table) : bool :=
  match a, b with
  | t_admin_users, t_admin_users
  | t_admin_permissions, t_admin_permissions
  | t_admin_user_permissions, t_admin_user_permissions
  | t_system_settings, t_system_settings
  | t_audit_logs, t_audit_logs => true
  | t_domain d, t_domain d' => domain_table_eqb d d'
  | _, _ => false
  end.

Inductive command := SELECT | INSERT | UPDATE | DELETE.

Definition command_eqb (a b : command) : bool :=
  match a, b with
  | SELECT, SELECT | INSERT, INSERT | UPDATE, UPDATE | DELETE, DELETE => true
  | _, _ => false
  end.

Definition command_text (c : command) : string :=
  match c with
  | SELECT => "SELECT"
  | INSERT => "INSERT"
  | UPDATE => "UPDATE"
  | DELETE => "DELETE"
  end.

Inductive policy_for := FOR_ALL | FOR_SELECT.

Definition for_covers (f : policy_for) (c : command) : bool :=
  match f with
  | FOR_ALL => true
  | FOR_SELECT => command_eqb c SELECT
  end.

(** The two [USING] clauses of the migration:
    [EXISTS (SELECT 1 FROM admin_users au WHERE au.id = auth.uid()
             [AND au.role = 'super_admin'] AND au.is_active = true)].
    [eval_using] is the value of the clause over the rows of [admin_users];
    whether the store gets to evaluate it is [policy_recursion] below. *)
Inductive using_expr := active_admin | active_super_admin.

Definition eval_using (u : using_expr) (users : list admin_user)
    (uid : option uuid) : bool :=
  existsb (fun au =>
    match u with
    | active_admin => opt_is uid (au_id au) && au_is_active au
    | active_super_admin =>
        opt_is uid (au_id au) && role_eqb (au_role au) super_admin && au_is_active au
    end) users.

Record policy := {
  pol_name : string;
  pol_table : table;
  pol_for : policy_for;
  pol_to : string;
  pol_using : using_expr
}.

Definition migration_policies : list policy := [
  {| pol_name := "Super admins can manage all users";
     pol_table := t_admin_users; pol_for := FOR_ALL;
     pol_to := "authenticated"; pol_using := active_super_admin |};
  {| pol_name := "Admins can view users";
     pol_table := t_admin_users; pol_for := FOR_SELECT;
     pol_to := "authenticated"; pol_using := active_admin |};
  {| pol_name := "Authenticated admins can view permissions";
     pol_table := t_admin_permissions; pol_for := FOR_SELECT;
     pol_to := "authenticated"; pol_using := active_admin |};
  {| pol_name := "Super admins can manage user permissions";
     pol_table := t_admin_user_permissions; pol_for := FOR_ALL;
     pol_to := "authenticated"; pol_using := active_super_admin |};
  {| pol_name := "Admins can manage system settings";
     pol_table := t_system_settings; pol_for := FOR_ALL;
     pol_to := "authenticated"; pol_using := active_admin |};
  {| pol_name := "Admins can view audit logs";
     pol_table := t_audit_logs; pol_for := FOR_SELECT;
     pol_to := "authenticated"; pol_using := active_admin |}
].

Definition policy_applies (p : policy) (s : session) (t : table) (c : command) : bool :=
  table_eqb (pol_table p) t && for_covers (pol_for p) c
  && String.eqb (pol_to p) (rolname s).

(** Row security is enabled on every table: a command passes when the role
    bypasses row security or some permissive policy that applies to it has a
    true [USING] clause (which also serves as [WITH CHECK]); with no
    applicable policy the command is denied. *)
Definition permits (policies : list policy) (s : session) (t : table)
    (c : command) (users : list admin_user) : bool :=
  rolbypassrls s ||
  existsb (fun p => policy_applies p s t c
                    && eval_using (pol_using p) users (auth_uid s)) policies.

(** Some policy is written for this role, table and command. *)
Definition policy_named (policies : list policy) (s : session) (t : table)
    (c : command) : bool :=
  existsb (fun p => policy_applies p s t c) policies.

(** Before a statement runs, the policies that apply to it are added to it,
    and so are, for the sub-select of each [USING] clause, the policies that
    apply to reading [admin_users]. Both [USING] clauses read [admin_users]:
    when the role has a policy for reading [admin_users], adding it meets
    [admin_users] again, and the store gives up with "infinite recursion
    detected in policy for relation admin_users" (42P17), whatever the rows.
    A role that bypasses row security has no policy added. *)
Definition policy_recursion (policies : list policy) (named : bool)
    (s : session) : bool :=
  negb (rolbypassrls s) && named
  && policy_named policies s t_admin_users SELECT.

(** ** The audit trigger *)

(** What [log_admin_action] needs of a row: [NEW.id::text] and [to_jsonb]. *)
Class Row (R : Type) := {
  row_id : R -> uuid;
  to_jsonb : R -> json
}.

Definition json_ts (t : timestamptz) : json := JNum t.

#[export] Instance admin_user_Row : Row admin_user := {|
  row_id := au_id;
  to_jsonb := fun r => JObj [
    ("id", JStr (au_id r));
    ("username", JStr (au_username r));
    ("email", json_opt JStr (au_email r));
    ("password_hash", JStr (au_password_hash r));
    ("role", JStr (role_text (au_role r)));
    ("is_active", JBool (au_is_active r));
    ("last_login", json_opt json_ts (au_last_login r));
    ("created_at", json_ts (au_created_at r));
    ("updated_at", json_ts (au_updated_at r)) ]
|}.

#[export] Instance domain_row_Row : Row domain_row := {|
  row_id := dr_id;
  to_jsonb := fun r => JObj (("id", JStr (dr_id r)) :: dr_columns r)
|}.

(** The data a row-level trigger is called with. *)
Inductive trigger_data (R : Type) : Type :=
| on_insert (new : R)
| on_update (old new : R)
| on_delete (old : R).
Arguments on_insert {R} new.
Arguments on_update {R} old new.
Arguments on_delete {R} old.

Definition TG_OP {R} (td : trigger_data R) : command :=
  match td with
  | on_insert _ => INSERT
  | on_update _ _ => UPDATE
  | on_delete _ => DELETE
  end.

Definition NEW {R} (td : trigger_data R) : option R :=
  match td with
  | on_insert n | on_update _ n => Some n
  | on_delete _ => None
  end.

Definition OLD {R} (td : trigger_data R) : option R :=
  match td with
  | on_insert _ => None
  | on_update o _ | on_delete o => Some o
  end.

(** The [VALUES] tuple of the trigger's [INSERT INTO audit_logs]. *)
Record audit_values := {
  av_user_id : option uuid;
  av_action : string;
  av_table_name : string;
  av_record_id : string;
  av_old_values : option json;
  av_new_values : option json
}.

(** [log_admin_action()]: the tuple it inserts, and the row it returns.
    [COALESCE(NEW.id::text, OLD.id::text)] is the id of [NEW] when there is
    one and of [OLD] otherwise. *)
Definition log_admin_action {R} `{Row R} (uid : option uuid)
    (TG_TABLE_NAME : string) (td : trigger_data R) : audit_values * R :=
  ({| av_user_id := uid;
      av_action := command_text (TG_OP td);
      av_table_name := TG_TABLE_NAME;
      av_record_id :=
        match td with
        | on_insert n | on_update _ n => row_id n
        | on_delete o => row_id o
        end;
      av_old_values :=
        if command_eqb (TG_OP td) DELETE then to_jsonb <$> OLD td else None;
      av_new_values :=
        if command_eqb (TG_OP td) INSERT || command_eqb (TG_OP td) UPDATE
        then to_jsonb <$> NEW td else None |},
   match td with
   | on_insert n | on_update _ n => n
   | on_delete o => o
   end).

(** [update_updated_at_column()], the [BEFORE UPDATE] trigger. *)
Definition update_updated_at_column_admin_user (now : timestamptz)
    (r : admin_user) : admin_user :=
  {| au_id := au_id r; au_username := au_username r; au_email := au_email r;
     au_password_hash := au_password_hash r; au_role := au_role r;
     au_is_active := au_is_active r; au_last_login := au_last_login r;
     au_created_at := au_created_at r; au_updated_at := now |}.

Definition update_updated_at_column_setting (now : timestamptz)
    (r : system_setting) : system_setting :=
  {| ss_id := ss_id r; ss_setting_key := ss_setting_key r;
     ss_setting_value := ss_setting_value r; ss_description := ss_description r;
     ss_updated_by := ss_updated_by r; ss_created_at := ss_created_at r;
     ss_updated_at := now |}.

(** ** Statements *)

Definition find_admin_user (id : uuid) (users : list admin_user) : option admin_user :=
  find (fun au => String.eqb (au_id au) id) users.

Definition find_domain_row (id : uuid) (rows : list domain_row) : option domain_row :=
  find (fun r => String.eqb (dr_id r) id) rows.

Definition opt_eqb (a b : option string) : bool :=
  match a, b with
  | Some x, Some y => String.eqb x y
  | _, _ => false
  end.

(** [username text UNIQUE NOT NULL], [email text UNIQUE] (NULLs never
    collide), [id uuid PRIMARY KEY]: may [r] join the rows [others]? *)
Definition admin_user_unique (r : admin_user) (others : list admin_user) : bool :=
  forallb (fun au =>
    negb (String.eqb (au_id au) (au_id r))
    && negb (String.eqb (au_username au) (au_username r))
    && negb (opt_eqb (au_email au) (au_email r))) others.

(** The columns a client supplies on insert, and the ones it may set on
    update ([None]: column not in the payload). *)
Record admin_user_values := {
  v_username : string;
  v_email : string;
  v_password_hash : string;
  v_role : role_t
}.

Record admin_user_patch := {
  p_username : option string;
  p_email : option string;
  p_role : option role_t;
  p_password_hash : option string;
  p_is_active : option bool
}.

Definition apply_patch (p : admin_user_patch) (r : admin_user) : admin_user :=
  {| au_id := au_id r;
     au_username := default (au_username r) (p_username p);
     au_email := match p_email p with Some e => Some e | None => au_email r end;
     au_password_hash := default (au_password_hash r) (p_password_hash p);
     au_role := default (au_role r) (p_role p);
     au_is_active := default (au_is_active r) (p_is_active p);
     au_last_login := au_last_login r;
     au_created_at := au_created_at r;
     au_updated_at := au_updated_at r |}.

(** Values drawn by the store while it runs one statement: [now()], the
    [gen_random_uuid()] of the audit row a trigger writes, and the
    [gen_random_uuid()] of the i-th row the statement itself inserts. *)
Record stmt_env := {
  env_now : timestamptz;
  env_audit_id : uuid;
  env_row_id : nat -> uuid
}.

Section Store.

(** Modelled from the spec: the row-security policies of [panchayaths],
    [agents] and [management_teams] belong to migrations that are not part
    of this development. The spec gives each resource one of two
    requirements (active administrator, or active super administrator),
    possibly a different one per kind of operation. *)
Variable domain_using : domain_table -> command -> using_expr.

(** The constraints those migrations declare on the domain tables, beyond
    the primary key: may the table hold these rows? *)
Variable domain_constraints : domain_table -> list domain_row -> bool.

Definition rls_permits (s : session) (t : table) (c : command)
    (users : list admin_user) : bool :=
  match t with
  | t_domain d =>
      rolbypassrls s ||
      (String.eqb "authenticated" (rolname s)
       && eval_using (domain_using d c) users (auth_uid s))
  | _ => permits migration_policies s t c users
  end.

(** Whether adding the policies to a statement on [t] ends in the
    recursion: some policy must apply to the statement (the policies of the
    domain tables are written for [authenticated], as those of the migration
    are). *)
Definition rls_recursion (s : session) (t : table) (c : command) : bool :=
  policy_recursion migration_policies
    (match t with
     | t_domain _ => String.eqb "authenticated" (rolname s)
     | _ => policy_named migration_policies s t c
     end) s.

Definition row_security (s : session) (t : table) (c : command) : result unit :=
  guard (negb (rls_recursion s t c)) invalid_object_definition.

(** [data || []]: the rows a client holds after a select, none when the
    select failed. *)
Definition rows_of {A} (r : result (list A)) : list A :=
  match r with
  | Ok data => data
  | Err _ => []
  end.

(** The row the trigger's [INSERT] adds: [id] and [created_at] take their
    defaults, [ip_address] and [user_agent] stay NULL. *)
Definition audit_row (e : stmt_env) (v : audit_values) : audit_log :=
  {| al_id := env_audit_id e;
     al_user_id := av_user_id v;
     al_action := av_action v;
     al_table_name := av_table_name v;
     al_record_id := av_record_id v;
     al_old_values := av_old_values v;
     al_new_values := av_new_values v;
     al_ip_address := None;
     al_user_agent := None;
     al_created_at := env_now e |}.

(** [INSERT INTO audit_logs (...) VALUES (...)] as run inside the trigger,
    under the privileges of the session that fired it: row security of
    [audit_logs], its primary key, and
    [user_id uuid REFERENCES admin_users(id)]. *)
Definition insert_audit_log (s : session) (e : stmt_env) (v : audit_values)
    (d : db) : result db :=
  do _ <- row_security s t_audit_logs INSERT;
  do _ <- guard (rls_permits s t_audit_logs INSERT (admin_users d))
                insufficient_privilege;
  do _ <- guard (forallb (fun a => negb (String.eqb (al_id a) (env_audit_id e)))
                         (audit_logs d))
                unique_violation;
  do _ <- guard (match av_user_id v with
                 | None => true
                 | Some u => existsb (fun au => String.eqb (au_id au) u) (admin_users d)
                 end)
                foreign_key_violation;
  Ok (with_audit_logs (audit_logs d ++ [audit_row e v]) d).

(** [AFTER INSERT OR UPDATE OR DELETE ... FOR EACH ROW
     EXECUTE FUNCTION log_admin_action()]: runs on the state the statement
    has produced so far, inside the statement's transaction. *)
Definition fire_audit_trigger {R} `{Row R} (s : session) (e : stmt_env)
    (tbl : string) (td : trigger_data R) (d : db) : result db :=
  insert_audit_log s e (fst (log_admin_action (auth_uid s) tbl td)) d.

(** *** admin_users *)

Definition insert_admin_user (s : session) (e : stmt_env)
    (v : admin_user_values) (d : db) : result (db * nat) :=
  let row := {| au_id := env_row_id e 0%nat; au_username := v_username v;
                au_email := Some (v_email v);
                au_password_hash := v_password_hash v; au_role := v_role v;
                au_is_active := true; au_last_login := None;
                au_created_at := env_now e; au_updated_at := env_now e |} in
  do _ <- row_security s t_admin_users INSERT;
  do _ <- guard (rls_permits s t_admin_users INSERT (admin_users d))
                insufficient_privilege;
  do _ <- guard (admin_user_unique row (admin_users d)) unique_violation;
  do d' <- fire_audit_trigger s e "admin_users" (on_insert row)
             (with_admin_users (admin_users d ++ [row]) d);
  Ok (d', 1%nat).

Definition replace_admin_user (r : admin_user) (users : list admin_user) :=
  map (fun au => if String.eqb (au_id au) (au_id r) then r else au) users.

Definition remove_admin_user (id : uuid) (users : list admin_user) :=
  List.filter (fun au => negb (String.eqb (au_id au) id)) users.

(** [UPDATE admin_users SET ... WHERE id = $id]. Rows the policy hides are
    not updated, without error. *)
Definition update_admin_user (s : session) (e : stmt_env) (id : uuid)
    (p : admin_user_patch) (d : db) : result (db * nat) :=
  do _ <- row_security s t_admin_users UPDATE;
  if negb (rls_permits s t_admin_users UPDATE (admin_users d)) then Ok (d, 0%nat)
  else match find_admin_user id (admin_users d) with
  | None => Ok (d, 0%nat)
  | Some old =>
      let new := update_updated_at_column_admin_user (env_now e) (apply_patch p old) in
      do _ <- guard (admin_user_unique new (remove_admin_user id (admin_users d)))
                    unique_violation;
      do d' <- fire_audit_trigger s e "admin_users" (on_update old new)
                 (with_admin_users (replace_admin_user new (admin_users d)) d);
      Ok (d', 1%nat)
  end.

(** Rows that still reference the user [id] once it is gone:
    [admin_user_permissions.granted_by], [system_settings.updated_by] and
    [audit_logs.user_id] are plain references (no action), whereas
    [admin_user_permissions.user_id] cascades. *)
Definition references_admin_user (id : uuid) (d : db) : bool :=
  existsb (fun g => opt_is (aup_granted_by g) id) (admin_user_permissions d)
  || existsb (fun x => opt_is (ss_updated_by x) id) (system_settings d)
  || existsb (fun a => opt_is (al_user_id a) id) (audit_logs d).

Definition delete_admin_user (s : session) (e : stmt_env) (id : uuid)
    (d : db) : result (db * nat) :=
  do _ <- row_security s t_admin_users DELETE;
  if negb (rls_permits s t_admin_users DELETE (admin_users d)) then Ok (d, 0%nat)
  else match find_admin_user id (admin_users d) with
  | None => Ok (d, 0%nat)
  | Some old =>
      let cascaded :=
        with_admin_user_permissions
          (List.filter (fun g => negb (String.eqb (aup_user_id g) id))
                       (admin_user_permissions d))
          (with_admin_users (remove_admin_user id (admin_users d)) d) in
      do d' <- fire_audit_trigger s e "admin_users" (on_delete old) cascaded;
      do _ <- guard (negb (references_admin_user id d')) foreign_key_violation;
      Ok (d', 1%nat)
  end.

(** *** The audited domain tables *)

Definition insert_domain_row (s : session) (e : stmt_env) (t : domain_table)
    (row : domain_row) (d : db) : result (db * nat) :=
  let rows := domain_rows d t ++ [row] in
  do _ <- row_security s (t_domain t) INSERT;
  do _ <- guard (rls_permits s (t_domain t) INSERT (admin_users d))
                insufficient_privilege;
  do _ <- guard (forallb (fun r => negb (String.eqb (dr_id r) (dr_id row)))
                         (domain_rows d t)) unique_violation;
  do _ <- guard (domain_constraints t rows) check_violation;
  do d' <- fire_audit_trigger s e (domain_table_name t) (on_insert row)
             (with_domain_rows t rows d);
  Ok (d', 1%nat).

Definition update_domain_row (s : session) (e : stmt_env) (t : domain_table)
    (id : uuid) (columns : list (string * json)) (d : db) : result (db * nat) :=
  do _ <- row_security s (t_domain t) UPDATE;
  if negb (rls_permits s (t_domain t) UPDATE (admin_users d)) then Ok (d, 0%nat)
  else match find_domain_row id (domain_rows d t) with
  | None => Ok (d, 0%nat)
  | Some old =>
      let new := {| dr_id := id; dr_columns := columns |} in
      let rows := map (fun r => if String.eqb (dr_id r) id then new else r)
                      (domain_rows d t) in
      do _ <- guard (domain_constraints t rows) check_violation;
      do d' <- fire_audit_trigger s e (domain_table_name t) (on_update old new)
                 (with_domain_rows t rows d);
      Ok (d', 1%nat)
  end.

Definition delete_domain_row (s : session) (e : stmt_env) (t : domain_table)
    (id : uuid) (d : db) : result (db * nat) :=
  do _ <- row_security s (t_domain t) DELETE;
  if negb (rls_permits s (t_domain t) DELETE (admin_users d)) then Ok (d, 0%nat)
  else match find_domain_row id (domain_rows d t) with
  | None => Ok (d, 0%nat)
  | Some old =>
      let rows := List.filter (fun r => negb (String.eqb (dr_id r) id))
                              (domain_rows d t) in
      do _ <- guard (domain_constraints t rows) check_violation;
      do d' <- fire_audit_trigger s e (domain_table_name t) (on_delete old)
                 (with_domain_rows t rows d);
      Ok (d', 1%nat)
  end.

(** *** admin_user_permissions *)

Definition delete_user_permissions (s : session) (user_id : uuid) (d : db)
    : result (db * nat) :=
  do _ <- row_security s t_admin_user_permissions DELETE;
  if negb (rls_permits s t_admin_user_permissions DELETE (admin_users d))
  then Ok (d, 0%nat)
  else
    let keep := List.filter (fun g => negb (String.eqb (aup_user_id g) user_id))
                            (admin_user_permissions d) in
    Ok (with_admin_user_permissions keep d,
        (List.length (admin_user_permissions d) - List.length keep)%nat).

Record grant_values := {
  gv_user_id : uuid;
  gv_permission_id : uuid
}.

(** The rows of one [INSERT] go in one after the other; the first one that
    breaks the primary key, [UNIQUE(user_id, permission_id)] or one of the
    two foreign keys aborts the statement. *)
Fixpoint insert_grant_rows (e : stmt_env) (i : nat) (rows : list grant_values)
    (users : list admin_user) (perms : list admin_permission)
    (tbl : list admin_user_permission) : result (list admin_user_permission) :=
  match rows with
  | [] => Ok tbl
  | r :: rest =>
      do _ <- guard (forallb (fun g => negb (String.eqb (aup_id g) (env_row_id e i))) tbl)
                    unique_violation;
      do _ <- guard (forallb (fun g =>
                        negb (String.eqb (aup_user_id g) (gv_user_id r)
                              && String.eqb (aup_permission_id g) (gv_permission_id r)))
                      tbl)
                    unique_violation;
      do _ <- guard (existsb (fun au => String.eqb (au_id au) (gv_user_id r)) users)
                    foreign_key_violation;
      do _ <- guard (existsb (fun ap => String.eqb (ap_id ap) (gv_permission_id r)) perms)
                    foreign_key_violation;
      insert_grant_rows e (S i) rest users perms
        (tbl ++ [{| aup_id := env_row_id e i;
                    aup_user_id := gv_user_id r;
                    aup_permission_id := gv_permission_id r;
                    aup_granted_by := None;
                    aup_created_at := env_now e |}])
  end.

Definition insert_user_permissions (s : session) (e : stmt_env)
    (rows : list grant_values) (d : db) : result (db * nat) :=
  do _ <- row_security s t_admin_user_permissions INSERT;
  do _ <- guard (rls_permits s t_admin_user_permissions INSERT (admin_users d))
                insufficient_privilege;
  do tbl <- insert_grant_rows e 0 rows (admin_users d) (admin_permissions d)
              (admin_user_permissions d);
  Ok (with_admin_user_permissions tbl d, List.length rows).

Definition select_user_permissions (s : session) (d : db) : list admin_user_permission :=
  rows_of
    (do _ <- row_security s t_admin_user_permissions SELECT;
     Ok (if rls_permits s t_admin_user_permissions SELECT (admin_users d)
         then admin_user_permissions d else [])).

(** *** system_settings *)

Record setting_values := {
  sv_setting_key : string;
  sv_setting_value : json;
  sv_updated_at : timestamptz
}.

Definition has_setting (key : string) (tbl : list system_setting) : bool :=
  existsb (fun x => String.eqb (ss_setting_key x) key) tbl.

Definition find_setting (key : string) (tbl : list system_setting) : option system_setting :=
  find (fun x => String.eqb (ss_setting_key x) key) tbl.

(** [ON CONFLICT (setting_key) DO UPDATE SET] the columns of the payload;
    the [BEFORE UPDATE] trigger then stamps [updated_at]. *)
Definition conflict_update (now : timestamptz) (v : setting_values)
    (x : system_setting) : system_setting :=
  update_updated_at_column_setting now
    {| ss_id := ss_id x;
       ss_setting_key := sv_setting_key v;
       ss_setting_value := sv_setting_value v;
       ss_description := ss_description x;
       ss_updated_by := ss_updated_by x;
       ss_created_at := ss_created_at x;
       ss_updated_at := sv_updated_at v |}.

Definition upsert_row (e : stmt_env) (i : nat) (v : setting_values)
    (tbl : list system_setting) : result (list system_setting) :=
  if has_setting (sv_setting_key v) tbl
  then Ok (map (fun x => if String.eqb (ss_setting_key x) (sv_setting_key v)
                         then conflict_update (env_now e) v x else x) tbl)
  else
    do _ <- guard (forallb (fun x => negb (String.eqb (ss_id x) (env_row_id e i))) tbl)
                  unique_violation;
    Ok (tbl ++ [{| ss_id := env_row_id e i;
                   ss_setting_key := sv_setting_key v;
                   ss_setting_value := sv_setting_value v;
                   ss_description := None;
                   ss_updated_by := None;
                   ss_created_at := env_now e;
                   ss_updated_at := sv_updated_at v |}]).

(** One statement may not touch the same key twice ([seen] holds the keys
    of the rows already proposed). *)
Fixpoint upsert_rows (e : stmt_env) (i : nat) (rows : list setting_values)
    (seen : list string) (tbl : list system_setting) : result (list system_setting) :=
  match rows with
  | [] => Ok tbl
  | v :: rest =>
      do _ <- guard (negb (existsb (String.eqb (sv_setting_key v)) seen))
                    cardinality_violation;
      do tbl' <- upsert_row e i v tbl;
      upsert_rows e (S i) rest (sv_setting_key v :: seen) tbl'
  end.

Definition upsert_system_settings (s : session) (e : stmt_env)
    (rows : list setting_values) (d : db) : result (db * nat) :=
  do _ <- row_security s t_system_settings INSERT;
  do _ <- row_security s t_system_settings UPDATE;
  do _ <- guard (rls_permits s t_system_settings INSERT (admin_users d)
                 && rls_permits s t_system_settings UPDATE (admin_users d))
                insufficient_privilege;
  do tbl <- upsert_rows e 0 rows [] (system_settings d);
  Ok (with_system_settings tbl d, List.length rows).

Definition select_system_settings (s : session) (d : db) : list system_setting :=
  rows_of
    (do _ <- row_security s t_system_settings SELECT;
     Ok (if rls_permits s t_system_settings SELECT (admin_users d)
         then system_settings d else [])).

(** *** audit_logs *)

Fixpoint insert_desc (a : audit_log) (l : list audit_log) : list audit_log :=
  match l with
  | [] => [a]
  | b :: l' =>
      if al_created_at b <? al_created_at a then a :: l
      else b :: insert_desc a l'
  end.

(** [.order('created_at', { ascending: false })]. *)
Definition order_by_created_at_desc (l : list audit_log) : list audit_log :=
  fold_right insert_desc [] l.

(** The client's [AuditLog]: a row with the embedded [admin_users (username)]. *)
Record AuditLog := {
  log_row : audit_log;
  log_admin_users : option string
}.

Definition embed_admin_users (s : session) (d : db) (a : audit_log) : AuditLog :=
  {| log_row := a;
     log_admin_users :=
       if rls_permits s t_admin_users SELECT (admin_users d)
       then match al_user_id a with
            | Some u => au_username <$> find_admin_user u (admin_users d)
            | None => None
            end
       else None |}.

(** The select of the logs with [admin_users (username)] embedded: one
    statement, which reads [audit_logs] and, for the embedding,
    [admin_users]. *)
Definition select_audit_logs (s : session) (limit : nat) (d : db) : list AuditLog :=
  rows_of
    (do _ <- row_security s t_audit_logs SELECT;
     do _ <- row_security s t_admin_users SELECT;
     Ok (if rls_permits s t_audit_logs SELECT (admin_users d)
         then map (embed_admin_users s d)
                  (firstn limit (order_by_created_at_desc (audit_logs d)))
         else [])).

(** ** Requests *)

(** A request is one statement in its own transaction: the store moves to
    the statement's result, or stays where it was when the statement fails. *)
Definition commit (r : result (db * nat)) (d : db) : db :=
  match r with
  | Ok (d', _) => d'
  | Err _ => d
  end.

Inductive request :=
| InsertAdminUser (v : admin_user_values)
| UpdateAdminUser (id : uuid) (p : admin_user_patch)
| DeleteAdminUser (id : uuid)
| InsertDomainRow (t : domain_table) (row : domain_row)
| UpdateDomainRow (t : domain_table) (id : uuid) (columns : list (string * json))
| DeleteDomainRow (t : domain_table) (id : uuid)
| DeleteUserPermissions (user_id : uuid)
| InsertUserPermissions (rows : list grant_values)
| UpsertSystemSettings (rows : list setting_values).

Definition exec (s : session) (e : stmt_env) (r : request) (d : db)
    : result (db * nat) :=
  match r with
  | InsertAdminUser v => insert_admin_user s e v d
  | UpdateAdminUser id p => update_admin_user s e id p d
  | DeleteAdminUser id => delete_admin_user s e id d
  | InsertDomainRow t row => insert_domain_row s e t row d
  | UpdateDomainRow t id columns => update_domain_row s e t id columns d
  | DeleteDomainRow t id => delete_domain_row s e t id d
  | DeleteUserPermissions u => delete_user_permissions s u d
  | InsertUserPermissions rows => insert_user_permissions s e rows d
  | UpsertSystemSettings rows => upsert_system_settings s e rows d
  end.

(** ** AdminUserManagement *)

Record toast_t := {
  title : string;
  description : string;
  variant : option string
}.

Definition toast_success (msg : string) : toast_t :=
  {| title := "Success"; description := msg; variant := None |}.

Definition toast_error (msg : string) : toast_t :=
  {| title := "Error"; description := msg; variant := Some "destructive" |}.

Record formData_t := {
  fd_username : string;
  fd_email : string;
  fd_password : string;
  fd_role : role_t
}.

(** The template literal [`$2b$10$${formData.password}`]. *)
Definition password_hash_of (password : string) : string :=
  ("$2b$10$" ++ password)%string.

(** [handleSubmit]: the store after the request, and the toast shown. *)
Definition handleSubmit (s : session) (e : stmt_env) (formData : formData_t)
    (editingUser : option admin_user) (d : db) : db * toast_t :=
  if negb (Text.truthy (fd_username formData))
     || negb (Text.truthy (fd_email formData))
     || (negb (bool_decide (is_Some editingUser))
         && negb (Text.truthy (fd_password formData)))
  then (d, toast_error "Please fill in all required fields")
  else
    match editingUser with
    | Some u =>
        let updateData :=
          {| p_username := Some (fd_username formData);
             p_email := Some (fd_email formData);
             p_role := Some (fd_role formData);
             p_password_hash :=
               if Text.truthy (fd_password formData)
               then Some (password_hash_of (fd_password formData)) else None;
             p_is_active := None |} in
        match update_admin_user s e (au_id u) updateData d with
        | Ok (d', _) => (d', toast_success "User updated successfully")
        | Err _ => (d, toast_error "Failed to save user")
        end
    | None =>
        match insert_admin_user s e
                {| v_username := fd_username formData;
                   v_email := fd_email formData;
                   v_password_hash := password_hash_of (fd_password formData);
                   v_role := fd_role formData |} d with
        | Ok (d', _) => (d', toast_success "User created successfully")
        | Err _ => (d, toast_error "Failed to save user")
        end
    end.

(** [saveUserPermissions]: the states the store goes through, one per
    request sent (the outcome of the delete is not inspected), and the toast.
    [e] is the environment of the insert. *)
Definition saveUserPermissions (s : session) (e : stmt_env)
    (selectedUser : option admin_user) (selectedPermissions : list uuid)
    (d : db) : list db * option toast_t :=
  match selectedUser with
  | None => ([], None)
  | Some u =>
      let d1 := commit (delete_user_permissions s (au_id u) d) d in
      if (0 <? List.length selectedPermissions)%nat then
        let permissionInserts :=
          map (fun permId => {| gv_user_id := au_id u; gv_permission_id := permId |})
              selectedPermissions in
        match insert_user_permissions s e permissionInserts d1 with
        | Ok (d2, _) => ([d1; d2], Some (toast_success "Permissions updated successfully"))
        | Err _ => ([d1; d1], Some (toast_error "Failed to save permissions"))
        end
      else ([d1], Some (toast_success "Permissions updated successfully"))
  end.

(** The permissions an identity holds, as the dialog reads them:
    [userPermissions.filter(up => up.user_id === user.id).map(up => up.permission_id)]. *)
Definition permissions_of (user_id : uuid) (d : db) : list uuid :=
  map aup_permission_id
      (List.filter (fun up => String.eqb (aup_user_id up) user_id)
                   (admin_user_permissions d)).


(** ** SystemSettings *)

(** [fetchSettings]: the reduce that builds [settingsMap]. *)
Definition fetchSettings (s : session) (d : db) : gmap string json :=
  fold_left (fun acc setting =>
               Js.assign (ss_setting_key setting) (ss_setting_value setting) acc)
            (select_system_settings s d) ∅.

(** [updateSetting]: on success the store and the component's [settings];
    an error of the store is thrown on. [client_now] is [new Date()]. *)
Definition updateSetting (s : session) (e : stmt_env) (client_now : timestamptz)
    (key : string) (value : json) (settings : gmap string json) (d : db)
    : result (db * gmap string json) :=
  do r <- upsert_system_settings s e
            [{| sv_setting_key := key; sv_setting_value := value;
                sv_updated_at := client_now |}] d;
  Ok (fst r, <[key := value]> settings).

(** [handleSaveAll]: one upsert carrying every entry of [settings];
    [client_clock i] is the [new Date()] read for the i-th entry. *)
Definition handleSaveAll (s : session) (e : stmt_env)
    (client_clock : nat -> timestamptz) (settings : gmap string json) (d : db)
    : db * toast_t :=
  let updates :=
    imap (fun i kv => {| sv_setting_key := fst kv; sv_setting_value := snd kv;
                         sv_updated_at := client_clock i |})
         (map_to_list settings) in
  match upsert_system_settings s e updates d with
  | Ok (d', _) => (d', toast_success "System settings saved successfully")
  | Err _ => (d, toast_error "Failed to save system settings")
  end.

(** What the form holds under a key: a value as fetched or as an input
    gave it, or the [NaN] that [parseInt(e.target.value)] gives for an
    emptied number input. *)
Inductive form_value :=
| Held (value : json)
| NaN.

(** The value as a request carries it: the body is JSON, which writes
    [NaN] as [null]. *)
Definition sent (value : form_value) : json :=
  match value with
  | Held value => value
  | NaN => JNull
  end.

(** [handleInputChange]: [{ ...prev, [key]: value }]. *)
Definition handleInputChange (key : string) (value : form_value)
    (settings : gmap string form_value) : gmap string form_value :=
  <[key := value]> settings.

(** ** AuditLogs *)

Record filters_t := {
  f_action : string;
  f_table : string;
  f_user : string;
  f_dateFrom : option Date;
  f_dateTo : option Date;
  f_search : string
}.

(** [new Date(log.created_at)]: the instant in milliseconds, its
    microseconds dropped. *)
Definition new_Date (t : timestamptz) : Date := t / 1000.

Definition fetchAuditLogs (s : session) (d : db) : list AuditLog :=
  select_audit_logs s 1000 d.

(** [log.admin_users?.username.toLowerCase().includes(term)]: falsy when
    there is no embedded user. *)
Definition username_includes (log : AuditLog) (term : string) : bool :=
  match log_admin_users log with
  | Some u => Text.includes (Text.toLowerCase u) term
  | None => false
  end.

Definition applyFilters (filters : filters_t) (logs : list AuditLog) : list AuditLog :=
  let filtered := logs in
  let filtered :=
    if Text.truthy (f_action filters)
    then List.filter (fun log => String.eqb (al_action (log_row log)) (f_action filters)) filtered
    else filtered in
  let filtered :=
    if Text.truthy (f_table filters)
    then List.filter (fun log => String.eqb (al_table_name (log_row log)) (f_table filters)) filtered
    else filtered in
  let filtered :=
    if Text.truthy (f_user filters)
    then List.filter (fun log => username_includes log (Text.toLowerCase (f_user filters))) filtered
    else filtered in
  let filtered :=
    match f_dateFrom filters with
    | Some dateFrom =>
        List.filter (fun log => new_Date (al_created_at (log_row log)) >=? dateFrom)
                    filtered
    | None => filtered
    end in
  let filtered :=
    match f_dateTo filters with
    | Some dateTo =>
        List.filter (fun log => new_Date (al_created_at (log_row log)) <=? dateTo)
                    filtered
    | None => filtered
    end in
  let filtered :=
    if Text.truthy (f_search filters)
    then
      let searchTerm := Text.toLowerCase (f_search filters) in
      List.filter (fun log =>
          Text.includes (Text.toLowerCase (al_action (log_row log))) searchTerm
          || Text.includes (Text.toLowerCase (al_table_name (log_row log))) searchTerm
          || Text.includes (Text.toLowerCase (al_record_id (log_row log))) searchTerm
          || username_includes log searchTerm) filtered
    else filtered in
  filtered.

Definition clearFilters : filters_t :=
  {| f_action := ""; f_table := ""; f_user := "";
     f_dateFrom := None; f_dateTo := None; f_search := "" |}.

(** [new Date(created_at).toISOString()], of the stored instant. *)
Variable toISOString : timestamptz -> string.

(** [x || dflt] on a possibly missing string. *)
Definition or_else (x : option string) (dflt : string) : string :=
  match x with
  | Some v => if Text.truthy v then v else dflt
  | None => dflt
  end.

Definition csv_header : string :=
  Text.join "," ["Timestamp"; "User"; "Action"; "Table"; "Record ID"; "IP Address"].

Definition csv_line (log : AuditLog) : string :=
  Text.join ","
    [toISOString (al_created_at (log_row log));
     or_else (log_admin_users log) "Unknown";
     al_action (log_row log);
     al_table_name (log_row log);
     al_record_id (log_row log);
     or_else (al_ip_address (log_row log)) ""].

(** [exportLogs]: the content of the downloaded file. *)
Definition exportLogs (filteredLogs : list AuditLog) : string :=
  Text.join (String "010"%char EmptyString) (csv_header :: map csv_line filteredLogs).

(** ** AdminUserManagement, the other handlers *)

(** [handleToggleStatus(userId, currentStatus)]: the payload is
    [{ is_active: !currentStatus }], with the status the table row showed. *)
Definition handleToggleStatus (s : session) (e : stmt_env) (userId : uuid)
    (currentStatus : bool) (d : db) : db * toast_t :=
  match update_admin_user s e userId
          {| p_username := None; p_email := None; p_role := None;
             p_password_hash := None; p_is_active := Some (negb currentStatus) |} d with
  | Ok (d', _) =>
      (d', toast_success
             (if negb currentStatus then "User activated successfully"
              else "User deactivated successfully"))
  | Err _ => (d, toast_error "Failed to update user status")
  end.

(** [handleDeleteUser(userId)]; [confirmed] is the answer to [confirm(...)]. *)
Definition handleDeleteUser (s : session) (e : stmt_env) (confirmed : bool)
    (userId : uuid) (d : db) : db * option toast_t :=
  if negb confirmed then (d, None)
  else
    match delete_admin_user s e userId d with
    | Ok (d', _) => (d', Some (toast_success "User deleted successfully"))
    | Err _ => (d, Some (toast_error "Failed to delete user"))
    end.

(** [resetForm] and [handleEdit]: the form they leave and [editingUser]. *)
Definition resetForm : formData_t * option admin_user :=
  ({| fd_username := ""; fd_email := ""; fd_password := ""; fd_role := admin |},
   None).

Definition handleEdit (user : admin_user) : formData_t * option admin_user :=
  ({| fd_username := au_username user;
      fd_email := or_else (au_email user) "";
      fd_password := "";
      fd_role := au_role user |},
   Some user).

(** The client's [UserPermission]: a grant with the embedded row of
    [admin_permissions]. *)
Record UserPermission := {
  up_row : admin_user_permission;
  up_admin_permissions : option admin_permission
}.

(** The select of the grants with their permissions embedded: the
    embedding reads [admin_permissions] in the same statement. *)
Definition fetchUserPermissions (s : session) (d : db) : list UserPermission :=
  rows_of
    (do _ <- row_security s t_admin_permissions SELECT;
     Ok (map (fun g =>
                {| up_row := g;
                   up_admin_permissions :=
                     if rls_permits s t_admin_permissions SELECT (admin_users d)
                     then find (fun ap => String.eqb (ap_id ap) (aup_permission_id g))
                               (admin_permissions d)
                     else None |})
             (select_user_permissions s d))).

(** [openPermissionDialog(user)]: the selection the dialog starts with. *)
Definition openPermissionDialog (user : admin_user)
    (userPermissions : list UserPermission) : list uuid :=
  map (fun up => aup_permission_id (up_row up))
      (List.filter (fun up => String.eqb (aup_user_id (up_row up)) (au_id user))
                   userPermissions).

(** The [onChange] of a permission checkbox; [checked] is
    [e.target.checked], the state the box takes. *)
Definition onPermissionChange (checked : bool) (permission_id : uuid)
    (selectedPermissions : list uuid) : list uuid :=
  if checked then selectedPermissions ++ [permission_id]
  else List.filter (fun id => negb (String.eqb id permission_id)) selectedPermissions.

(** The box is drawn [checked={selectedPermissions.includes(permission.id)}],
    so a click asks for the opposite. *)
Definition clickPermission (permission_id : uuid)
    (selectedPermissions : list uuid) : list uuid :=
  onPermissionChange
    (negb (existsb (String.eqb permission_id) selectedPermissions))
    permission_id selectedPermissions.

(** [groupedPermissions]: the reduce that files each permission under its
    module. [acc[perm.module]] of a name the object does not own is the
    inherited value when there is one: it is truthy and has no [push], so
    the reduce throws the TypeError ([None]). *)
Definition groupedPermissions (permissions : list admin_permission)
    : option (gmap string (list admin_permission)) :=
  fold_left (fun acc perm =>
               match acc with
               | None => None
               | Some groups =>
                   match groups !! ap_module perm with
                   | Some group =>
                       Some (<[ap_module perm := group ++ [perm]]> groups)
                   | None =>
                       if Js.inherited (ap_module perm) then None
                       else Some (<[ap_module perm := [perm]]> groups)
                   end
               end)
            permissions (Some ∅).

(** ** AuditLogs, the filter options and the badge *)

(** [[...new Set(xs)]]: the distinct values, in order of first occurrence. *)
Definition distinct (xs : list string) : list string :=
  fold_left (fun acc x => if existsb (String.eqb x) acc then acc else acc ++ [x])
            xs [].

Definition uniqueActions (logs : list AuditLog) : list string :=
  distinct (map (fun log => al_action (log_row log)) logs).

Definition uniqueTables (logs : list AuditLog) : list string :=
  distinct (map (fun log => al_table_name (log_row log)) logs).

(** [getActionBadge]: the class of the badge (none for the outline variant)
    and its text. *)
Definition getActionBadge (action : string) : option string * string :=
  if String.eqb action "INSERT" then (Some "bg-green-100 text-green-800", "CREATE")
  else if String.eqb action "UPDATE" then (Some "bg-blue-100 text-blue-800", "UPDATE")
  else if String.eqb action "DELETE" then (Some "bg-red-100 text-red-800", "DELETE")
  else (None, action).

(** ** SystemReports *)

(** What a counting reduce leaves under a key: a number, or a text once
    [+] has met a value that is not a number. *)
Inductive tally_value :=
| Count (n : nat)
| Text (t : string).

(** The text [Object.prototype[key]] gives when it is added to a number:
    for the inherited functions, the engine's rendering of their source. *)
Variable inherited_text : string -> string.

(** The reduce of [fetchReportData] that counts rows by the value of one
    column: [acc[k] = (acc[k] || 0) + 1]. *)
Definition tally (keys : list string) : gmap string tally_value :=
  fold_left (fun acc k =>
               Js.assign k
                 match acc !! k with
                 | Some (Count n) => Count (n + 1)
                 | Some (Text t) =>
                     if Text.truthy t then Text (t ++ "1")%string else Count 1
                 | None =>
                     if Js.inherited k then Text (inherited_text k ++ "1")%string
                     else Count 1
                 end acc)
            keys ∅.

(** [n] times the digit [+ 1] appends to a text. *)
Fixpoint ones (n : nat) : string :=
  match n with
  | O => ""
  | S n => (ones n ++ "1")%string
  end.

(** ** The seed rows of the migration *)

(** [INSERT INTO system_settings (setting_key, setting_value, description)
     VALUES ... ON CONFLICT (setting_key) DO NOTHING]: a row whose key is
    taken is skipped; the others take their defaults. *)
Fixpoint insert_settings_do_nothing (e : stmt_env) (i : nat)
    (rows : list (string * json * string)) (tbl : list system_setting)
    : result (list system_setting) :=
  match rows with
  | [] => Ok tbl
  | (key, value, description) :: rest =>
      if has_setting key tbl then insert_settings_do_nothing e (S i) rest tbl
      else
        do _ <- guard (forallb (fun x => negb (String.eqb (ss_id x) (env_row_id e i))) tbl)
                      unique_violation;
        insert_settings_do_nothing e (S i) rest
          (tbl ++ [{| ss_id := env_row_id e i;
                      ss_setting_key := key;
                      ss_setting_value := value;
                      ss_description := Some description;
                      ss_updated_by := None;
                      ss_created_at := env_now e;
                      ss_updated_at := env_now e |}])
  end.

Definition default_system_settings : list (string * json * string) := [
  ("system_name", JStr "Panchayath Management System", "Name of the system");
  ("max_login_attempts", JNum 5, "Maximum login attempts before lockout");
  ("session_timeout", JNum 3600, "Session timeout in seconds");
  ("enable_guest_registration", JBool true, "Allow guest user registration");
  ("require_email_verification", JBool false,
   "Require email verification for new users");
  ("default_user_role", JStr "user", "Default role for new users");
  ("maintenance_mode", JBool false, "Enable maintenance mode")
].

Definition seed_system_settings (e : stmt_env) (d : db) : result db :=
  do tbl <- insert_settings_do_nothing e 0 default_system_settings (system_settings d);
  Ok (with_system_settings tbl d).

(** [INSERT INTO admin_users (username, email, password_hash, role) VALUES ...
     ON CONFLICT (username) DO NOTHING]: only a taken username makes a row
    be skipped; a taken email or id is still a unique violation. *)
Fixpoint insert_admin_users_do_nothing (e : stmt_env) (i : nat)
    (rows : list admin_user_values) (tbl : list admin_user)
    : result (list admin_user) :=
  match rows with
  | [] => Ok tbl
  | v :: rest =>
      if existsb (fun au => String.eqb (au_username au) (v_username v)) tbl
      then insert_admin_users_do_nothing e (S i) rest tbl
      else
        let row := {| au_id := env_row_id e i; au_username := v_username v;
                      au_email := Some (v_email v);
                      au_password_hash := v_password_hash v; au_role := v_role v;
                      au_is_active := true; au_last_login := None;
                      au_created_at := env_now e; au_updated_at := env_now e |} in
        do _ <- guard (admin_user_unique row tbl) unique_violation;
        insert_admin_users_do_nothing e (S i) rest (tbl ++ [row])
  end.

Definition default_admin_users : list admin_user_values := [
  {| v_username := "superadmin"; v_email := "super@admin.com";
     v_password_hash := "$2b$10$example_hash_for_password123";
     v_role := super_admin |};
  {| v_username := "admin1"; v_email := "admin1@system.com";
     v_password_hash := "$2b$10$example_hash_for_admin123";
     v_role := admin |};
  {| v_username := "localadmin"; v_email := "local@admin.com";
     v_password_hash := "$2b$10$example_hash_for_local123";
     v_role := local_admin |}
].

(** The seeds run inside the migration, before the audit triggers exist. *)
Definition seed_admin_users (e : stmt_env) (d : db) : result db :=
  do tbl <- insert_admin_users_do_nothing e 0 default_admin_users (admin_users d);
  Ok (with_admin_users tbl d).

(** ** Vocabulary of the properties *)

(** The tables that carry an audit trigger. *)
Inductive tracked := tr_admin_users | tr_domain (t : domain_table).

Definition tracked_name (t : tracked) : string :=
  match t with
  | tr_admin_users => "admin_users"
  | tr_domain t => domain_table_name t
  end.

(** The state of the row [id] of a tracked table, as [to_jsonb] shows it. *)
Definition row_json (t : tracked) (id : uuid) (d : db) : option json :=
  match t with
  | tr_admin_users => to_jsonb <$> find_admin_user id (admin_users d)
  | tr_domain t => to_jsonb <$> find_domain_row id (domain_rows d t)
  end.

(** The row mutation a request asks for, when it addresses a tracked table. *)
Definition mutation_of (e : stmt_env) (r : request) : option (tracked * command * uuid) :=
  match r with
  | InsertAdminUser _ => Some (tr_admin_users, INSERT, env_row_id e 0%nat)
  | UpdateAdminUser id _ => Some (tr_admin_users, UPDATE, id)
  | DeleteAdminUser id => Some (tr_admin_users, DELETE, id)
  | InsertDomainRow t row => Some (tr_domain t, INSERT, dr_id row)
  | UpdateDomainRow t id _ => Some (tr_domain t, UPDATE, id)
  | DeleteDomainRow t id => Some (tr_domain t, DELETE, id)
  | _ => None
  end.

(** What the audit record of a committed row mutation says. *)
Definition records_mutation (s : session) (e : stmt_env)
    (m : tracked * command * uuid) (d d' : db) (a : audit_log) : Prop :=
  let '(t, c, id) := m in
  al_id a = env_audit_id e
  /\ al_user_id a = auth_uid s
  /\ al_action a = command_text c
  /\ al_table_name a = tracked_name t
  /\ al_record_id a = id
  /\ al_created_at a = env_now e
  /\ al_old_values a = (if command_eqb c DELETE then row_json t id d else None)
  /\ al_new_values a = (if command_eqb c DELETE then None else row_json t id d').

(** The row mutation itself, read off the table before and after. *)
Definition row_mutated (m : tracked * command * uuid) (d d' : db) : Prop :=
  let '(t, c, id) := m in
  match c with
  | INSERT => row_json t id d = None /\ is_Some (row_json t id d')
  | UPDATE => is_Some (row_json t id d) /\ is_Some (row_json t id d')
  | DELETE => is_Some (row_json t id d) /\ row_json t id d' = None
  | SELECT => False
  end.

(** The outcome of a statement that succeeded with [n] affected rows. *)
Definition statement_outcome (s : session) (e : stmt_env) (r : request)
    (d d' : db) (n : nat) : Prop :=
  match mutation_of e r with
  | Some m =>
      (n = 0%nat /\ d' = d)
      \/ (n = 1%nat /\ row_mutated m d d'
          /\ (exists w v, insert_audit_log s e v w = Ok d')
          /\ exists a, audit_logs d' = audit_logs d ++ [a]
                       /\ records_mutation s e m d d' a)
  | None =>
      audit_logs d' = audit_logs d
      /\ admin_users d' = admin_users d
      /\ domain_rows d' = domain_rows d
  end.

Definition journal_entry : Type := string * string * string.


(** The row mutation a successful statement committed, if any. *)
Definition journal_of (e : stmt_env) (r : request) (n : nat) : list journal_entry :=
  match mutation_of e r with
  | Some (t, c, id) =>
      if (0 <? n)%nat then [(tracked_name t, command_text c, id)] else []
  | None => []
  end.

(** A history of requests, each in its own transaction: the state reached
    and the journal of the row mutations committed on tracked tables. *)
Fixpoint run (reqs : list (session * stmt_env * request)) (d : db)
    : db * list journal_entry :=
  match reqs with
  | [] => (d, [])
  | (s, e, r) :: rest =>
      match exec s e r d with
      | Ok (d', n) =>
          let '(df, j) := run rest d' in (df, journal_of e r n ++ j)
      | Err _ => run rest d
      end
  end.

Definition authenticated_as (u : using_expr) (s : session) (users : list admin_user) : bool :=
  String.eqb "authenticated" (rolname s) && eval_using u users (auth_uid s).

(** An acting identity that is unauthenticated ([auth.uid()] is NULL),
    missing from [admin_users], or present but not active. *)
Definition not_an_active_identity (s : session) (users : list admin_user) : Prop :=
  forall au, In au users -> opt_is (auth_uid s) (au_id au) = true ->
             au_is_active au = false.

(** The rows an [INSERT] of [rows] adds to [admin_user_permissions], the
    first of them being the i-th row of the statement. *)
Fixpoint grant_rows (e : stmt_env) (i : nat) (rows : list grant_values)
    : list admin_user_permission :=
  match rows with
  | [] => []
  | r :: rest =>
      {| aup_id := env_row_id e i;
         aup_user_id := gv_user_id r;
         aup_permission_id := gv_permission_id r;
         aup_granted_by := None;
         aup_created_at := env_now e |} :: grant_rows e (S i) rest
  end.

Definition grants_for (user_id : uuid) (sel : list uuid) : list grant_values :=
  map (fun permId => {| gv_user_id := user_id; gv_permission_id := permId |}) sel.

(** The payload [handleSaveAll] builds from the component's [settings]. *)
Definition updates_of (client_clock : nat -> timestamptz)
    (settings : gmap string json) : list setting_values :=
  imap (fun i kv => {| sv_setting_key := fst kv; sv_setting_value := snd kv;
                       sv_updated_at := client_clock i |})
       (map_to_list settings).

(** [get(key)]: the value the store holds for a key. *)
Definition get_setting (key : string) (d : db) : option json :=
  ss_setting_value <$> find_setting key (system_settings d).

(** Newest first. *)
Definition newer_or_same (a b : audit_log) : Prop :=
  al_created_at b <= al_created_at a.

(** The records the list operation reads: the [limit] newest. *)
Definition newest (limit : nat) (d : db) : list audit_log :=
  firstn limit (order_by_created_at_desc (audit_logs d)).

(** A filter that constrains the creation time only. *)
Definition date_range (dateFrom dateTo : Date) : filters_t :=
  {| f_action := ""; f_table := ""; f_user := "";
     f_dateFrom := Some dateFrom; f_dateTo := Some dateTo; f_search := "" |}.

(** ** A small installation, for the examples *)

(** The three seeded administrators (the third one deactivated since), two
    of the seeded permissions, one grant, one seeded setting. *)
Definition superadmin : admin_user :=
  {| au_id := "u1"; au_username := "superadmin"; au_email := Some "super@admin.com";
     au_password_hash := "$2b$10$example_hash_for_password123";
     au_role := super_admin; au_is_active := true; au_last_login := None;
     au_created_at := 0; au_updated_at := 0 |}.

Definition admin1 : admin_user :=
  {| au_id := "u2"; au_username := "admin1"; au_email := Some "admin1@system.com";
     au_password_hash := "$2b$10$example_hash_for_admin123";
     au_role := admin; au_is_active := true; au_last_login := None;
     au_created_at := 0; au_updated_at := 0 |}.

Definition localadmin : admin_user :=
  {| au_id := "u3"; au_username := "localadmin"; au_email := Some "local@admin.com";
     au_password_hash := "$2b$10$example_hash_for_local123";
     au_role := local_admin; au_is_active := false; au_last_login := None;
     au_created_at := 0; au_updated_at := 50 |}.

Definition seeded : db :=
  {| admin_users := [superadmin; admin1; localadmin];
     admin_permissions :=
       [{| ap_id := "p1"; ap_module := "users"; ap_action := "create";
           ap_description := Some "Create new users"; ap_created_at := 0 |};
        {| ap_id := "p2"; ap_module := "users"; ap_action := "read";
           ap_description := Some "View user information"; ap_created_at := 0 |}];
     admin_user_permissions :=
       [{| aup_id := "g1"; aup_user_id := "u2"; aup_permission_id := "p1";
           aup_granted_by := None; aup_created_at := 10 |}];
     system_settings :=
       [{| ss_id := "s1"; ss_setting_key := "maintenance_mode";
           ss_setting_value := JBool false;
           ss_description := Some "Enable maintenance mode";
           ss_updated_by := None; ss_created_at := 0; ss_updated_at := 0 |}];
     audit_logs := [];
     domain_rows := fun _ => [] |}.

(** A session of the store's own role, of the super administrator, of the
    administrator, and of the deactivated local administrator. *)
Definition as_service : session :=
  {| rolname := "service_role"; rolbypassrls := true; auth_uid := None |}.

Definition as_superadmin : session :=
  {| rolname := "authenticated"; rolbypassrls := false; auth_uid := Some "u1" |}.

Definition as_admin1 : session :=
  {| rolname := "authenticated"; rolbypassrls := false; auth_uid := Some "u2" |}.

Definition as_localadmin : session :=
  {| rolname := "authenticated"; rolbypassrls := false; auth_uid := Some "u3" |}.

Definition an_env : stmt_env :=
  {| env_now := 100;
     env_audit_id := "a1";
     env_row_id := fun i => match i with
                            | O => "r0"
                            | S O => "r1"
                            | _ => "r2"
                            end |}.

(** [handleToggleStatus] on [admin1]. *)
Definition deactivate_admin1 : request :=
  UpdateAdminUser "u2"
    {| p_username := None; p_email := None; p_role := None;
       p_password_hash := None; p_is_active := Some false |}.

Definition any_active_admin (t : domain_table) (c : command) : using_expr :=
  active_admin.

Definition unconstrained (t : domain_table) (rows : list domain_row) : bool := true.

(** An audit log of 1001 records, one per millisecond from the instant 0,
    each created half a millisecond after the full millisecond. *)
Definition audit_log_at (i : nat) : audit_log :=
  {| al_id := ("log" ++ NilZero.string_of_uint (Nat.to_uint i))%string;
     al_user_id := None; al_action := "UPDATE"; al_table_name := "panchayaths";
     al_record_id := "row"; al_old_values := None; al_new_values := Some JNull;
     al_ip_address := None; al_user_agent := None;
     al_created_at := 1000 * Z.of_nat i + 500 |}.

Definition long_history : db :=
  with_audit_logs (map audit_log_at (seq 0 1001)) seeded.

(** ** Vocabulary of the further properties *)

(** The constraints of the schema, as properties of a state: primary keys
    and [UNIQUE] columns (a NULL email collides with nothing), and foreign
    keys. *)
Definition emails (users : list admin_user) : list string :=
  flat_map (fun au => option_list (au_email au)) users.

Definition grant_pair (g : admin_user_permission) : string * string :=
  (aup_user_id g, aup_permission_id g).

Record unique_keys (d : db) : Prop := {
  uk_users_id : List.NoDup (map au_id (admin_users d));
  uk_users_username : List.NoDup (map au_username (admin_users d));
  uk_users_email : List.NoDup (emails (admin_users d));
  uk_grants_id : List.NoDup (map aup_id (admin_user_permissions d));
  uk_grants_pair : List.NoDup (map grant_pair (admin_user_permissions d));
  uk_settings_id : List.NoDup (map ss_id (system_settings d));
  uk_settings_key : List.NoDup (map ss_setting_key (system_settings d));
  uk_audit_id : List.NoDup (map al_id (audit_logs d));
  uk_domain_id : forall t, List.NoDup (map dr_id (domain_rows d t))
}.

(** A nullable reference to [admin_users(id)]. *)
Definition refers_to_user (users : list admin_user) (o : option uuid) : Prop :=
  match o with
  | None => True
  | Some u => In u (map au_id users)
  end.

Record references_hold (d : db) : Prop := {
  fk_grants_user : forall g, In g (admin_user_permissions d) ->
      In (aup_user_id g) (map au_id (admin_users d));
  fk_grants_permission : forall g, In g (admin_user_permissions d) ->
      In (aup_permission_id g) (map ap_id (admin_permissions d));
  fk_grants_granted_by : forall g, In g (admin_user_permissions d) ->
      refers_to_user (admin_users d) (aup_granted_by g);
  fk_settings_updated_by : forall x, In x (system_settings d) ->
      refers_to_user (admin_users d) (ss_updated_by x);
  fk_audit_user : forall a, In a (audit_logs d) ->
      refers_to_user (admin_users d) (al_user_id a)
}.

Definition consistent (d : db) : Prop := unique_keys d /\ references_hold d.

(** The constraints of [admin_user_permissions], on the table alone. *)
Definition grants_ok (users : list admin_user) (perms : list admin_permission)
    (tbl : list admin_user_permission) : Prop :=
  List.NoDup (map aup_id tbl)
  /\ List.NoDup (map grant_pair tbl)
  /\ (forall g, In g tbl -> In (aup_user_id g) (map au_id users))
  /\ (forall g, In g tbl -> In (aup_permission_id g) (map ap_id perms))
  /\ (forall g, In g tbl -> refers_to_user users (aup_granted_by g)).

(** The constraints of [system_settings], on the table alone. *)
Definition settings_ok (users : list admin_user) (tbl : list system_setting) : Prop :=
  List.NoDup (map ss_id tbl)
  /\ List.NoDup (map ss_setting_key tbl)
  /\ (forall x, In x tbl -> refers_to_user users (ss_updated_by x)).

(** One log against all the filters at once. *)
Definition keeps (filters : filters_t) (log : AuditLog) : bool :=
  (negb (Text.truthy (f_action filters))
   || String.eqb (al_action (log_row log)) (f_action filters))
  && (negb (Text.truthy (f_table filters))
      || String.eqb (al_table_name (log_row log)) (f_table filters))
  && (negb (Text.truthy (f_user filters))
      || username_includes log (Text.toLowerCase (f_user filters)))
  && match f_dateFrom filters with
     | Some dateFrom => new_Date (al_created_at (log_row log)) >=? dateFrom
     | None => true
     end
  && match f_dateTo filters with
     | Some dateTo => new_Date (al_created_at (log_row log)) <=? dateTo
     | None => true
     end
  && (negb (Text.truthy (f_search filters))
      || (Text.includes (Text.toLowerCase (al_action (log_row log)))
                        (Text.toLowerCase (f_search filters))
          || Text.includes (Text.toLowerCase (al_table_name (log_row log)))
                           (Text.toLowerCase (f_search filters))
          || Text.includes (Text.toLowerCase (al_record_id (log_row log)))
                           (Text.toLowerCase (f_search filters))
          || username_includes log (Text.toLowerCase (f_search filters)))).

(** The filter the action menu sets. *)
Definition by_action (action : string) : filters_t :=
  {| f_action := action; f_table := ""; f_user := "";
     f_dateFrom := None; f_dateTo := None; f_search := "" |}.

(** How often a character occurs in a text. *)
Fixpoint count_char (c : ascii) (s : string) : nat :=
  match s with
  | EmptyString => 0
  | String c' s' => ((if Ascii.eqb c' c then 1 else 0) + count_char c s')%nat
  end.

Definition comma : ascii := ","%char.
Definition newline : ascii := "010"%char.

(** ** More of the small installation *)

(** An audit record of an action of the super administrator, and the
    installation with that record in its log. *)
Definition a_super_admin_action : audit_log :=
  {| al_id := "a0"; al_user_id := Some "u1"; al_action := "INSERT";
     al_table_name := "panchayaths"; al_record_id := "row";
     al_old_values := None; al_new_values := Some JNull;
     al_ip_address := None; al_user_agent := None; al_created_at := 20 |}.

Definition audited : db := with_audit_logs [a_super_admin_action] seeded.

(** A user the installation does not hold. *)
Definition a_stranger : admin_user :=
  {| au_id := "u9"; au_username := "stranger"; au_email := Some "stranger@system.com";
     au_password_hash := "$2b$10$none"; au_role := admin; au_is_active := true;
     au_last_login := None; au_created_at := 0; au_updated_at := 0 |}.

(** The super administrator's account under another user name. *)
Definition renamed_superadmin : admin_user :=
  {| au_id := "u1"; au_username := "root"; au_email := Some "super@admin.com";
     au_password_hash := "$2b$10$changed"; au_role := super_admin;
     au_is_active := true; au_last_login := None;
     au_created_at := 0; au_updated_at := 60 |}.

(** The environment of a run of the migration: row ids that differ. *)
Definition a_migration_env : stmt_env :=
  {| env_now := 0;
     env_audit_id := "a1";
     env_row_id := fun i => ("seed" ++ NilZero.string_of_uint (Nat.to_uint i))%string |}.

(** The store a result leaves, or [d] when the statement failed. *)
Definition stored (r : result db) (d : db) : db :=
  match r with
  | Ok d' => d'
  | Err _ => d
  end.



(** The installation with a [maintenance_mode] that names the super
    administrator as its updater. *)
Definition configured : db :=
  with_system_settings
    [{| ss_id := "s1"; ss_setting_key := "maintenance_mode";
        ss_setting_value := JBool false;
        ss_description := Some "Enable maintenance mode";
        ss_updated_by := Some "u1"; ss_created_at := 0; ss_updated_at := 30 |}]
    seeded.

(** A session of a role that no policy names. *)
Definition as_anon : session :=
  {| rolname := "anon"; rolbypassrls := false; auth_uid := None |}.

(** The form after the maintenance mode was switched on and the input of
    the login attempts emptied. *)
Definition a_form : gmap string form_value :=
  handleInputChange "max_login_attempts" NaN
    (handleInputChange "maintenance_mode" (Held (JBool true)) ∅).

(** * Properties *)

(** ** Row-level security *)

Lemma rls_admin_users_write s c users :
  c <> SELECT ->
  rls_permits s t_admin_users c users
  = rolbypassrls s || authenticated_as active_super_admin s users.
Proof.
  intros Hc. unfold rls_permits, permits, authenticated_as, policy_applies.
  cbn -[String.eqb eval_using].
  destruct c; try congruence; cbn -[String.eqb eval_using];
    rewrite ?andb_false_r, ?orb_false_r; reflexivity.
Qed.

Lemma rls_admin_users_select s users :
  rls_permits s t_admin_users SELECT users
  = rolbypassrls s || authenticated_as active_super_admin s users
    || authenticated_as active_admin s users.
Proof.
  unfold rls_permits, permits, authenticated_as, policy_applies.
  cbn -[String.eqb eval_using].
  rewrite ?andb_false_r, ?orb_false_r, orb_assoc. reflexivity.
Qed.

Lemma rls_user_permissions s c users :
  rls_permits s t_admin_user_permissions c users
  = rolbypassrls s || authenticated_as active_super_admin s users.
Proof.
  unfold rls_permits, permits, authenticated_as, policy_applies.
  destruct c; cbn -[String.eqb eval_using];
    rewrite ?andb_false_r, ?orb_false_r; reflexivity.
Qed.

Lemma rls_system_settings s c users :
  rls_permits s t_system_settings c users
  = rolbypassrls s || authenticated_as active_admin s users.
Proof.
  unfold rls_permits, permits, authenticated_as, policy_applies.
  destruct c; cbn -[String.eqb eval_using];
    rewrite ?andb_false_r, ?orb_false_r; reflexivity.
Qed.

Lemma rls_audit_logs_select s users :
  rls_permits s t_audit_logs SELECT users
  = rolbypassrls s || authenticated_as active_admin s users.
Proof.
  unfold rls_permits, permits, authenticated_as, policy_applies.
  cbn -[String.eqb eval_using].
  rewrite ?andb_false_r, ?orb_false_r; reflexivity.
Qed.

(** No policy lets a session write to [audit_logs]. *)
Lemma rls_audit_logs_write s c users :
  c <> SELECT ->
  rls_permits s t_audit_logs c users = rolbypassrls s.
Proof.
  intros Hc. unfold rls_permits, permits, policy_applies.
  destruct c; try congruence; cbn -[String.eqb eval_using];
    rewrite ?andb_false_r, ?orb_false_r; reflexivity.
Qed.

Lemma rls_admin_permissions s c users :
  rls_permits s t_admin_permissions c users
  = rolbypassrls s || (command_eqb c SELECT && authenticated_as active_admin s users).
Proof.
  unfold rls_permits, permits, authenticated_as, policy_applies.
  destruct c; cbn -[String.eqb eval_using];
    rewrite ?andb_false_r, ?orb_false_r; reflexivity.
Qed.

(** ** The recursion of the policies *)

Lemma rls_recursion_bypass s t c :
  rolbypassrls s = true -> rls_recursion s t c = false.
Proof.
  intros Hby. unfold rls_recursion, policy_recursion. rewrite Hby. reflexivity.
Qed.

(** Every statement of a session of the role [authenticated] that some
    policy applies to meets the recursion. *)
Lemma rls_recursion_authenticated s t c :
  rolbypassrls s = false -> rolname s = "authenticated" ->
  rls_recursion s t c
  = match t with
    | t_admin_permissions | t_audit_logs => command_eqb c SELECT
    | _ => true
    end.
Proof.
  intros Hby Hrole.
  unfold rls_recursion, policy_recursion, policy_named, policy_applies.
  rewrite Hby, Hrole. destruct t, c; reflexivity.
Qed.

(** A role that no policy names meets no recursion. *)
Lemma rls_recursion_other_role s t c :
  rolname s <> "authenticated" -> rls_recursion s t c = false.
Proof.
  intros Hrole.
  assert (Hneq : String.eqb "authenticated" (rolname s) = false).
  { apply String.eqb_neq. congruence. }
  unfold rls_recursion, policy_recursion, policy_named, policy_applies.
  cbn -[String.eqb]. rewrite Hneq. cbn. apply andb_false_r.
Qed.

(** Where the policies can be added without recursion, only a role that
    bypasses row security passes them. *)
Lemma rls_permits_without_recursion s t c users :
  rls_recursion s t c = false -> rls_permits s t c users = rolbypassrls s.
Proof.
  destruct (rolbypassrls s) eqn:Hby.
  - intros _. unfold rls_permits, permits. rewrite Hby. destruct t; reflexivity.
  - destruct (String.eqb_spec "authenticated" (rolname s)) as [Hrole|Hrole].
    + rewrite rls_recursion_authenticated by congruence.
      unfold rls_permits, permits, policy_applies. rewrite Hby, <- Hrole.
      destruct t, c; cbn -[eval_using]; intros Hrec;
        try discriminate Hrec; reflexivity.
    + intros _.
      assert (Hneq : String.eqb "authenticated" (rolname s) = false).
      { apply String.eqb_neq. exact Hrole. }
      unfold rls_permits, permits, policy_applies. rewrite Hby.
      destruct t; cbn -[String.eqb eval_using];
        rewrite Hneq, ?andb_false_r; reflexivity.
Qed.

Lemma row_security_Ok s t c u :
  row_security s t c = Ok u -> rls_recursion s t c = false.
Proof.
  unfold row_security. destruct (rls_recursion s t c); [discriminate|reflexivity].
Qed.

Lemma row_security_bypass s t c :
  rolbypassrls s = true -> row_security s t c = Ok tt.
Proof.
  intros Hby. unfold row_security. rewrite rls_recursion_bypass by exact Hby.
  reflexivity.
Qed.

(** A statement the store runs for a session that does not bypass row
    security finds every command denied. *)
Lemma row_security_denies s t c u users :
  rolbypassrls s = false -> row_security s t c = Ok u ->
  rls_permits s t c users = false.
Proof.
  intros Hby Hok. apply row_security_Ok in Hok.
  rewrite rls_permits_without_recursion by exact Hok. exact Hby.
Qed.

Ltac row_security_cases :=
  unfold row_security;
  repeat match goal with
  | |- context [rls_recursion ?s ?t ?c] =>
      let Hrec := fresh "Hrec" in
      destruct (rls_recursion s t c) eqn:Hrec
  end;
  cbn [negb guard rbind rows_of].

Lemma eval_using_inactive u s users :
  not_an_active_identity s users -> eval_using u users (auth_uid s) = false.
Proof.
  intros Hin. unfold eval_using.
  apply not_true_is_false. intros Hex.
  apply existsb_exists in Hex as (au & Hau & Hcond).
  specialize (Hin au Hau).
  destruct u, (opt_is (auth_uid s) (au_id au)) eqn:Hid; cbn in Hcond;
    try discriminate; rewrite Hin in Hcond by reflexivity;
    rewrite ?andb_false_r in Hcond; discriminate.
Qed.

Lemma rls_denies_inactive s t c users :
  rolbypassrls s = false -> not_an_active_identity s users ->
  rls_permits s t c users = false.
Proof.
  intros Hby Hin.
  assert (Hau : forall u, authenticated_as u s users = false).
  { intros u. unfold authenticated_as.
    rewrite eval_using_inactive by assumption. apply andb_false_r. }
  destruct t.
  - destruct (command_eqb c SELECT) eqn:Hc.
    + destruct c; try discriminate.
      rewrite rls_admin_users_select, Hby, !Hau. reflexivity.
    + rewrite rls_admin_users_write, Hby, Hau by (intros ->; discriminate).
      reflexivity.
  - rewrite rls_admin_permissions, Hby, Hau, andb_false_r. reflexivity.
  - rewrite rls_user_permissions, Hby, Hau. reflexivity.
  - rewrite rls_system_settings, Hby, Hau. reflexivity.
  - destruct (command_eqb c SELECT) eqn:Hc.
    + destruct c; try discriminate.
      rewrite rls_audit_logs_select, Hby, Hau. reflexivity.
    + rewrite rls_audit_logs_write, Hby by (intros ->; discriminate).
      reflexivity.
  - unfold rls_permits. rewrite Hby. cbn -[String.eqb].
    rewrite eval_using_inactive by assumption. apply andb_false_r.
Qed.

(** C6. An identity that is unauthenticated, missing or inactive is denied
    every operation: no command on any table passes row-level security for
    it, no request made on its behalf changes the store, and every read
    made on its behalf comes back empty. *)
Theorem inactive_identity_is_denied (s : session) (d : db) :
  rolbypassrls s = false ->
  not_an_active_identity s (admin_users d) ->
  (forall t c, rls_permits s t c (admin_users d) = false)
  /\ (forall e r, commit (exec s e r d) d = d)
  /\ select_user_permissions s d = []
  /\ select_system_settings s d = []
  /\ (forall n, select_audit_logs s n d = [])
  /\ fetchSettings s d = ∅
  /\ fetchAuditLogs s d = [].
Proof.
  intros Hby Hin.
  assert (Hdeny : forall t c, rls_permits s t c (admin_users d) = false)
    by (intros; apply rls_denies_inactive; assumption).
  repeat split.
  - exact Hdeny.
  - intros e r.
    destruct r; cbn [exec];
      unfold insert_admin_user, update_admin_user, delete_admin_user,
        insert_domain_row, update_domain_row, delete_domain_row,
        delete_user_permissions, insert_user_permissions,
        upsert_system_settings;
      row_security_cases; rewrite ?Hdeny; reflexivity.
  - unfold select_user_permissions. row_security_cases;
      rewrite ?Hdeny; reflexivity.
  - unfold select_system_settings. row_security_cases;
      rewrite ?Hdeny; reflexivity.
  - intros n. unfold select_audit_logs. row_security_cases;
      rewrite ?Hdeny; reflexivity.
  - unfold fetchSettings, select_system_settings. row_security_cases;
      rewrite ?Hdeny; reflexivity.
  - unfold fetchAuditLogs, select_audit_logs. row_security_cases;
      rewrite ?Hdeny; reflexivity.
Qed.

(** ** Rows addressed by their id *)

Section ById.

Context {A : Type} (key : A -> string).

Lemma find_fresh_None id (l : list A) :
  forallb (fun y => negb (String.eqb (key y) id)) l = true ->
  find (fun y => String.eqb (key y) id) l = None.
Proof.
  induction l as [|y l IH]; cbn; [reflexivity|].
  intros H. apply andb_prop in H as [Hy Hl].
  destruct (String.eqb (key y) id); [discriminate|]. auto.
Qed.

Lemma find_app_fresh id (l : list A) x :
  forallb (fun y => negb (String.eqb (key y) id)) l = true ->
  key x = id ->
  find (fun y => String.eqb (key y) id) (l ++ [x]) = Some x.
Proof.
  intros Hl Hx. induction l as [|y l IH]; cbn.
  - rewrite Hx, String.eqb_refl. reflexivity.
  - cbn in Hl. apply andb_prop in Hl as [Hy Hl].
    destruct (String.eqb (key y) id); [discriminate|]. auto.
Qed.

Lemma find_replace id (l : list A) x old :
  find (fun y => String.eqb (key y) id) l = Some old ->
  key x = id ->
  find (fun y => String.eqb (key y) id)
       (map (fun y => if String.eqb (key y) id then x else y) l) = Some x.
Proof.
  intros Hfind Hx. induction l as [|y l IH]; cbn in *; [discriminate|].
  destruct (String.eqb (key y) id) eqn:Hy.
  - rewrite Hx, String.eqb_refl. reflexivity.
  - rewrite Hy. auto.
Qed.

Lemma find_remove id (l : list A) :
  find (fun y => String.eqb (key y) id)
       (List.filter (fun y => negb (String.eqb (key y) id)) l) = None.
Proof.
  induction l as [|y l IH]; cbn; [reflexivity|].
  destruct (String.eqb (key y) id) eqn:Hy; cbn; [assumption|].
  rewrite Hy. assumption.
Qed.

Lemma find_key id (l : list A) x :
  find (fun y => String.eqb (key y) id) l = Some x -> key x = id.
Proof.
  intros H. apply find_some in H as [_ H]. apply String.eqb_eq. exact H.
Qed.

End ById.

(** ** Statements on tracked tables *)

Ltac bind_inv H :=
  repeat match type of H with
  | rbind (row_security ?s ?t ?c) _ = Ok _ =>
      let Hrec := fresh "Hrec" in
      destruct (row_security s t c) as [[]|] eqn:Hrec; cbn [rbind] in H;
        [|discriminate H]
  | rbind (guard ?b ?e) _ = Ok _ =>
      let Hg := fresh "Hguard" in
      destruct b eqn:Hg; cbn [guard rbind] in H; [|discriminate H]
  | rbind ?c _ = Ok _ =>
      let Hc := fresh "Hstep" in
      destruct c eqn:Hc; cbn [rbind] in H; [|discriminate H]
  end.

Lemma fire_audit_trigger_Ok {R} `{Row R} s e tbl (td : trigger_data R) d d' :
  fire_audit_trigger s e tbl td d = Ok d' ->
  d' = with_audit_logs
         (audit_logs d ++ [audit_row e (fst (log_admin_action (auth_uid s) tbl td))]) d.
Proof.
  unfold fire_audit_trigger, insert_audit_log. intros Hrun.
  bind_inv Hrun. congruence.
Qed.

Lemma id_of_patched now p old :
  au_id (update_updated_at_column_admin_user now (apply_patch p old)) = au_id old.
Proof. reflexivity. Qed.

Lemma admin_user_unique_fresh row users :
  admin_user_unique row users = true ->
  forallb (fun y => negb (String.eqb (au_id y) (au_id row))) users = true.
Proof.
  unfold admin_user_unique. rewrite !forallb_forall. intros Hall y Hy.
  specialize (Hall y Hy). apply andb_prop in Hall as [Hall _].
  apply andb_prop in Hall as [Hall _]. exact Hall.
Qed.

Ltac simpl_db :=
  cbn [admin_users admin_permissions admin_user_permissions system_settings
       audit_logs domain_rows with_admin_users with_admin_user_permissions
       with_system_settings with_audit_logs with_domain_rows].

Ltac simpl_audit :=
  unfold records_mutation, audit_row, log_admin_action;
  cbn [fst al_id al_user_id al_action al_table_name al_record_id al_old_values
       al_new_values al_created_at av_user_id av_action av_table_name
       av_record_id av_old_values av_new_values TG_OP NEW OLD command_eqb
       command_text orb tracked_name fmap option_fmap option_map row_id
       admin_user_Row domain_row_Row].

Lemma insert_admin_user_outcome s e v d d' n :
  insert_admin_user s e v d = Ok (d', n) ->
  statement_outcome s e (InsertAdminUser v) d d' n.
Proof.
  unfold insert_admin_user. intros Hrun. bind_inv Hrun.
  injection Hrun as <- <-.
  pose proof Hstep as Hfire. unfold fire_audit_trigger in Hfire.
  apply fire_audit_trigger_Ok in Hstep. subst a.
  apply admin_user_unique_fresh in Hguard0. cbn [au_id] in Hguard0.
  set (row := {| au_id := env_row_id e 0 |}) in *.
  assert (Hnew : find_admin_user (env_row_id e 0) (admin_users d ++ [row]) = Some row)
    by (apply (find_app_fresh au_id); [assumption|reflexivity]).
  assert (Hold : find_admin_user (env_row_id e 0) (admin_users d) = None)
    by (apply (find_fresh_None au_id); assumption).
  unfold statement_outcome. cbn [mutation_of]. right.
  split; [reflexivity|]. split.
  - unfold row_mutated, row_json. simpl_db. rewrite Hold, Hnew.
    split; [reflexivity|]. cbn [fmap option_fmap option_map]. eauto.
  - split; [eexists; eexists; exact Hfire|].
    eexists. split; [simpl_db; reflexivity|].
    simpl_audit. unfold row_json. simpl_db. rewrite Hnew.
    repeat split; reflexivity.
Qed.

Lemma update_admin_user_outcome s e id p d d' n :
  update_admin_user s e id p d = Ok (d', n) ->
  statement_outcome s e (UpdateAdminUser id p) d d' n.
Proof.
  unfold update_admin_user, statement_outcome. cbn [mutation_of]. intros Hrun.
  bind_inv Hrun.
  destruct (negb (rls_permits s t_admin_users UPDATE (admin_users d)));
    [injection Hrun as <- <-; left; split; reflexivity|].
  destruct (find_admin_user id (admin_users d)) as [old|] eqn:Hold;
    [|injection Hrun as <- <-; left; split; reflexivity].
  bind_inv Hrun. injection Hrun as <- <-.
  pose proof Hstep as Hfire. unfold fire_audit_trigger in Hfire.
  apply fire_audit_trigger_Ok in Hstep. subst a.
  pose proof (find_key au_id _ _ _ Hold) as Hid.
  set (new := update_updated_at_column_admin_user (env_now e) (apply_patch p old)) in *.
  assert (Hnew : find_admin_user id (replace_admin_user new (admin_users d)) = Some new).
  { unfold find_admin_user, replace_admin_user.
    replace (au_id new) with id by (symmetry; exact Hid).
    apply (find_replace au_id) with (old := old); [exact Hold|exact Hid]. }
  right. split; [reflexivity|]. split.
  - unfold row_mutated, row_json. simpl_db. rewrite Hold, Hnew.
    cbn [fmap option_fmap option_map]. eauto.
  - split; [eexists; eexists; exact Hfire|].
    eexists. split; [simpl_db; reflexivity|].
    simpl_audit. unfold row_json. simpl_db. rewrite Hnew.
    repeat split; try reflexivity. exact Hid.
Qed.

Lemma delete_admin_user_outcome s e id d d' n :
  delete_admin_user s e id d = Ok (d', n) ->
  statement_outcome s e (DeleteAdminUser id) d d' n.
Proof.
  unfold delete_admin_user, statement_outcome. cbn [mutation_of]. intros Hrun.
  bind_inv Hrun.
  destruct (negb (rls_permits s t_admin_users DELETE (admin_users d)));
    [injection Hrun as <- <-; left; split; reflexivity|].
  destruct (find_admin_user id (admin_users d)) as [old|] eqn:Hold;
    [|injection Hrun as <- <-; left; split; reflexivity].
  bind_inv Hrun. injection Hrun as <- <-.
  pose proof Hstep as Hfire. unfold fire_audit_trigger in Hfire.
  apply fire_audit_trigger_Ok in Hstep. subst a.
  pose proof (find_key au_id _ _ _ Hold) as Hid.
  assert (Hgone : find_admin_user id (remove_admin_user id (admin_users d)) = None)
    by apply (find_remove au_id).
  right. split; [reflexivity|]. split.
  - unfold row_mutated, row_json. simpl_db. rewrite Hold, Hgone.
    cbn [fmap option_fmap option_map]. eauto.
  - split; [eexists; eexists; exact Hfire|].
    eexists. split; [simpl_db; reflexivity|].
    simpl_audit. unfold row_json. simpl_db. rewrite Hold.
    repeat split; try reflexivity. exact Hid.
Qed.

Lemma domain_table_eqb_refl t : domain_table_eqb t t = true.
Proof. destruct t; reflexivity. Qed.

Lemma insert_domain_row_outcome s e t row d d' n :
  insert_domain_row s e t row d = Ok (d', n) ->
  statement_outcome s e (InsertDomainRow t row) d d' n.
Proof.
  unfold insert_domain_row. intros Hrun. bind_inv Hrun.
  injection Hrun as <- <-.
  pose proof Hstep as Hfire. unfold fire_audit_trigger in Hfire.
  apply fire_audit_trigger_Ok in Hstep. subst a.
  assert (Hnew : find_domain_row (dr_id row) (domain_rows d t ++ [row]) = Some row)
    by (apply (find_app_fresh dr_id); [assumption|reflexivity]).
  assert (Hold : find_domain_row (dr_id row) (domain_rows d t) = None)
    by (apply (find_fresh_None dr_id); assumption).
  unfold statement_outcome. cbn [mutation_of]. right.
  split; [reflexivity|]. split.
  - unfold row_mutated, row_json. simpl_db.
    rewrite domain_table_eqb_refl, Hold, Hnew.
    split; [reflexivity|]. cbn [fmap option_fmap option_map]. eauto.
  - split; [eexists; eexists; exact Hfire|].
    eexists. split; [simpl_db; reflexivity|].
    simpl_audit. unfold row_json. simpl_db.
    rewrite domain_table_eqb_refl, Hnew.
    repeat split; reflexivity.
Qed.

Lemma update_domain_row_outcome s e t id columns d d' n :
  update_domain_row s e t id columns d = Ok (d', n) ->
  statement_outcome s e (UpdateDomainRow t id columns) d d' n.
Proof.
  unfold update_domain_row, statement_outcome. cbn [mutation_of]. intros Hrun.
  bind_inv Hrun.
  destruct (negb (rls_permits s (t_domain t) UPDATE (admin_users d)));
    [injection Hrun as <- <-; left; split; reflexivity|].
  destruct (find_domain_row id (domain_rows d t)) as [old|] eqn:Hold;
    [|injection Hrun as <- <-; left; split; reflexivity].
  bind_inv Hrun. injection Hrun as <- <-.
  pose proof Hstep as Hfire. unfold fire_audit_trigger in Hfire.
  apply fire_audit_trigger_Ok in Hstep. subst a.
  set (new := {| dr_id := id; dr_columns := columns |}) in *.
  assert (Hnew : find_domain_row id
            (map (fun r => if String.eqb (dr_id r) id then new else r) (domain_rows d t))
          = Some new)
    by (apply (find_replace dr_id) with (old := old); [exact Hold|reflexivity]).
  right. split; [reflexivity|]. split.
  - unfold row_mutated, row_json. simpl_db.
    rewrite domain_table_eqb_refl, Hold, Hnew.
    cbn [fmap option_fmap option_map]. eauto.
  - split; [eexists; eexists; exact Hfire|].
    eexists. split; [simpl_db; reflexivity|].
    simpl_audit. unfold row_json. simpl_db.
    rewrite domain_table_eqb_refl, Hnew.
    repeat split; reflexivity.
Qed.

Lemma delete_domain_row_outcome s e t id d d' n :
  delete_domain_row s e t id d = Ok (d', n) ->
  statement_outcome s e (DeleteDomainRow t id) d d' n.
Proof.
  unfold delete_domain_row, statement_outcome. cbn [mutation_of]. intros Hrun.
  bind_inv Hrun.
  destruct (negb (rls_permits s (t_domain t) DELETE (admin_users d)));
    [injection Hrun as <- <-; left; split; reflexivity|].
  destruct (find_domain_row id (domain_rows d t)) as [old|] eqn:Hold;
    [|injection Hrun as <- <-; left; split; reflexivity].
  bind_inv Hrun. injection Hrun as <- <-.
  pose proof Hstep as Hfire. unfold fire_audit_trigger in Hfire.
  apply fire_audit_trigger_Ok in Hstep. subst a.
  pose proof (find_key dr_id _ _ _ Hold) as Hid.
  assert (Hgone : find_domain_row id
            (List.filter (fun r => negb (String.eqb (dr_id r) id)) (domain_rows d t))
          = None)
    by apply (find_remove dr_id).
  right. split; [reflexivity|]. split.
  - unfold row_mutated, row_json. simpl_db.
    rewrite domain_table_eqb_refl, Hold, Hgone.
    cbn [fmap option_fmap option_map]. eauto.
  - split; [eexists; eexists; exact Hfire|].
    eexists. split; [simpl_db; reflexivity|].
    simpl_audit. unfold row_json. simpl_db. rewrite Hold.
    repeat split; try reflexivity. exact Hid.
Qed.

(** Every statement that succeeds leaves the store as [statement_outcome]
    says. *)
Lemma exec_outcome s e r d d' n :
  exec s e r d = Ok (d', n) -> statement_outcome s e r d d' n.
Proof.
  destruct r; cbn [exec]; intros Hrun.
  - apply insert_admin_user_outcome; assumption.
  - apply update_admin_user_outcome; assumption.
  - apply delete_admin_user_outcome; assumption.
  - apply insert_domain_row_outcome; assumption.
  - apply update_domain_row_outcome; assumption.
  - apply delete_domain_row_outcome; assumption.
  - unfold delete_user_permissions in Hrun. bind_inv Hrun.
    destruct (negb _) in Hrun; injection Hrun as <- <-;
      repeat split; reflexivity.
  - unfold insert_user_permissions in Hrun. bind_inv Hrun.
    injection Hrun as <- <-. repeat split; reflexivity.
  - unfold upsert_system_settings in Hrun. bind_inv Hrun.
    injection Hrun as <- <-. repeat split; reflexivity.
Qed.




(** C1, as the code has it. For every update of a row of a tracked table,
    the audit record produced carries the "after" snapshot only:
    [new_values] is the new state of the row, and [old_values] is NULL
    although the row had a prior state (the trigger records the prior state
    on [DELETE] only). *)
Theorem update_audit_record_has_no_before (s : session) (e : stmt_env)
    (r : request) (t : tracked) (id : uuid) (d d' : db) :
  mutation_of e r = Some (t, UPDATE, id) ->
  exec s e r d = Ok (d', 1%nat) ->
  exists a,
    audit_logs d' = audit_logs d ++ [a]
    /\ al_action a = "UPDATE"
    /\ al_new_values a = row_json t id d'
    /\ is_Some (row_json t id d)
    /\ al_old_values a = None.
Proof.
  intros Hmut Hrun. apply exec_outcome in Hrun.
  unfold statement_outcome in Hrun. rewrite Hmut in Hrun.
  destruct Hrun as [[Hn _]|(_ & Hrow & _ & a & Hlogs & Ha)]; [discriminate|].
  destruct Ha as (_ & _ & Hact & _ & _ & _ & Hold & Hnew).
  destruct Hrow as [Hbefore _].
  exists a. cbn in Hold, Hnew. auto.
Qed.


(** ** Grants *)

Lemma insert_grant_rows_Ok e users perms : forall rows i tbl tbl',
  insert_grant_rows e i rows users perms tbl = Ok tbl' ->
  tbl' = tbl ++ grant_rows e i rows.
Proof.
  induction rows as [|r rest IH]; intros i tbl tbl' Hrun; cbn in Hrun.
  - injection Hrun as <-. cbn. rewrite app_nil_r. reflexivity.
  - bind_inv Hrun. apply IH in Hrun. subst tbl'.
    rewrite <- app_assoc. reflexivity.
Qed.

Lemma permissions_of_grant_rows e u : forall sel i,
  map aup_permission_id
      (List.filter (fun up => String.eqb (aup_user_id up) u)
                   (grant_rows e i (grants_for u sel))) = sel.
Proof.
  induction sel as [|q sel IH]; intros i; cbn; [reflexivity|].
  rewrite String.eqb_refl. cbn. rewrite IH. reflexivity.
Qed.

Lemma other_permissions_of_grant_rows e u u' : u' <> u -> forall sel i,
  List.filter (fun up => String.eqb (aup_user_id up) u')
              (grant_rows e i (grants_for u sel)) = [].
Proof.
  intros Hne. induction sel as [|q sel IH]; intros i; cbn; [reflexivity|].
  destruct (String.eqb_spec u u'); [congruence|]. apply IH.
Qed.

Lemma filter_filter_neg_same u (tbl : list admin_user_permission) :
  List.filter (fun up => String.eqb (aup_user_id up) u)
    (List.filter (fun g => negb (String.eqb (aup_user_id g) u)) tbl) = [].
Proof.
  induction tbl as [|g tbl IH]; cbn; [reflexivity|].
  destruct (String.eqb (aup_user_id g) u) eqn:Hg; cbn; [assumption|].
  rewrite Hg. assumption.
Qed.

Lemma filter_filter_neg_other u u' (tbl : list admin_user_permission) :
  u' <> u ->
  List.filter (fun up => String.eqb (aup_user_id up) u')
    (List.filter (fun g => negb (String.eqb (aup_user_id g) u)) tbl)
  = List.filter (fun up => String.eqb (aup_user_id up) u') tbl.
Proof.
  intros Hne. induction tbl as [|g tbl IH]; cbn; [reflexivity|].
  destruct (String.eqb_spec (aup_user_id g) u) as [Hg|Hg]; cbn.
  - destruct (String.eqb_spec (aup_user_id g) u'); [congruence|]. assumption.
  - rewrite IH. reflexivity.
Qed.

(** The grants of [u] once the delete has gone through. *)
Lemma permissions_after_delete u d :
  permissions_of u
    (with_admin_user_permissions
       (List.filter (fun g => negb (String.eqb (aup_user_id g) u))
                    (admin_user_permissions d)) d) = [].
Proof.
  unfold permissions_of. simpl_db. rewrite filter_filter_neg_same. reflexivity.
Qed.

Lemma permissions_after_insert e u sel tbl d :
  List.filter (fun up => String.eqb (aup_user_id up) u) tbl = [] ->
  permissions_of u
    (with_admin_user_permissions (tbl ++ grant_rows e 0 (grants_for u sel)) d) = sel.
Proof.
  intros Hnone. unfold permissions_of. simpl_db.
  rewrite List.filter_app, Hnone, app_nil_l. apply permissions_of_grant_rows.
Qed.

Lemma other_permissions_after_delete u u' d :
  u' <> u ->
  permissions_of u'
    (with_admin_user_permissions
       (List.filter (fun g => negb (String.eqb (aup_user_id g) u))
                    (admin_user_permissions d)) d)
  = permissions_of u' d.
Proof.
  intros Hne. unfold permissions_of. simpl_db.
  rewrite filter_filter_neg_other by assumption. reflexivity.
Qed.

Lemma other_permissions_after_insert e u u' sel tbl d :
  u' <> u ->
  permissions_of u'
    (with_admin_user_permissions (tbl ++ grant_rows e 0 (grants_for u sel)) d)
  = map aup_permission_id (List.filter (fun up => String.eqb (aup_user_id up) u') tbl).
Proof.
  intros Hne. unfold permissions_of. simpl_db.
  rewrite List.filter_app, other_permissions_of_grant_rows by assumption.
  rewrite app_nil_r. reflexivity.
Qed.

Lemma rls_permits_bypass s t c users :
  rolbypassrls s = true -> rls_permits s t c users = true.
Proof.
  intros Hby. rewrite rls_permits_without_recursion
    by (apply rls_recursion_bypass; exact Hby).
  exact Hby.
Qed.

Lemma delete_user_permissions_no_bypass s u d :
  rolbypassrls s = false -> commit (delete_user_permissions s u d) d = d.
Proof.
  intros Hby. unfold delete_user_permissions.
  destruct (row_security s t_admin_user_permissions DELETE) as [[]|] eqn:Hrec;
    cbn [rbind commit]; [|reflexivity].
  rewrite (row_security_denies _ _ _ _ _ Hby Hrec). reflexivity.
Qed.

Lemma insert_user_permissions_no_bypass s e rows d :
  rolbypassrls s = false ->
  exists err, insert_user_permissions s e rows d = Err err.
Proof.
  intros Hby. unfold insert_user_permissions.
  destruct (row_security s t_admin_user_permissions INSERT) as [[]|] eqn:Hrec;
    cbn [rbind]; [|eauto].
  rewrite (row_security_denies _ _ _ _ _ Hby Hrec). cbn. eauto.
Qed.

Lemma delete_user_permissions_bypass s u d :
  rolbypassrls s = true ->
  commit (delete_user_permissions s u d) d
  = with_admin_user_permissions
      (List.filter (fun g => negb (String.eqb (aup_user_id g) u))
                   (admin_user_permissions d)) d.
Proof.
  intros Hby. unfold delete_user_permissions.
  rewrite row_security_bypass, rls_permits_bypass by exact Hby. reflexivity.
Qed.

(** C3, as the code has it. Replacing an identity's permission set is two
    requests, each committed on its own: a delete of all its grants, then an
    insert of the new set. The store accepts them from a session that
    bypasses row security only; for any other session nothing changes.
    For a session that bypasses row security the store first reaches a state
    in which the identity holds no grant at all; it stays there when the
    insert fails, and reaches the full new set when the insert succeeds. The
    grants of the other identities are those of the start throughout, and
    no state mixes old and new grants of the identity. *)
Theorem saveUserPermissions_observable_states (s : session) (e : stmt_env)
    (u : admin_user) (sel : list uuid) (d : db) :
  let trace := fst (saveUserPermissions s e (Some u) sel d) in
  let t := snd (saveUserPermissions s e (Some u) sel d) in
  (rolbypassrls s = false /\ Forall (eq d) trace)
  \/ (rolbypassrls s = true
      /\ exists d1,
           permissions_of (au_id u) d1 = []
           /\ (forall u', u' <> au_id u -> permissions_of u' d1 = permissions_of u' d)
           /\ ((sel = [] /\ trace = [d1]
                /\ t = Some (toast_success "Permissions updated successfully"))
               \/ (trace = [d1; d1]
                   /\ t = Some (toast_error "Failed to save permissions"))
               \/ (exists d2,
                     trace = [d1; d2]
                     /\ t = Some (toast_success "Permissions updated successfully")
                     /\ permissions_of (au_id u) d2 = sel
                     /\ (forall u', u' <> au_id u ->
                           permissions_of u' d2 = permissions_of u' d)))).
Proof.
  cbv zeta. unfold saveUserPermissions.
  destruct (rolbypassrls s) eqn:Hby.
  - right. split; [reflexivity|].
    rewrite delete_user_permissions_bypass by exact Hby.
    set (d1 := with_admin_user_permissions _ d).
    exists d1. split; [apply permissions_after_delete|].
    split; [intros u' Hne; apply other_permissions_after_delete; exact Hne|].
    destruct sel as [|q sel']; [left; cbn; auto|].
    set (sel := q :: sel') in *.
    replace (0 <? List.length sel)%nat with true by reflexivity.
    fold (grants_for (au_id u) sel).
    destruct (insert_user_permissions s e (grants_for (au_id u) sel) d1)
      as [[d2 n]|err] eqn:Hrun; cbn [fst snd]; [|right; left; auto].
    right; right. exists d2. split; [reflexivity|]. split; [reflexivity|].
    unfold insert_user_permissions in Hrun. bind_inv Hrun.
    injection Hrun as <- <-.
    apply insert_grant_rows_Ok in Hstep. subst a. split.
    + apply permissions_after_insert. subst d1. simpl_db.
      apply filter_filter_neg_same.
    + intros u' Hne. rewrite other_permissions_after_insert by exact Hne.
      subst d1. simpl_db. rewrite filter_filter_neg_other by exact Hne.
      reflexivity.
  - left. split; [reflexivity|].
    rewrite delete_user_permissions_no_bypass by exact Hby.
    destruct (0 <? List.length sel)%nat; cbn [fst]; [|repeat constructor].
    destruct (insert_user_permissions_no_bypass s e
                (map (fun permId => {| gv_user_id := au_id u;
                                       gv_permission_id := permId |}) sel)
                d Hby) as [err ->].
    repeat constructor.
Qed.

Lemma insert_grant_rows_succeeds e users perms u : forall sel i tbl,
  existsb (fun au => String.eqb (au_id au) u) users = true ->
  (forall q, In q sel ->
     existsb (fun ap => String.eqb (ap_id ap) q) perms = true) ->
  List.NoDup sel ->
  (forall k g, (i <= k < i + List.length sel)%nat -> In g tbl ->
     aup_id g <> env_row_id e k) ->
  (forall j k, (i <= j < k)%nat -> (k < i + List.length sel)%nat ->
     env_row_id e j <> env_row_id e k) ->
  (forall g q, In g tbl -> In q sel ->
     ~ (aup_user_id g = u /\ aup_permission_id g = q)) ->
  insert_grant_rows e i (grants_for u sel) users perms tbl
  = Ok (tbl ++ grant_rows e i (grants_for u sel)).
Proof.
  induction sel as [|q sel IH]; intros i tbl Hu Hperms Hnodup Hfresh Hinj Hpairs.
  - cbn. rewrite app_nil_r. reflexivity.
  - cbn [grants_for map insert_grant_rows gv_user_id gv_permission_id grant_rows].
    cbn [List.length] in Hfresh, Hinj.
    assert (G1 : forallb (fun g => negb (String.eqb (aup_id g) (env_row_id e i))) tbl = true).
    { apply forallb_forall. intros g Hg. apply negb_true_iff.
      apply String.eqb_neq. apply Hfresh; [lia|exact Hg]. }
    assert (G2 : forallb (fun g =>
                   negb (String.eqb (aup_user_id g) u
                         && String.eqb (aup_permission_id g) q)) tbl = true).
    { apply forallb_forall. intros g Hg. apply negb_true_iff.
      apply not_true_is_false. intros Hboth.
      apply andb_prop in Hboth as [H1 H2].
      apply String.eqb_eq in H1, H2.
      apply (Hpairs g q Hg); [left; reflexivity|split; assumption]. }
    rewrite G1, G2, Hu, (Hperms q) by (left; reflexivity).
    cbn [guard rbind].
    fold (grants_for u sel). rewrite IH.
    + rewrite <- app_assoc. reflexivity.
    + exact Hu.
    + intros q' Hq'. apply Hperms. right. exact Hq'.
    + inversion Hnodup; assumption.
    + intros k g Hk Hg. apply in_app_or in Hg as [Hg|[<-|[]]].
      * apply Hfresh; [lia|exact Hg].
      * cbn [aup_id]. apply Hinj; lia.
    + intros j k Hj Hk. apply Hinj; lia.
    + intros g q' Hg Hq'. apply in_app_or in Hg as [Hg|[<-|[]]].
      * apply Hpairs; [exact Hg|right; exact Hq'].
      * cbn [aup_user_id aup_permission_id]. intros [_ ->].
        inversion Hnodup; contradiction.
Qed.


Lemma grant_rows_spec e u g : forall sel i,
  In g (grant_rows e i (grants_for u sel)) ->
  aup_user_id g = u /\ aup_granted_by g = None /\ aup_created_at g = env_now e
  /\ exists k, (i <= k < i + List.length sel)%nat /\ aup_id g = env_row_id e k.
Proof.
  induction sel as [|q sel IH]; intros i; cbn; [intros []|].
  intros [<-|Hin].
  - repeat split. exists i. split; [lia|reflexivity].
  - apply IH in Hin as (Hu & Hby & Hat & k & Hk & Hid).
    repeat split; try assumption. exists k. split; [lia|exact Hid].
Qed.



(** ** Credentials *)

Lemma prefix_refl (x : string) : String.prefix x x = true.
Proof.
  induction x as [|c x IH]; cbn; [reflexivity|].
  destruct (ascii_dec c c); [exact IH|congruence].
Qed.

Lemma includes_unfold (c : ascii) (x sub : string) :
  Text.includes (String c x) sub
  = String.prefix sub (String c x) || Text.includes x sub.
Proof. reflexivity. Qed.

Lemma includes_self (x : string) : Text.includes x x = true.
Proof.
  destruct x as [|c x]; [reflexivity|].
  rewrite includes_unfold, prefix_refl. reflexivity.
Qed.

Lemma includes_append (pre x sub : string) :
  Text.includes x sub = true -> Text.includes (pre ++ x)%string sub = true.
Proof.
  intros Hx. induction pre as [|c pre IH]; [exact Hx|].
  change (String c pre ++ x)%string with (String c (pre ++ x)%string).
  rewrite includes_unfold, IH. apply orb_true_r.
Qed.

Lemma password_hash_of_includes (password : string) :
  Text.includes (password_hash_of password) password = true.
Proof. unfold password_hash_of. apply includes_append, includes_self. Qed.

(** C5. What the code does with a supplied password: whenever
    [handleSubmit] changes the store for a form that carries a password, the
    [password_hash] it persists for that identity is the constant
    ["$2b$10$"] followed by the password itself, so the stored value
    contains the plaintext. *)
Theorem submitted_password_is_stored_in_clear (s : session) (e : stmt_env)
    (formData : formData_t) (editingUser : option admin_user) (d d' : db)
    (t : toast_t) :
  handleSubmit s e formData editingUser d = (d', t) ->
  d' <> d ->
  Text.truthy (fd_password formData) = true ->
  exists row,
    find_admin_user
      (match editingUser with Some u => au_id u | None => env_row_id e 0%nat end)
      (admin_users d') = Some row
    /\ au_password_hash row = ("$2b$10$" ++ fd_password formData)%string
    /\ Text.includes (au_password_hash row) (fd_password formData) = true.
Proof.
  unfold handleSubmit. intros Hrun Hchanged Hpw.
  destruct (_ || _ || _); [injection Hrun as <- _; congruence|].
  destruct editingUser as [u|].
  - rewrite Hpw in Hrun. unfold update_admin_user in Hrun.
    destruct (row_security _ _ _) in Hrun; cbn [rbind] in Hrun;
      [|injection Hrun as <- _; congruence].
    destruct (negb _) in Hrun; [injection Hrun as <- _; congruence|].
    destruct (find_admin_user (au_id u) (admin_users d)) as [old|] eqn:Hold;
      [|injection Hrun as <- _; congruence].
    set (new := update_updated_at_column_admin_user _ _) in Hrun.
    destruct (guard _ _) in Hrun; cbn [rbind] in Hrun;
      [|injection Hrun as <- _; congruence].
    destruct (fire_audit_trigger _ _ _ _ _) as [w|] eqn:Hfire; cbn [rbind] in Hrun;
      [|injection Hrun as <- _; congruence].
    injection Hrun as <- _. apply fire_audit_trigger_Ok in Hfire. subst w.
    pose proof (find_key au_id _ _ _ Hold) as Hid.
    exists new. simpl_db. split; [|split].
    + unfold find_admin_user, replace_admin_user.
      replace (au_id new) with (au_id u) by (symmetry; exact Hid).
      apply (find_replace au_id) with (old := old); [exact Hold|exact Hid].
    + reflexivity.
    + apply password_hash_of_includes.
  - unfold insert_admin_user in Hrun.
    set (row := {| au_id := env_row_id e 0 |}) in Hrun.
    destruct (row_security _ _ _) in Hrun; cbn [rbind] in Hrun;
      [|injection Hrun as <- _; congruence].
    destruct (guard _ _) in Hrun; cbn [rbind] in Hrun;
      [|injection Hrun as <- _; congruence].
    destruct (guard (admin_user_unique _ _) _) eqn:Huniq in Hrun;
      cbn [rbind] in Hrun; [|injection Hrun as <- _; congruence].
    destruct (fire_audit_trigger _ _ _ _ _) as [w|] eqn:Hfire; cbn [rbind] in Hrun;
      [|injection Hrun as <- _; congruence].
    injection Hrun as <- _. apply fire_audit_trigger_Ok in Hfire. subst w.
    unfold guard in Huniq.
    destruct (admin_user_unique row (admin_users d)) eqn:Hu; [|discriminate].
    apply admin_user_unique_fresh in Hu.
    exists row. simpl_db. split; [|split].
    + apply (find_app_fresh au_id); [exact Hu|reflexivity].
    + reflexivity.
    + apply password_hash_of_includes.
Qed.

(** ** Settings *)

Lemma has_setting_find key tbl :
  has_setting key tbl = true <-> exists x, find_setting key tbl = Some x.
Proof.
  unfold has_setting, find_setting. induction tbl as [|y tbl IH]; cbn.
  - split; [discriminate|intros [x Hx]; discriminate].
  - destruct (String.eqb (ss_setting_key y) key); cbn; [|exact IH].
    split; eauto.
Qed.

Lemma find_setting_app_other k new tbl :
  ss_setting_key new <> k ->
  find_setting k (tbl ++ [new]) = find_setting k tbl.
Proof.
  intros Hne. unfold find_setting. induction tbl as [|y tbl IH]; cbn.
  - destruct (String.eqb_spec (ss_setting_key new) k); [congruence|reflexivity].
  - destruct (String.eqb (ss_setting_key y) k); [reflexivity|exact IH].
Qed.

Lemma find_setting_map (f : system_setting -> system_setting) k tbl :
  (forall y, ss_setting_key (f y) = ss_setting_key y) ->
  find_setting k (map f tbl) = f <$> find_setting k tbl.
Proof.
  intros Hkey. unfold find_setting. induction tbl as [|y tbl IH]; cbn;
    [reflexivity|].
  rewrite Hkey. destruct (String.eqb (ss_setting_key y) k); [reflexivity|exact IH].
Qed.

(** What one proposed row does to the table. *)
Lemma upsert_row_Ok e i v tbl tbl' :
  upsert_row e i v tbl = Ok tbl' ->
  (exists x,
     find_setting (sv_setting_key v) tbl' = Some x
     /\ ss_setting_value x = sv_setting_value v
     /\ match find_setting (sv_setting_key v) tbl with
        | Some old =>
            ss_updated_at x = env_now e
            /\ ss_updated_by x = ss_updated_by old
            /\ ss_id x = ss_id old
            /\ ss_description x = ss_description old
            /\ ss_created_at x = ss_created_at old
        | None =>
            ss_updated_at x = sv_updated_at v
            /\ ss_updated_by x = None
            /\ ss_id x = env_row_id e i
            /\ ss_description x = None
            /\ ss_created_at x = env_now e
        end)
  /\ (forall k, k <> sv_setting_key v -> find_setting k tbl' = find_setting k tbl)
  /\ (forall y, In y tbl' -> ss_setting_key y = sv_setting_key v ->
        ss_setting_value y = sv_setting_value v).
Proof.
  unfold upsert_row. intros Hrun.
  destruct (has_setting (sv_setting_key v) tbl) eqn:Hhas.
  - injection Hrun as <-.
    apply has_setting_find in Hhas as [old Hold].
    set (f := fun x => if String.eqb (ss_setting_key x) (sv_setting_key v)
                       then conflict_update (env_now e) v x else x).
    assert (Hkey : forall y, ss_setting_key (f y) = ss_setting_key y).
    { intros y. unfold f.
      destruct (String.eqb_spec (ss_setting_key y) (sv_setting_key v)) as [Hy|Hy];
        [cbn; congruence|reflexivity]. }
    split; [|split].
    + exists (f old). rewrite find_setting_map, Hold by exact Hkey.
      split; [reflexivity|].
      pose proof (find_key ss_setting_key _ _ _ Hold) as Hk.
      unfold f. rewrite Hk, String.eqb_refl. cbn. repeat split; reflexivity.
    + intros k Hk. rewrite find_setting_map by exact Hkey.
      destruct (find_setting k tbl) as [y|] eqn:Hy; [|reflexivity].
      pose proof (find_key ss_setting_key _ _ _ Hy) as Hky.
      cbn. unfold f.
      destruct (String.eqb_spec (ss_setting_key y) (sv_setting_key v));
        [congruence|reflexivity].
    + intros y Hy Hyk. apply in_map_iff in Hy as (x & <- & Hx).
      unfold f in *.
      destruct (String.eqb_spec (ss_setting_key x) (sv_setting_key v));
        [reflexivity|contradiction].
  - bind_inv Hrun. injection Hrun as <-.
    assert (Hnone : find_setting (sv_setting_key v) tbl = None).
    { destruct (find_setting (sv_setting_key v) tbl) eqn:Hf; [|reflexivity].
      assert (has_setting (sv_setting_key v) tbl = true)
        by (apply has_setting_find; eauto). congruence. }
    split; [|split].
    + eexists. split.
      * unfold find_setting. apply (find_app_fresh ss_setting_key); [|reflexivity].
        clear -Hhas. unfold has_setting in Hhas.
        induction tbl as [|y tbl IH]; [reflexivity|]. cbn in *.
        destruct (String.eqb (ss_setting_key y) (sv_setting_key v));
          [discriminate|]. cbn. auto.
      * rewrite Hnone. cbn. repeat split; reflexivity.
    + intros k Hk. apply find_setting_app_other. cbn. congruence.
    + intros y Hy Hyk. apply in_app_or in Hy as [Hy|[<-|[]]]; [|reflexivity].
      exfalso. unfold has_setting in Hhas.
      assert (existsb (fun x => String.eqb (ss_setting_key x) (sv_setting_key v)) tbl = true).
      { apply existsb_exists. exists y. split; [exact Hy|].
        apply String.eqb_eq. exact Hyk. }
      congruence.
Qed.

Lemma fetch_fold_lookup key value :
  key <> "__proto__" -> forall l (m : gmap string json),
  (forall x, In x l -> ss_setting_key x = key -> ss_setting_value x = value) ->
  (exists x, In x l /\ ss_setting_key x = key) \/ m !! key = Some value ->
  fold_left (fun acc setting =>
               Js.assign (ss_setting_key setting) (ss_setting_value setting) acc) l m
    !! key = Some value.
Proof.
  intros Hkey.
  induction l as [|y l IH]; intros m Hall Hsome; cbn [fold_left].
  - destruct Hsome as [(x & [] & _)|Hm]. exact Hm.
  - apply IH; [intros x Hx; apply Hall; right; exact Hx|].
    unfold Js.assign.
    destruct (String.eqb_spec (ss_setting_key y) key) as [Hy|Hy].
    + right. rewrite Hy, (Hall y) by first [left; reflexivity | exact Hy].
      destruct (String.eqb_spec key "__proto__"); [contradiction|].
      apply lookup_insert_eq.
    + destruct Hsome as [(x & [->|Hx] & Hxk)|Hm].
      * contradiction.
      * left. eauto.
      * right. destruct (String.eqb (ss_setting_key y) "__proto__"); [exact Hm|].
        rewrite lookup_insert_ne by exact Hy. exact Hm.
Qed.

(** The reduce of [fetchSettings] never gives the object an own property
    [__proto__]. *)
Lemma fetch_fold_proto : forall l (m : gmap string json),
  fold_left (fun acc setting =>
               Js.assign (ss_setting_key setting) (ss_setting_value setting) acc) l m
    !! "__proto__" = m !! "__proto__".
Proof.
  induction l as [|y l IH]; intros m; cbn [fold_left]; [reflexivity|].
  rewrite IH. unfold Js.assign.
  destruct (String.eqb_spec (ss_setting_key y) "__proto__") as [Hy|Hy];
    [reflexivity|].
  apply lookup_insert_ne. exact Hy.
Qed.

Lemma select_system_settings_bypass s d :
  rolbypassrls s = true -> select_system_settings s d = system_settings d.
Proof.
  intros Hby. unfold select_system_settings.
  rewrite row_security_bypass, rls_permits_bypass by exact Hby. reflexivity.
Qed.

Lemma select_system_settings_no_bypass s d :
  rolbypassrls s = false -> select_system_settings s d = [].
Proof.
  intros Hby. unfold select_system_settings.
  destruct (row_security s t_system_settings SELECT) as [[]|] eqn:Hrec;
    cbn [rbind rows_of]; [|reflexivity].
  rewrite (row_security_denies _ _ _ _ _ Hby Hrec). reflexivity.
Qed.

(** Only a session that bypasses row security gets an upsert through. *)
Lemma upsert_system_settings_bypass s e rows d r :
  upsert_system_settings s e rows d = Ok r -> rolbypassrls s = true.
Proof.
  unfold upsert_system_settings. intros Hrun. bind_inv Hrun.
  apply andb_prop in Hguard as [Hguard _].
  rewrite rls_permits_without_recursion in Hguard
    by (eapply row_security_Ok; exact Hrec).
  exact Hguard.
Qed.

(** C7, as the code has it. [updateSetting] upserts the key, for a session
    that bypasses row security (the store accepts the upsert from no
    other): a missing setting is created, with no updater recorded and the
    client's timestamp; an existing one keeps its updater ([updated_by] is
    not part of the payload) and has its value and update timestamp
    overwritten. After the call the setting holds the new value in the store
    and in the component's [settings], and a fetch reads it back, unless the
    key is [__proto__], which the object a fetch builds never holds; the
    other settings are untouched. *)
Theorem updateSetting_upserts (s : session) (e : stmt_env)
    (client_now : timestamptz) (key : string) (value : json)
    (settings settings' : gmap string json) (d d' : db) :
  updateSetting s e client_now key value settings d = Ok (d', settings') ->
  rolbypassrls s = true
  /\ settings' !! key = Some value
  /\ fetchSettings s d' !! key
     = (if String.eqb key "__proto__" then None else Some value)
  /\ (exists x,
        find_setting key (system_settings d') = Some x
        /\ ss_setting_value x = value
        /\ match find_setting key (system_settings d) with
           | Some old =>
               ss_updated_at x = env_now e
               /\ ss_updated_by x = ss_updated_by old
           | None =>
               ss_updated_at x = client_now
               /\ ss_updated_by x = None
           end)
  /\ (forall k, k <> key ->
        find_setting k (system_settings d') = find_setting k (system_settings d)).
Proof.
  unfold updateSetting. intros Hrun.
  bind_inv Hrun. injection Hrun as <- <-.
  pose proof (upsert_system_settings_bypass _ _ _ _ _ Hstep) as Hby.
  unfold upsert_system_settings in Hstep.
  bind_inv Hstep. injection Hstep as <-. cbn [fst]. simpl_db.
  rename Hstep0 into Hrows.
  cbn [upsert_rows existsb negb guard rbind] in Hrows.
  bind_inv Hrows. injection Hrows as <-.
  apply upsert_row_Ok in Hstep as ((x & Hx & Hval & Hrest) & Hother & Hall).
  cbn [sv_setting_key sv_setting_value sv_updated_at] in *.
  split; [exact Hby|]. split; [apply lookup_insert_eq|]. split; [|split].
  - unfold fetchSettings.
    rewrite select_system_settings_bypass by exact Hby. simpl_db.
    destruct (String.eqb_spec key "__proto__") as [->|Hkey].
    + rewrite fetch_fold_proto. reflexivity.
    + apply fetch_fold_lookup; [exact Hkey|exact Hall|]. left.
      exists x. apply find_some in Hx as [Hin Hk].
      split; [exact Hin|apply String.eqb_eq; exact Hk].
  - exists x. split; [exact Hx|]. split; [exact Hval|].
    destruct (find_setting key (system_settings d));
      destruct Hrest as (Hat & Hupd & _); split; assumption.
  - exact Hother.
Qed.

Lemma upsert_rows_Ok e : forall rows i seen tbl tbl',
  upsert_rows e i rows seen tbl = Ok tbl' ->
  (forall v, In v rows ->
     ss_setting_value <$> find_setting (sv_setting_key v) tbl'
     = Some (sv_setting_value v))
  /\ (forall k, (forall v, In v rows -> sv_setting_key v <> k) ->
        find_setting k tbl' = find_setting k tbl)
  /\ (forall v, In v rows -> ~ In (sv_setting_key v) seen).
Proof.
  induction rows as [|v rest IH]; intros i seen tbl tbl' Hrun;
    cbn [upsert_rows] in Hrun.
  - injection Hrun as <-. repeat split; intros; try contradiction; reflexivity.
  - bind_inv Hrun.
    apply IH in Hrun as (Hvals & Hothers & Hseen).
    apply upsert_row_Ok in Hstep as ((x & Hx & Hval & _) & Hother & _).
    apply negb_true_iff in Hguard.
    assert (Hfresh : ~ In (sv_setting_key v) seen).
    { intros Hin.
      assert (existsb (String.eqb (sv_setting_key v)) seen = true).
      { apply existsb_exists. eexists. split; [exact Hin|apply String.eqb_refl]. }
      congruence. }
    split; [|split].
    + intros v' [<-|Hv']; [|apply Hvals; exact Hv'].
      rewrite Hothers.
      * rewrite Hx. cbn. congruence.
      * intros v' Hv' Heq. apply (Hseen v' Hv'). left. symmetry. exact Heq.
    + intros k Hk. rewrite Hothers by (intros v' Hv'; apply Hk; right; exact Hv').
      apply Hother. intros ->. apply (Hk v); [left; reflexivity|reflexivity].
    + intros v' [<-|Hv']; [exact Hfresh|].
      intros Hin. apply (Hseen v' Hv'). right. exact Hin.
Qed.

Lemma in_updates_of clock (settings : gmap string json) k v :
  settings !! k = Some v ->
  exists u, In u (updates_of clock settings)
            /\ sv_setting_key u = k /\ sv_setting_value u = v.
Proof.
  intros Hkv. apply elem_of_map_to_list in Hkv.
  apply list_elem_of_lookup in Hkv as [i Hi].
  exists {| sv_setting_key := k; sv_setting_value := v; sv_updated_at := clock i |}.
  split; [|split; reflexivity].
  apply list_elem_of_In. unfold updates_of.
  apply elem_of_lookup_imap. exists i, (k, v). split; [reflexivity|exact Hi].
Qed.

Lemma updates_of_in clock (settings : gmap string json) u :
  In u (updates_of clock settings) ->
  settings !! sv_setting_key u = Some (sv_setting_value u).
Proof.
  intros Hu. apply list_elem_of_In in Hu. unfold updates_of in Hu.
  apply elem_of_lookup_imap in Hu as (i & [k v] & -> & Hi).
  cbn. apply elem_of_map_to_list. apply list_elem_of_lookup. eauto.
Qed.

(** C8. A batch settings save is all-or-nothing. [handleSaveAll] sends the
    whole of [settings] as one request; the store either rejects it, and is
    left exactly as it was, or holds every one of the entries afterwards
    (and no other setting has changed). Being a single request, the save
    has no intermediate state. *)
Theorem handleSaveAll_all_or_nothing (s : session) (e : stmt_env)
    (client_clock : nat -> timestamptz) (settings : gmap string json) (d : db) :
  let d' := fst (handleSaveAll s e client_clock settings d) in
  let t := snd (handleSaveAll s e client_clock settings d) in
  d' = commit (exec s e (UpsertSystemSettings (updates_of client_clock settings)) d) d
  /\ List.length (updates_of client_clock settings) = size settings
  /\ ((d' = d /\ t = toast_error "Failed to save system settings")
      \/ (t = toast_success "System settings saved successfully"
          /\ (forall k v, settings !! k = Some v -> get_setting k d' = Some v)
          /\ (forall k, settings !! k = None -> get_setting k d' = get_setting k d))).
Proof.
  cbv zeta. unfold handleSaveAll. fold (updates_of client_clock settings).
  cbn [exec].
  split; [|split].
  - destruct (upsert_system_settings s e (updates_of client_clock settings) d)
      as [[d' n]|err]; reflexivity.
  - unfold updates_of. rewrite length_imap. apply length_map_to_list.
  - destruct (upsert_system_settings s e (updates_of client_clock settings) d)
      as [[d' n]|err] eqn:Hrun; cbn [fst snd]; [right|left; split; reflexivity].
    unfold upsert_system_settings in Hrun. bind_inv Hrun.
    injection Hrun as <- <-.
    apply upsert_rows_Ok in Hstep as (Hvals & Hothers & _).
    split; [reflexivity|]. unfold get_setting. simpl_db. split.
    + intros k v Hkv.
      destruct (in_updates_of client_clock settings k v Hkv) as (u & Hu & <- & <-).
      apply Hvals. exact Hu.
    + intros k Hk. rewrite Hothers; [reflexivity|].
      intros u Hu Heq. apply updates_of_in in Hu. congruence.
Qed.

(** ** Audit log queries *)

Lemma insert_desc_In a x : forall l, In x (insert_desc a l) <-> x = a \/ In x l.
Proof.
  induction l as [|b l IH]; cbn [insert_desc].
  - cbn. intuition congruence.
  - destruct (al_created_at b <? al_created_at a).
    + cbn. intuition congruence.
    + cbn [In]. rewrite IH. intuition congruence.
Qed.

Lemma order_by_created_at_desc_In x : forall l,
  In x (order_by_created_at_desc l) <-> In x l.
Proof.
  unfold order_by_created_at_desc.
  induction l as [|a l IH]; cbn [fold_right]; [reflexivity|].
  rewrite insert_desc_In, IH. cbn. intuition congruence.
Qed.

Lemma insert_desc_length a : forall l,
  List.length (insert_desc a l) = S (List.length l).
Proof.
  induction l as [|b l IH]; cbn [insert_desc]; [reflexivity|].
  destruct (al_created_at b <? al_created_at a); cbn; [reflexivity|].
  rewrite IH. reflexivity.
Qed.

Lemma insert_desc_sorted a : forall l,
  StronglySorted newer_or_same l ->
  StronglySorted newer_or_same (insert_desc a l).
Proof.
  induction l as [|b l IH]; intros Hs; cbn [insert_desc].
  - repeat constructor.
  - inversion Hs as [|b' l' Hl Hb]; subst.
    destruct (Z.ltb_spec (al_created_at b) (al_created_at a)) as [Hlt|Hge].
    + constructor; [exact Hs|].
      constructor; [unfold newer_or_same; lia|].
      eapply List.Forall_impl; [|exact Hb].
      unfold newer_or_same. intros c Hc. lia.
    + constructor; [apply IH; exact Hl|].
      apply List.Forall_forall. intros c Hc.
      apply insert_desc_In in Hc as [->|Hc].
      * exact Hge.
      * rewrite List.Forall_forall in Hb. apply Hb. exact Hc.
Qed.

Lemma order_by_created_at_desc_sorted l :
  StronglySorted newer_or_same (order_by_created_at_desc l).
Proof.
  unfold order_by_created_at_desc.
  induction l as [|a l IH]; cbn [fold_right]; [constructor|].
  apply insert_desc_sorted. exact IH.
Qed.

Section SortedLists.

Context {A : Type} (R : A -> A -> Prop).

Lemma In_firstn n x : forall l : list A, In x (firstn n l) -> In x l.
Proof.
  induction n as [|n IH]; intros l Hin; [destruct Hin|].
  destruct l as [|y l]; [destruct Hin|].
  destruct Hin as [->|Hin]; [left; reflexivity|right; apply IH; exact Hin].
Qed.

Lemma StronglySorted_firstn n : forall l,
  StronglySorted R l -> StronglySorted R (firstn n l).
Proof.
  induction n as [|n IH]; intros l Hs; [constructor|].
  destruct l as [|x l]; [constructor|].
  inversion Hs as [|x' l' Hl Hx]; subst. cbn [firstn].
  constructor; [apply IH; exact Hl|].
  apply List.Forall_forall. intros y Hy.
  rewrite List.Forall_forall in Hx. apply Hx. eapply In_firstn; exact Hy.
Qed.

Lemma StronglySorted_list_filter f : forall l,
  StronglySorted R l -> StronglySorted R (List.filter f l).
Proof.
  induction l as [|x l IH]; intros Hs; [constructor|].
  inversion Hs as [|x' l' Hl Hx]; subst. cbn [List.filter].
  destruct (f x); [|apply IH; exact Hl].
  constructor; [apply IH; exact Hl|].
  apply List.Forall_forall. intros y Hy.
  rewrite List.Forall_forall in Hx. apply Hx.
  apply filter_In in Hy as [Hy _]. exact Hy.
Qed.

End SortedLists.

Lemma StronglySorted_embed (f : audit_log -> AuditLog) l :
  (forall a, log_row (f a) = a) ->
  StronglySorted newer_or_same l ->
  StronglySorted (fun x y => newer_or_same (log_row x) (log_row y)) (map f l).
Proof.
  intros Hf. induction 1 as [|a l Hl IH Ha]; cbn [map]; constructor.
  - exact IH.
  - apply List.Forall_forall. intros y Hy.
    apply in_map_iff in Hy as (b & <- & Hb).
    rewrite !Hf. rewrite List.Forall_forall in Ha. apply Ha. exact Hb.
Qed.

(** [applyFilters] keeps the logs that pass every filter that is set. *)
Lemma applyFilters_In filters logs log :
  In log (applyFilters filters logs) -> In log logs.
Proof.
  unfold applyFilters. intros Hin.
  repeat match type of Hin with
  | In _ (if ?b then _ else _) => destruct b
  | In _ (match ?o with Some _ => _ | None => _ end) => destruct o
  | In _ (List.filter _ _) => apply filter_In in Hin as [Hin _]
  end; exact Hin.
Qed.

Lemma applyFilters_sorted filters logs :
  StronglySorted (fun x y => newer_or_same (log_row x) (log_row y)) logs ->
  StronglySorted (fun x y => newer_or_same (log_row x) (log_row y))
                 (applyFilters filters logs).
Proof.
  unfold applyFilters. intros Hs.
  repeat match goal with
  | |- StronglySorted _ (if ?b then _ else _) => destruct b
  | |- StronglySorted _ (match ?o with Some _ => _ | None => _ end) => destruct o
  | |- StronglySorted _ (List.filter _ _) => apply StronglySorted_list_filter
  end; exact Hs.
Qed.

(** A date in milliseconds against an instant in microseconds. *)
Lemma new_Date_range (dateFrom dateTo : Date) (t : timestamptz) :
  dateFrom <= new_Date t <= dateTo
  <-> 1000 * dateFrom <= t < 1000 * dateTo + 1000.
Proof.
  unfold new_Date.
  pose proof (Z.div_mod t 1000 ltac:(lia)) as Hdiv.
  pose proof (Z.mod_pos_bound t 1000 ltac:(lia)) as Hmod.
  lia.
Qed.

Lemma applyFilters_date_range dateFrom dateTo logs log :
  In log (applyFilters (date_range dateFrom dateTo) logs)
  <-> In log logs
      /\ 1000 * dateFrom <= al_created_at (log_row log) < 1000 * dateTo + 1000.
Proof.
  rewrite <- new_Date_range.
  unfold applyFilters, date_range. cbn -[List.filter Z.leb Z.geb new_Date].
  rewrite !filter_In. rewrite Z.leb_le, Z.geb_le.
  split.
  - intros [[Hin Hfrom] Hto]. split; [exact Hin|lia].
  - intros [Hin [Hfrom Hto]]. repeat split; assumption.
Qed.

Lemma select_audit_logs_bypass s n d :
  rolbypassrls s = true ->
  select_audit_logs s n d
  = map (embed_admin_users s d) (firstn n (order_by_created_at_desc (audit_logs d))).
Proof.
  intros Hby. unfold select_audit_logs.
  rewrite !row_security_bypass, rls_permits_bypass by exact Hby. reflexivity.
Qed.

Lemma select_audit_logs_no_bypass s n d :
  rolbypassrls s = false -> select_audit_logs s n d = [].
Proof.
  intros Hby. unfold select_audit_logs.
  destruct (row_security s t_audit_logs SELECT) as [[]|] eqn:Hrec;
    cbn [rbind rows_of]; [|reflexivity].
  destruct (row_security s t_admin_users SELECT) as [[]|];
    cbn [rbind rows_of]; [|reflexivity].
  rewrite (row_security_denies _ _ _ _ _ Hby Hrec). reflexivity.
Qed.

Lemma fetchAuditLogs_rows s d :
  map log_row (fetchAuditLogs s d)
  = if rolbypassrls s then newest 1000 d else [].
Proof.
  unfold fetchAuditLogs, newest. destruct (rolbypassrls s) eqn:Hby.
  - rewrite select_audit_logs_bypass by exact Hby.
    rewrite map_map. cbn [embed_admin_users log_row]. apply map_id.
  - rewrite select_audit_logs_no_bypass by exact Hby. reflexivity.
Qed.

Lemma fetchAuditLogs_sorted s d :
  StronglySorted (fun x y => newer_or_same (log_row x) (log_row y))
                 (fetchAuditLogs s d).
Proof.
  unfold fetchAuditLogs. destruct (rolbypassrls s) eqn:Hby.
  - rewrite select_audit_logs_bypass by exact Hby.
    apply StronglySorted_embed; [reflexivity|].
    apply StronglySorted_firstn, order_by_created_at_desc_sorted.
  - rewrite select_audit_logs_no_bypass by exact Hby. constructor.
Qed.

Lemma In_fetchAuditLogs s d log :
  In log (fetchAuditLogs s d) -> In (log_row log) (newest 1000 d).
Proof.
  intros Hin. apply (in_map log_row) in Hin.
  rewrite fetchAuditLogs_rows in Hin.
  destruct (rolbypassrls s); [exact Hin|destruct Hin].
Qed.

(** C9, as the code has it. The logs are read by a session that bypasses
    row security only. Filtering by [dateFrom]/[dateTo] returns, of the 1000
    newest audit records the list operation has read, exactly those whose
    creation time, cut to the millisecond, lies in the closed interval:
    those created from [dateFrom] on and less than a millisecond after
    [dateTo]; they come newest first. *)
Theorem date_filter_over_fetched_logs (s : session) (d : db)
    (dateFrom dateTo : Date) :
  let result := applyFilters (date_range dateFrom dateTo) (fetchAuditLogs s d) in
  (forall a, In a (map log_row result)
             <-> rolbypassrls s = true
                 /\ In a (newest 1000 d)
                 /\ 1000 * dateFrom <= al_created_at a < 1000 * dateTo + 1000)
  /\ StronglySorted (fun x y => newer_or_same (log_row x) (log_row y)) result.
Proof.
  cbv zeta. split.
  - intros a. rewrite in_map_iff. split.
    + intros (log & <- & Hlog). apply applyFilters_date_range in Hlog as [Hin Hrange].
      split; [|split; [apply (In_fetchAuditLogs s); exact Hin|exact Hrange]].
      apply (in_map log_row) in Hin. rewrite fetchAuditLogs_rows in Hin.
      destruct (rolbypassrls s); [reflexivity|destruct Hin].
    + intros (Hby & Hin & Hrange).
      pose proof (fetchAuditLogs_rows s d) as Hrows. rewrite Hby in Hrows.
      rewrite <- Hrows in Hin. apply in_map_iff in Hin as (log & <- & Hlog).
      exists log. split; [reflexivity|].
      apply applyFilters_date_range. split; assumption.
  - apply applyFilters_sorted, fetchAuditLogs_sorted.
Qed.

Lemma firstn_not_older_than_last n : forall l a r,
  StronglySorted newer_or_same l ->
  In a (firstn (S n) l) -> nth_error l n = Some r ->
  al_created_at r <= al_created_at a.
Proof.
  induction n as [|n IH]; intros l a r Hs Hin Hnth;
    destruct l as [|x l]; try discriminate;
    inversion Hs as [|x' l' Hl Hx]; subst.
  - cbn in Hin, Hnth. destruct Hin as [<-|[]]. injection Hnth as <-. lia.
  - cbn [firstn nth_error] in Hin, Hnth. destruct Hin as [<-|Hin].
    + rewrite List.Forall_forall in Hx. apply Hx.
      eapply nth_error_In. exact Hnth.
    + eapply IH; eassumption.
Qed.

Lemma applyFilters_length filters logs :
  (List.length (applyFilters filters logs) <= List.length logs)%nat.
Proof.
  unfold applyFilters.
  repeat match goal with
  | |- (List.length (if ?b then _ else _) <= _)%nat => destruct b
  | |- (List.length (match ?o with Some _ => _ | None => _ end) <= _)%nat =>
      destruct o
  | |- (List.length (List.filter ?f ?l) <= _)%nat =>
      etransitivity; [apply filter_length_le|]
  end; reflexivity.
Qed.

(** C10. The audit-log list operation reads at most the 1000 newest audit
    records. Whatever the filters, every record [applyFilters] returns, and
    so every line of the CSV export, comes from those records; a record
    older than the 1000th newest is never returned. *)
Theorem audit_list_reads_newest_1000_only (s : session) (d : db)
    (filters : filters_t) :
  let logs := fetchAuditLogs s d in
  let filteredLogs := applyFilters filters logs in
  (List.length logs <= 1000)%nat
  /\ (forall log, In log logs -> In (log_row log) (newest 1000 d))
  /\ (forall log, In log filteredLogs -> In log logs)
  /\ exportLogs filteredLogs
     = Text.join (String "010"%char EmptyString)
                 (csv_header :: map csv_line filteredLogs)
  /\ (List.length filteredLogs <= 1000)%nat
  /\ (forall a r,
        nth_error (order_by_created_at_desc (audit_logs d)) 999 = Some r ->
        al_created_at a < al_created_at r ->
        ~ In a (map log_row filteredLogs)).
Proof.
  cbv zeta.
  assert (Hlen : (List.length (fetchAuditLogs s d) <= 1000)%nat).
  { rewrite <- (length_map log_row), fetchAuditLogs_rows. unfold newest.
    destruct (rolbypassrls s); cbn [List.length]; [|lia].
    apply firstn_le_length. }
  repeat split.
  - exact Hlen.
  - intros log. apply In_fetchAuditLogs.
  - intros log. apply applyFilters_In.
  - etransitivity; [apply applyFilters_length|exact Hlen].
  - intros a r Hnth Hold Hin.
    apply in_map_iff in Hin as (log & <- & Hlog).
    apply applyFilters_In, In_fetchAuditLogs in Hlog. unfold newest in Hlog.
    pose proof (firstn_not_older_than_last 999 _ _ _
                  (order_by_created_at_desc_sorted (audit_logs d)) Hlog Hnth).
    lia.
Qed.

(** * Further properties *)

(** ** Who reaches the tables *)

Lemma row_security_authenticated s t c :
  rolname s = "authenticated" -> rolbypassrls s = false ->
  match t with
  | t_admin_permissions | t_audit_logs => c = SELECT
  | _ => True
  end ->
  row_security s t c = Err invalid_object_definition.
Proof.
  intros Hrole Hby Hnamed. unfold row_security.
  rewrite rls_recursion_authenticated by assumption.
  destruct t; try reflexivity; rewrite Hnamed; reflexivity.
Qed.

Lemma exec_authenticated s e r d :
  rolname s = "authenticated" -> rolbypassrls s = false ->
  exec s e r d = Err invalid_object_definition.
Proof.
  intros Hrole Hby.
  destruct r; cbn [exec];
    unfold insert_admin_user, update_admin_user, delete_admin_user,
      insert_domain_row, update_domain_row, delete_domain_row,
      delete_user_permissions, insert_user_permissions, upsert_system_settings;
    rewrite row_security_authenticated by (try assumption; exact I);
    reflexivity.
Qed.

Lemma exec_no_bypass s e r d :
  rolbypassrls s = false -> commit (exec s e r d) d = d.
Proof.
  intros Hby.
  destruct r; cbn [exec];
    unfold insert_admin_user, update_admin_user, delete_admin_user,
      insert_domain_row, update_domain_row, delete_domain_row,
      delete_user_permissions, insert_user_permissions, upsert_system_settings;
    repeat match goal with
    | |- context [rbind (row_security ?s ?t ?c) _] =>
        let Hrec := fresh "Hrec" in
        destruct (row_security s t c) as [[]|] eqn:Hrec; cbn [rbind commit];
          [rewrite ?(row_security_denies _ _ _ _ _ Hby Hrec)|reflexivity]
    end;
    reflexivity.
Qed.

Lemma select_user_permissions_no_bypass s d :
  rolbypassrls s = false -> select_user_permissions s d = [].
Proof.
  intros Hby. unfold select_user_permissions.
  destruct (row_security s t_admin_user_permissions SELECT) as [[]|] eqn:Hrec;
    cbn [rbind rows_of]; [|reflexivity].
  rewrite (row_security_denies _ _ _ _ _ Hby Hrec). reflexivity.
Qed.

Lemma fetches_no_bypass s d :
  rolbypassrls s = false ->
  fetchSettings s d = ∅
  /\ fetchAuditLogs s d = []
  /\ fetchUserPermissions s d = [].
Proof.
  intros Hby. split; [|split].
  - unfold fetchSettings. rewrite select_system_settings_no_bypass by exact Hby.
    reflexivity.
  - unfold fetchAuditLogs. apply select_audit_logs_no_bypass. exact Hby.
  - unfold fetchUserPermissions.
    rewrite select_user_permissions_no_bypass by exact Hby.
    destruct (row_security s t_admin_permissions SELECT); reflexivity.
Qed.

(** X1. Under the policies as migrated, a session of the role
    [authenticated] reaches no table of the migration, whoever it acts for:
    every [USING] clause reads [admin_users], whose own policies read it
    again, so each of its statements ends with "infinite recursion detected
    in policy" (42P17). Every fetch leaves its page empty, and the user
    form, the switch, the delete button, a save of permissions and a save
    of settings show their error toast, the store unchanged. *)
Theorem authenticated_sessions_meet_the_policy_recursion (s : session)
    (e : stmt_env) (d : db) :
  rolname s = "authenticated" -> rolbypassrls s = false ->
  fetchSettings s d = ∅
  /\ fetchAuditLogs s d = []
  /\ fetchUserPermissions s d = []
  /\ (forall formData editingUser,
        Text.truthy (fd_username formData) = true ->
        Text.truthy (fd_email formData) = true ->
        (editingUser = None -> Text.truthy (fd_password formData) = true) ->
        handleSubmit s e formData editingUser d
        = (d, toast_error "Failed to save user"))
  /\ (forall userId currentStatus,
        handleToggleStatus s e userId currentStatus d
        = (d, toast_error "Failed to update user status"))
  /\ (forall userId,
        handleDeleteUser s e true userId d
        = (d, Some (toast_error "Failed to delete user")))
  /\ (forall u q sel,
        saveUserPermissions s e (Some u) (q :: sel) d
        = ([d; d], Some (toast_error "Failed to save permissions")))
  /\ (forall client_clock settings,
        settings <> ∅ ->
        handleSaveAll s e client_clock settings d
        = (d, toast_error "Failed to save system settings")).
Proof.
  intros Hrole Hby.
  destruct (fetches_no_bypass s d Hby) as (Hsettings & Hlogs & Hgrants).
  split; [exact Hsettings|]. split; [exact Hlogs|]. split; [exact Hgrants|].
  split; [|split; [|split; [|split]]].
  - intros formData editingUser Hname Hmail Hpass. unfold handleSubmit.
    rewrite Hname, Hmail. cbn [negb orb].
    destruct editingUser as [u|].
    + rewrite andb_false_l.
      pose proof (exec_authenticated s e (UpdateAdminUser (au_id u)
        {| p_username := Some (fd_username formData);
           p_email := Some (fd_email formData);
           p_role := Some (fd_role formData);
           p_password_hash :=
             if Text.truthy (fd_password formData)
             then Some (password_hash_of (fd_password formData)) else None;
           p_is_active := None |}) d Hrole Hby) as Hrun.
      cbn [exec] in Hrun. rewrite Hrun. reflexivity.
    + rewrite (Hpass eq_refl), andb_false_r.
      pose proof (exec_authenticated s e (InsertAdminUser
        {| v_username := fd_username formData;
           v_email := fd_email formData;
           v_password_hash := password_hash_of (fd_password formData);
           v_role := fd_role formData |}) d Hrole Hby) as Hrun.
      cbn [exec] in Hrun. rewrite Hrun. reflexivity.
  - intros userId currentStatus. unfold handleToggleStatus.
    pose proof (exec_authenticated s e (UpdateAdminUser userId
      {| p_username := None; p_email := None; p_role := None;
         p_password_hash := None; p_is_active := Some (negb currentStatus) |})
      d Hrole Hby) as Hrun.
    cbn [exec] in Hrun. rewrite Hrun. reflexivity.
  - intros userId. unfold handleDeleteUser. cbn [negb].
    pose proof (exec_authenticated s e (DeleteAdminUser userId) d Hrole Hby)
      as Hrun.
    cbn [exec] in Hrun. rewrite Hrun. reflexivity.
  - intros u q sel. unfold saveUserPermissions.
    rewrite delete_user_permissions_no_bypass by exact Hby.
    cbn [List.length Nat.ltb Nat.leb].
    pose proof (exec_authenticated s e
      (InsertUserPermissions
         (map (fun permId => {| gv_user_id := au_id u; gv_permission_id := permId |})
              (q :: sel))) d Hrole Hby) as Hrun.
    cbn [exec] in Hrun. rewrite Hrun. reflexivity.
  - intros client_clock settings _. unfold handleSaveAll.
    pose proof (exec_authenticated s e
      (UpsertSystemSettings
         (imap (fun i kv => {| sv_setting_key := fst kv; sv_setting_value := snd kv;
                               sv_updated_at := client_clock i |})
               (map_to_list settings))) d Hrole Hby) as Hrun.
    cbn [exec] in Hrun. rewrite Hrun. reflexivity.
Qed.

(** X2. Only a session that bypasses row security reaches the tables. For
    any other session, of whatever role and for whatever identity, active
    super administrator included, no request changes the store and every
    fetch leaves its page empty. *)
Theorem only_bypass_sessions_reach_the_tables (s : session) (d : db) :
  rolbypassrls s = false ->
  (forall e r, commit (exec s e r d) d = d)
  /\ fetchSettings s d = ∅
  /\ fetchAuditLogs s d = []
  /\ fetchUserPermissions s d = [].
Proof.
  intros Hby. split; [intros e r; apply exec_no_bypass; exact Hby|].
  apply fetches_no_bypass. exact Hby.
Qed.

(** ** The constraints of the schema are kept *)

Section Keys.

Context {A B : Type} (key : A -> string) (col : A -> list B).

Lemma fresh_not_In id (l : list A) :
  forallb (fun y => negb (String.eqb (key y) id)) l = true ->
  ~ In id (map key l).
Proof.
  intros Hall Hin. apply in_map_iff in Hin as (y & Hy & Hin).
  rewrite forallb_forall in Hall. specialize (Hall y Hin).
  rewrite Hy, String.eqb_refl in Hall. discriminate.
Qed.

Lemma existsb_key_In id (l : list A) :
  existsb (fun y => String.eqb (key y) id) l = true <-> In id (map key l).
Proof.
  rewrite existsb_exists, in_map_iff. split.
  - intros (y & Hin & Heq). apply String.eqb_eq in Heq. eauto.
  - intros (y & Heq & Hin). exists y. split; [exact Hin|].
    apply String.eqb_eq. exact Heq.
Qed.

Lemma NoDup_snoc (l : list B) x :
  List.NoDup l -> ~ In x l -> List.NoDup (l ++ [x]).
Proof.
  intros Hl Hx. apply List.NoDup_app; [exact Hl|repeat constructor; intros []|].
  intros a Ha [<-|[]]. contradiction.
Qed.

Lemma NoDup_flat_map_snoc (l : list A) x :
  List.NoDup (flat_map col l) -> List.NoDup (col x) ->
  (forall b, In b (col x) -> ~ In b (flat_map col l)) ->
  List.NoDup (flat_map col (l ++ [x])).
Proof.
  intros Hl Hx Hdis. rewrite flat_map_app. cbn [flat_map]. rewrite app_nil_r.
  apply List.NoDup_app; [exact Hl|exact Hx|].
  intros b Hb Hbx. exact (Hdis b Hbx Hb).
Qed.

Lemma NoDup_flat_map_filter (p : A -> bool) (l : list A) :
  List.NoDup (flat_map col l) -> List.NoDup (flat_map col (List.filter p l)).
Proof.
  induction l as [|y l IH]; cbn [flat_map List.filter]; intros Hnd; [constructor|].
  assert (Hl : List.NoDup (flat_map col l)) by (eapply NoDup_app_remove_l; exact Hnd).
  destruct (p y); [|apply IH; exact Hl].
  cbn [flat_map]. apply List.NoDup_app.
  - eapply NoDup_app_remove_r. exact Hnd.
  - apply IH. exact Hl.
  - intros b Hb Hin. apply in_flat_map in Hin as (z & Hz & Hbz).
    apply filter_In in Hz as [Hz _].
    revert Hnd. clear -Hb Hz Hbz. intros Hnd.
    induction (col y) as [|c cs IHc]; [destruct Hb|].
    cbn in Hnd. inversion Hnd as [|c' rest Hnotin Hrest]; subst.
    destruct Hb as [->|Hb].
    + apply Hnotin. apply in_or_app. right. apply in_flat_map. eauto.
    + apply IHc; assumption.
Qed.

Lemma replace_without id new (l : list A) :
  ~ In id (map key l) ->
  map (fun y => if String.eqb (key y) id then new else y) l = l.
Proof.
  induction l as [|y l IH]; cbn [map]; intros Hnot; [reflexivity|].
  destruct (String.eqb_spec (key y) id) as [Heq|Hne].
  - exfalso. apply Hnot. left. exact Heq.
  - rewrite IH; [reflexivity|]. intros Hin. apply Hnot. right. exact Hin.
Qed.

Lemma map_key_replace id new (l : list A) :
  key new = id ->
  map key (map (fun y => if String.eqb (key y) id then new else y) l) = map key l.
Proof.
  intros Hnew. rewrite map_map. apply map_ext_in. intros y _.
  destruct (String.eqb_spec (key y) id); congruence.
Qed.

(** Replacing the row [id] keeps a column unique when the new row collides
    with no other row. *)
Lemma NoDup_flat_map_replace id new (l : list A) :
  List.NoDup (map key l) ->
  List.NoDup (flat_map col l) ->
  List.NoDup (col new) ->
  (forall y b, In y l -> key y <> id -> In b (col y) -> ~ In b (col new)) ->
  List.NoDup (flat_map col (map (fun y => if String.eqb (key y) id then new else y) l)).
Proof.
  induction l as [|y l IH]; intros Hk Hc Hnew Hother; [constructor|].
  cbn [map flat_map] in *.
  inversion Hk as [|k ks Hnotin Hks]; subst.
  assert (Hcl : List.NoDup (flat_map col l)) by (eapply NoDup_app_remove_l; exact Hc).
  destruct (String.eqb_spec (key y) id) as [Heq|Hne].
  - rewrite replace_without by (rewrite <- Heq; exact Hnotin).
    apply List.NoDup_app; [exact Hnew|exact Hcl|].
    intros b Hb Hin. apply in_flat_map in Hin as (z & Hz & Hbz).
    apply (Hother z b); [right; exact Hz| |exact Hbz|exact Hb].
    intros Hzk. apply Hnotin. rewrite Heq, <- Hzk. apply in_map. exact Hz.
  - apply List.NoDup_app.
    + eapply NoDup_app_remove_r. exact Hc.
    + apply IH; [exact Hks|exact Hcl|exact Hnew|].
      intros z b Hz. apply Hother. right. exact Hz.
    + intros b Hb Hin. apply in_flat_map in Hin as (z & Hz & Hbz).
      apply in_map_iff in Hz as (z0 & Hz0 & Hin0).
      destruct (String.eqb_spec (key z0) id) as [Hz0id|Hz0id]; subst z.
      * apply (Hother y b); [left; reflexivity|exact Hne|exact Hb|exact Hbz].
      * revert Hc. clear -Hb Hbz Hin0. intros Hc.
        induction (col y) as [|c cs IHc]; [destruct Hb|].
        cbn in Hc. inversion Hc as [|c' rest Hnotin Hrest]; subst.
        destruct Hb as [->|Hb].
        -- apply Hnotin. apply in_or_app. right. apply in_flat_map. eauto.
        -- apply IHc; assumption.
Qed.

End Keys.

Lemma flat_map_singleton {A B} (f : A -> B) (l : list A) :
  flat_map (fun y => [f y]) l = map f l.
Proof. induction l as [|y l IH]; cbn; [reflexivity|]. rewrite IH. reflexivity. Qed.

Lemma NoDup_map_filter {A B} (f : A -> B) (p : A -> bool) (l : list A) :
  List.NoDup (map f l) -> List.NoDup (map f (List.filter p l)).
Proof.
  rewrite <- !flat_map_singleton. apply NoDup_flat_map_filter.
Qed.

Lemma NoDup_map_snoc {A B} (f : A -> B) (l : list A) x :
  List.NoDup (map f l) -> ~ In (f x) (map f l) -> List.NoDup (map f (l ++ [x])).
Proof.
  intros Hl Hx. rewrite map_app. apply NoDup_snoc; assumption.
Qed.

Lemma refers_to_user_more users users' o :
  (forall u, In u (map au_id users) -> In u (map au_id users')) ->
  refers_to_user users o -> refers_to_user users' o.
Proof. intros Hincl. destruct o as [u|]; cbn; auto. Qed.

Lemma references_hold_users d d' :
  (forall u, In u (map au_id (admin_users d)) -> In u (map au_id (admin_users d'))) ->
  admin_permissions d' = admin_permissions d ->
  admin_user_permissions d' = admin_user_permissions d ->
  system_settings d' = system_settings d ->
  audit_logs d' = audit_logs d ->
  references_hold d -> references_hold d'.
Proof.
  intros Hincl Hp Hg Hs Ha [H1 H2 H3 H4 H5].
  constructor; rewrite ?Hp, ?Hg, ?Hs, ?Ha; intros x Hx.
  - apply Hincl, H1, Hx.
  - apply H2, Hx.
  - eapply refers_to_user_more; [exact Hincl|apply H3, Hx].
  - eapply refers_to_user_more; [exact Hincl|apply H4, Hx].
  - eapply refers_to_user_more; [exact Hincl|apply H5, Hx].
Qed.

Lemma insert_audit_log_keys s e v w d' :
  unique_keys w -> insert_audit_log s e v w = Ok d' -> unique_keys d'.
Proof.
  unfold insert_audit_log. intros [] Hrun. bind_inv Hrun. injection Hrun as <-.
  constructor; simpl_db; try assumption.
  apply NoDup_map_snoc; [assumption|].
  apply (fresh_not_In al_id). exact Hguard0.
Qed.

Lemma insert_audit_log_refs s e v w d' :
  references_hold w -> insert_audit_log s e v w = Ok d' -> references_hold d'.
Proof.
  unfold insert_audit_log. intros [] Hrun. bind_inv Hrun. injection Hrun as <-.
  constructor; simpl_db; try assumption.
  intros a Ha. apply in_app_or in Ha as [Ha|[<-|[]]]; [auto|].
  cbn [audit_row al_user_id]. destruct (av_user_id v) as [u|]; [|exact I].
  cbn. apply (existsb_key_In au_id). exact Hguard1.
Qed.

Lemma insert_audit_log_consistent s e v w d' :
  consistent w -> insert_audit_log s e v w = Ok d' -> consistent d'.
Proof.
  intros [Hk Hr] Hrun. split;
    [eapply insert_audit_log_keys|eapply insert_audit_log_refs]; eassumption.
Qed.

Lemma In_emails e users :
  In e (emails users) <-> exists au, In au users /\ au_email au = Some e.
Proof.
  unfold emails. rewrite in_flat_map. split.
  - intros (au & Hau & Hin). exists au. split; [exact Hau|].
    destruct (au_email au) as [e'|]; cbn in Hin; [|destruct Hin].
    destruct Hin as [->|[]]. reflexivity.
  - intros (au & Hau & Heq). exists au. split; [exact Hau|].
    rewrite Heq. left. reflexivity.
Qed.

Lemma admin_user_unique_spec r others :
  admin_user_unique r others = true ->
  forall au, In au others ->
    au_id au <> au_id r
    /\ au_username au <> au_username r
    /\ (forall e, au_email au = Some e -> au_email r <> Some e).
Proof.
  unfold admin_user_unique. rewrite forallb_forall. intros Hall au Hau.
  specialize (Hall au Hau).
  apply andb_prop in Hall as [Hall He]. apply andb_prop in Hall as [Hi Hu].
  apply negb_true_iff in Hi, Hu, He.
  apply String.eqb_neq in Hi, Hu. repeat split; try assumption.
  intros e Hee Hre. rewrite Hee, Hre in He. cbn in He.
  rewrite String.eqb_refl in He. discriminate.
Qed.

Lemma NoDup_option_list {A} (o : option A) : List.NoDup (option_list o).
Proof. destruct o; cbn; repeat constructor. intros []. Qed.

Lemma insert_admin_user_consistent s e v d d' n :
  consistent d -> insert_admin_user s e v d = Ok (d', n) -> consistent d'.
Proof.
  unfold insert_admin_user. intros [Hk Hr] Hrun. bind_inv Hrun.
  injection Hrun as <- <-.
  set (row := {| au_id := env_row_id e 0 |}) in *.
  pose proof (admin_user_unique_spec _ _ Hguard0) as Huniq.
  unfold fire_audit_trigger in Hstep.
  eapply insert_audit_log_consistent; [|exact Hstep]. split.
  - destruct Hk. constructor; simpl_db; try assumption.
    + apply NoDup_map_snoc; [assumption|]. intros Hin.
      apply in_map_iff in Hin as (au & Heq & Hau).
      destruct (Huniq au Hau) as (Hne & _). congruence.
    + apply NoDup_map_snoc; [assumption|]. intros Hin.
      apply in_map_iff in Hin as (au & Heq & Hau).
      destruct (Huniq au Hau) as (_ & Hne & _). congruence.
    + unfold emails. apply NoDup_flat_map_snoc;
        [assumption|apply NoDup_option_list|].
      intros b Hb Hin. apply In_emails in Hin as (au & Hau & Heq).
      destruct (Huniq au Hau) as (_ & _ & Hne).
      apply (Hne b Heq). cbn in Hb. destruct Hb as [<-|[]]. reflexivity.
  - eapply references_hold_users; [| | | | |exact Hr]; simpl_db; try reflexivity.
    intros u Hu. rewrite map_app. apply in_or_app. left. exact Hu.
Qed.

Lemma update_admin_user_consistent s e id p d d' n :
  consistent d -> update_admin_user s e id p d = Ok (d', n) -> consistent d'.
Proof.
  unfold update_admin_user. intros Hc Hrun. bind_inv Hrun.
  destruct (negb _) in Hrun; [injection Hrun as <- _; exact Hc|].
  destruct (find_admin_user id (admin_users d)) as [old|] eqn:Hold;
    [|injection Hrun as <- _; exact Hc].
  bind_inv Hrun. injection Hrun as <- <-.
  set (new := update_updated_at_column_admin_user (env_now e) (apply_patch p old)) in *.
  pose proof (find_key au_id _ _ _ Hold) as Hid.
  assert (Hnewid : au_id new = id) by exact Hid.
  pose proof (admin_user_unique_spec _ _ Hguard) as Huniq.
  assert (Hothers : forall y, In y (admin_users d) -> au_id y <> id ->
            au_username y <> au_username new
            /\ (forall e0, au_email y = Some e0 -> au_email new <> Some e0)).
  { intros y Hy Hne. apply Huniq. unfold remove_admin_user.
    apply filter_In. split; [exact Hy|].
    apply negb_true_iff, String.eqb_neq. exact Hne. }
  unfold fire_audit_trigger in Hstep.
  eapply insert_audit_log_consistent; [|exact Hstep].
  destruct Hc as [Hk Hr]. unfold replace_admin_user. rewrite Hnewid. split.
  - destruct Hk. constructor; simpl_db; try assumption.
    + rewrite (map_key_replace au_id) by exact Hnewid. assumption.
    + rewrite <- flat_map_singleton.
      apply (NoDup_flat_map_replace au_id);
        [assumption|rewrite flat_map_singleton; assumption|
         repeat constructor; intros []|].
      intros y b Hy Hne [<-|[]] [Heq|[]].
      destruct (Hothers y Hy Hne) as [Hu _]. congruence.
    + unfold emails. apply (NoDup_flat_map_replace au_id);
        [assumption|assumption|apply NoDup_option_list|].
      intros y b Hy Hne Hby Hbn.
      destruct (Hothers y Hy Hne) as [_ He].
      destruct (au_email y) as [ey|] eqn:Hey; cbn in Hby; [|destruct Hby].
      destruct Hby as [<-|[]].
      destruct (au_email new) as [en|] eqn:Hen; cbn in Hbn; [|destruct Hbn].
      destruct Hbn as [<-|[]]. apply (He en); reflexivity.
  - eapply references_hold_users; [| | | | |exact Hr]; simpl_db; try reflexivity.
    intros u Hu. rewrite (map_key_replace au_id) by exact Hnewid. exact Hu.
Qed.

Lemma In_remove_admin_user u id users :
  In u (map au_id users) -> u <> id ->
  In u (map au_id (remove_admin_user id users)).
Proof.
  intros Hin Hne. apply in_map_iff in Hin as (au & <- & Hau).
  apply in_map. unfold remove_admin_user. apply filter_In. split; [exact Hau|].
  apply negb_true_iff, String.eqb_neq. exact Hne.
Qed.

Lemma refers_to_user_removed users id o :
  refers_to_user users o -> opt_is o id = false ->
  refers_to_user (remove_admin_user id users) o.
Proof.
  destruct o as [u|]; cbn; [|auto]. intros Hin Hne.
  apply In_remove_admin_user; [exact Hin|]. apply String.eqb_neq. exact Hne.
Qed.

Lemma existsb_false {A} (p : A -> bool) l x :
  existsb p l = false -> In x l -> p x = false.
Proof.
  intros Hex Hin. apply not_true_is_false. intros Hp.
  assert (existsb p l = true) by (apply existsb_exists; eauto). congruence.
Qed.

Lemma delete_admin_user_consistent s e id d d' n :
  consistent d -> delete_admin_user s e id d = Ok (d', n) -> consistent d'.
Proof.
  unfold delete_admin_user. intros Hc Hrun. bind_inv Hrun.
  destruct (negb _) in Hrun; [injection Hrun as <- _; exact Hc|].
  destruct (find_admin_user id (admin_users d)) as [old|] eqn:Hold;
    [|injection Hrun as <- _; exact Hc].
  bind_inv Hrun. injection Hrun as <- <-.
  destruct Hc as [Hk Hr].
  apply negb_true_iff in Hguard. unfold references_admin_user in Hguard.
  apply orb_false_elim in Hguard as [Hguard Haudit].
  apply orb_false_elim in Hguard as [Hgrants Hsettings].
  unfold fire_audit_trigger in Hstep.
  pose proof Hstep as Hrow. unfold insert_audit_log in Hrow. bind_inv Hrow.
  injection Hrow as <-.
  cbn [admin_users with_admin_users with_admin_user_permissions] in Hguard1.
  split.
  - eapply insert_audit_log_keys; [|exact Hstep].
    destruct Hk. constructor; simpl_db; try assumption;
      unfold remove_admin_user, emails; auto using @NoDup_map_filter.
    apply NoDup_flat_map_filter. assumption.
  - destruct Hr as [H1 H2 H3 H4 H5]. constructor; simpl_db.
    + intros g Hg. apply filter_In in Hg as [Hg Hne].
      apply In_remove_admin_user; [apply H1, Hg|].
      apply negb_true_iff, String.eqb_neq in Hne. exact Hne.
    + intros g Hg. apply filter_In in Hg as [Hg _]. apply H2, Hg.
    + intros g Hg. apply refers_to_user_removed.
      * apply filter_In in Hg as [Hg _]. apply H3, Hg.
      * exact (existsb_false _ _ g Hgrants Hg).
    + intros x Hx. apply refers_to_user_removed; [apply H4, Hx|].
      exact (existsb_false _ _ x Hsettings Hx).
    + intros a Ha. apply refers_to_user_removed.
      * apply in_app_or in Ha as [Ha|[<-|[]]]; [apply H5, Ha|].
        cbn [audit_row al_user_id].
        destruct (av_user_id _) as [u|]; [|exact I].
        cbn. apply (existsb_key_In au_id) in Hguard1.
        apply in_map_iff in Hguard1 as (au & <- & Hau).
        apply filter_In in Hau as [Hau _]. apply in_map. exact Hau.
      * exact (existsb_false _ _ a Haudit Ha).
Qed.

Lemma unique_keys_domain t rows d :
  unique_keys d -> List.NoDup (map dr_id rows) ->
  unique_keys (with_domain_rows t rows d).
Proof.
  intros [] Hrows. constructor; simpl_db; try assumption.
  intros t'. destruct (domain_table_eqb t t'); auto.
Qed.

Lemma references_hold_domain t rows d :
  references_hold d -> references_hold (with_domain_rows t rows d).
Proof. intros []. constructor; simpl_db; assumption. Qed.

Lemma domain_statement_consistent s e tbl (td : trigger_data domain_row)
    t rows d d' :
  consistent d -> List.NoDup (map dr_id rows) ->
  fire_audit_trigger s e tbl td (with_domain_rows t rows d) = Ok d' ->
  consistent d'.
Proof.
  intros [Hk Hr] Hrows Hfire. unfold fire_audit_trigger in Hfire.
  eapply insert_audit_log_consistent; [|exact Hfire]. split.
  - apply unique_keys_domain; assumption.
  - apply references_hold_domain; assumption.
Qed.

Lemma insert_domain_row_consistent s e t row d d' n :
  consistent d -> insert_domain_row s e t row d = Ok (d', n) -> consistent d'.
Proof.
  unfold insert_domain_row. intros Hc Hrun. bind_inv Hrun.
  injection Hrun as <- <-.
  eapply domain_statement_consistent; [exact Hc| |exact Hstep].
  apply NoDup_map_snoc; [apply Hc|]. apply (fresh_not_In dr_id). exact Hguard0.
Qed.

Lemma update_domain_row_consistent s e t id columns d d' n :
  consistent d -> update_domain_row s e t id columns d = Ok (d', n) ->
  consistent d'.
Proof.
  unfold update_domain_row. intros Hc Hrun. bind_inv Hrun.
  destruct (negb _) in Hrun; [injection Hrun as <- _; exact Hc|].
  destruct (find_domain_row id (domain_rows d t)) as [old|];
    [|injection Hrun as <- _; exact Hc].
  bind_inv Hrun. injection Hrun as <- <-.
  eapply domain_statement_consistent; [exact Hc| |exact Hstep].
  rewrite (map_key_replace dr_id) by reflexivity. apply Hc.
Qed.

Lemma delete_domain_row_consistent s e t id d d' n :
  consistent d -> delete_domain_row s e t id d = Ok (d', n) -> consistent d'.
Proof.
  unfold delete_domain_row. intros Hc Hrun. bind_inv Hrun.
  destruct (negb _) in Hrun; [injection Hrun as <- _; exact Hc|].
  destruct (find_domain_row id (domain_rows d t)) as [old|];
    [|injection Hrun as <- _; exact Hc].
  bind_inv Hrun. injection Hrun as <- <-.
  eapply domain_statement_consistent; [exact Hc| |exact Hstep].
  apply NoDup_map_filter. apply Hc.
Qed.

Lemma delete_user_permissions_consistent s u d d' n :
  consistent d -> delete_user_permissions s u d = Ok (d', n) -> consistent d'.
Proof.
  unfold delete_user_permissions. intros Hc Hrun. bind_inv Hrun.
  destruct (negb _) in Hrun; injection Hrun as <- _; [exact Hc|].
  destruct Hc as [[] [H1 H2 H3 H4 H5]]. split; constructor; simpl_db;
    try assumption; auto using @NoDup_map_filter;
    intros g Hg; apply filter_In in Hg as [Hg _]; auto.
Qed.

Lemma insert_grant_rows_ok e users perms : forall rows i tbl tbl',
  grants_ok users perms tbl ->
  insert_grant_rows e i rows users perms tbl = Ok tbl' ->
  grants_ok users perms tbl'.
Proof.
  induction rows as [|r rest IH]; intros i tbl tbl' Hok Hrun;
    cbn [insert_grant_rows] in Hrun.
  - injection Hrun as <-. exact Hok.
  - bind_inv Hrun. eapply IH; [|exact Hrun].
    destruct Hok as (Hid & Hpair & Hu & Hp & Hg).
    repeat split.
    + apply NoDup_map_snoc; [exact Hid|]. apply (fresh_not_In aup_id). exact Hguard.
    + apply NoDup_map_snoc; [exact Hpair|]. intros Hin.
      apply in_map_iff in Hin as (g & Heq & Hgin).
      rewrite forallb_forall in Hguard0. specialize (Hguard0 g Hgin).
      unfold grant_pair in Heq. cbn in Heq. injection Heq as Hu1 Hp1.
      rewrite Hu1, Hp1, !String.eqb_refl in Hguard0. discriminate.
    + intros g Hgin. apply in_app_or in Hgin as [Hgin|[<-|[]]]; [auto|].
      cbn. apply (existsb_key_In au_id). exact Hguard1.
    + intros g Hgin. apply in_app_or in Hgin as [Hgin|[<-|[]]]; [auto|].
      cbn. apply (existsb_key_In ap_id). exact Hguard2.
    + intros g Hgin. apply in_app_or in Hgin as [Hgin|[<-|[]]]; [auto|].
      exact I.
Qed.

Lemma insert_user_permissions_consistent s e rows d d' n :
  consistent d -> insert_user_permissions s e rows d = Ok (d', n) ->
  consistent d'.
Proof.
  unfold insert_user_permissions. intros Hc Hrun. bind_inv Hrun.
  injection Hrun as <- <-.
  destruct Hc as [[] [H1 H2 H3 H4 H5]].
  apply insert_grant_rows_ok in Hstep as (Gid & Gpair & Gu & Gp & Gg);
    [|repeat split; assumption].
  split; constructor; simpl_db; assumption.
Qed.

Lemma has_setting_In key tbl :
  has_setting key tbl = true <-> In key (map ss_setting_key tbl).
Proof. apply (existsb_key_In ss_setting_key). Qed.

Lemma upsert_row_ok users e i v tbl tbl' :
  settings_ok users tbl -> upsert_row e i v tbl = Ok tbl' ->
  settings_ok users tbl'.
Proof.
  unfold upsert_row. intros (Hid & Hkey & Hby) Hrun.
  destruct (has_setting (sv_setting_key v) tbl) eqn:Hhas.
  - injection Hrun as <-.
    set (f := fun x => if String.eqb (ss_setting_key x) (sv_setting_key v)
                       then conflict_update (env_now e) v x else x).
    assert (Hsame : forall x, ss_id (f x) = ss_id x
                              /\ ss_setting_key (f x) = ss_setting_key x
                              /\ ss_updated_by (f x) = ss_updated_by x).
    { intros x. unfold f.
      destruct (String.eqb_spec (ss_setting_key x) (sv_setting_key v));
        cbn; auto. }
    repeat split.
    + rewrite map_map.
      rewrite (map_ext _ ss_id) by (intros x; apply Hsame). exact Hid.
    + rewrite map_map.
      rewrite (map_ext _ ss_setting_key) by (intros x; apply Hsame). exact Hkey.
    + intros y Hy. apply in_map_iff in Hy as (x & <- & Hx).
      destruct (Hsame x) as (_ & _ & ->). apply Hby, Hx.
  - bind_inv Hrun. injection Hrun as <-. repeat split.
    + apply NoDup_map_snoc; [exact Hid|]. apply (fresh_not_In ss_id). exact Hguard.
    + apply NoDup_map_snoc; [exact Hkey|]. cbn. intros Hin.
      apply has_setting_In in Hin. congruence.
    + intros x Hx. apply in_app_or in Hx as [Hx|[<-|[]]]; [auto|exact I].
Qed.

Lemma upsert_rows_ok users e : forall rows i seen tbl tbl',
  settings_ok users tbl -> upsert_rows e i rows seen tbl = Ok tbl' ->
  settings_ok users tbl'.
Proof.
  induction rows as [|v rest IH]; intros i seen tbl tbl' Hok Hrun;
    cbn [upsert_rows] in Hrun.
  - injection Hrun as <-. exact Hok.
  - bind_inv Hrun. eapply IH; [|exact Hrun].
    eapply upsert_row_ok; eassumption.
Qed.

Lemma upsert_system_settings_consistent s e rows d d' n :
  consistent d -> upsert_system_settings s e rows d = Ok (d', n) ->
  consistent d'.
Proof.
  unfold upsert_system_settings. intros Hc Hrun. bind_inv Hrun.
  injection Hrun as <- <-.
  destruct Hc as [[] [H1 H2 H3 H4 H5]].
  apply (upsert_rows_ok (admin_users d)) in Hstep as (Sid & Skey & Sby);
    [|repeat split; assumption].
  split; constructor; simpl_db; assumption.
Qed.

Lemma exec_consistent s e r d d' n :
  consistent d -> exec s e r d = Ok (d', n) -> consistent d'.
Proof.
  intros Hc. destruct r; cbn [exec]; intros Hrun.
  - eapply insert_admin_user_consistent; eassumption.
  - eapply update_admin_user_consistent; eassumption.
  - eapply delete_admin_user_consistent; eassumption.
  - eapply insert_domain_row_consistent; eassumption.
  - eapply update_domain_row_consistent; eassumption.
  - eapply delete_domain_row_consistent; eassumption.
  - eapply delete_user_permissions_consistent; eassumption.
  - eapply insert_user_permissions_consistent; eassumption.
  - eapply upsert_system_settings_consistent; eassumption.
Qed.

(** X4. The constraints of the schema are an invariant of the store:
    whatever requests are made, primary keys and the [UNIQUE] columns
    (username, email, the pair of a grant, the key of a setting) stay free
    of duplicates, and every grant, setting and audit record keeps pointing
    at rows that exist. *)
Theorem requests_keep_the_constraints (reqs : list (session * stmt_env * request))
    (d : db) :
  consistent d -> consistent (fst (run reqs d)).
Proof.
  revert d. induction reqs as [|[[s e] r] rest IH]; intros d Hc; cbn [run].
  - exact Hc.
  - destruct (exec s e r d) as [[d' n]|err] eqn:Hrun; [|apply IH; exact Hc].
    specialize (IH d' (exec_consistent _ _ _ _ _ _ Hc Hrun)).
    destruct (run rest d') as [df j]. exact IH.
Qed.

(** ** Users: toggling, deleting, editing *)

Section ByIdOthers.

Context {A : Type} (key : A -> string).

Lemma find_replace_other id id' new (l : list A) :
  key new = id -> id' <> id ->
  find (fun y => String.eqb (key y) id')
       (map (fun y => if String.eqb (key y) id then new else y) l)
  = find (fun y => String.eqb (key y) id') l.
Proof.
  intros Hnew Hne. induction l as [|y l IH]; cbn [map find]; [reflexivity|].
  destruct (String.eqb_spec (key y) id) as [Hy|Hy].
  - rewrite Hnew, Hy.
    destruct (String.eqb_spec id id') as [Heq|_]; [congruence|exact IH].
  - rewrite IH. reflexivity.
Qed.

Lemma find_remove_other id id' (l : list A) :
  id' <> id ->
  find (fun y => String.eqb (key y) id')
       (List.filter (fun y => negb (String.eqb (key y) id)) l)
  = find (fun y => String.eqb (key y) id') l.
Proof.
  intros Hne. induction l as [|y l IH]; cbn [List.filter find]; [reflexivity|].
  destruct (String.eqb_spec (key y) id) as [Hy|Hy]; cbn [negb find].
  - rewrite Hy. destruct (String.eqb_spec id id') as [Heq|_]; [congruence|exact IH].
  - rewrite IH. reflexivity.
Qed.

End ByIdOthers.



(** X6. An identity that is the actor of an audit record cannot be deleted:
    [audit_logs.user_id] references it, and the delete leaves the store as
    it was. *)
Theorem actor_of_an_audit_record_is_not_deleted (s : session) (e : stmt_env)
    (confirmed : bool) (userId : uuid) (a : audit_log) (d : db) :
  In a (audit_logs d) -> al_user_id a = Some userId ->
  fst (handleDeleteUser s e confirmed userId d) = d.
Proof.
  intros Ha Hactor. unfold handleDeleteUser, delete_admin_user.
  destruct confirmed; cbn [negb]; [|reflexivity].
  destruct (row_security s t_admin_users DELETE); cbn [rbind fst]; [|reflexivity].
  destruct (negb (rls_permits _ _ _ _)); [reflexivity|].
  destruct (find_admin_user userId (admin_users d)) as [old|]; [|reflexivity].
  destruct (fire_audit_trigger _ _ _ _ _) as [w|err] eqn:Hfire; cbn [rbind];
    [|reflexivity].
  apply fire_audit_trigger_Ok in Hfire. subst w.
  assert (Href : references_admin_user userId
            (with_audit_logs
               (audit_logs
                  (with_admin_user_permissions
                     (List.filter (fun g => negb (String.eqb (aup_user_id g) userId))
                                  (admin_user_permissions d))
                     (with_admin_users (remove_admin_user userId (admin_users d)) d))
                ++ [audit_row e
                      (fst (log_admin_action (auth_uid s) "admin_users"
                              (on_delete old)))])
               (with_admin_user_permissions
                  (List.filter (fun g => negb (String.eqb (aup_user_id g) userId))
                               (admin_user_permissions d))
                  (with_admin_users (remove_admin_user userId (admin_users d)) d)))
          = true).
  { unfold references_admin_user. simpl_db.
    apply orb_true_intro. right. apply existsb_exists. exists a. split.
    - apply in_or_app. left. exact Ha.
    - rewrite Hactor. cbn. apply String.eqb_refl. }
  rewrite Href. reflexivity.
Qed.

(** X7. When a deletion goes through, the user is gone and so are all its
    grants (the cascade); every other user, every grant of another user and
    every setting is as before, and the toast reports the deletion. *)
Theorem deleting_a_user_cascades_to_its_grants (s : session) (e : stmt_env)
    (userId : uuid) (d d' : db) (t : option toast_t) :
  handleDeleteUser s e true userId d = (d', t) ->
  d' <> d ->
  t = Some (toast_success "User deleted successfully")
  /\ find_admin_user userId (admin_users d') = None
  /\ permissions_of userId d' = []
  /\ (forall u, u <> userId ->
        find_admin_user u (admin_users d') = find_admin_user u (admin_users d)
        /\ permissions_of u d' = permissions_of u d)
  /\ system_settings d' = system_settings d.
Proof.
  unfold handleDeleteUser, delete_admin_user. cbn [negb]. intros Hrun Hchanged.
  destruct (row_security s t_admin_users DELETE); cbn [rbind] in Hrun;
    [|injection Hrun as <- _; congruence].
  destruct (negb (rls_permits _ _ _ _)); [injection Hrun as <- _; congruence|].
  destruct (find_admin_user userId (admin_users d)) as [old|];
    [|injection Hrun as <- _; congruence].
  destruct (fire_audit_trigger _ _ _ _ _) as [w|err] eqn:Hfire; cbn [rbind] in Hrun;
    [|injection Hrun as <- _; congruence].
  destruct (guard _ _); cbn [rbind] in Hrun; [|injection Hrun as <- _; congruence].
  injection Hrun as <- <-. apply fire_audit_trigger_Ok in Hfire. subst w.
  split; [reflexivity|]. split; [|split; [|split]].
  - simpl_db. apply (find_remove au_id).
  - unfold permissions_of. simpl_db. rewrite filter_filter_neg_same. reflexivity.
  - intros u Hne. split.
    + simpl_db. apply (find_remove_other au_id). exact Hne.
    + unfold permissions_of. simpl_db.
      rewrite filter_filter_neg_other by exact Hne. reflexivity.
  - reflexivity.
Qed.

(** X8. A request that finds no row to change is not an error: for a
    session that bypasses row security and a user that does not exist, and
    for a session of a role that no policy names, the switch, the delete
    button and the edit form all report success although nothing was
    changed. *)
Theorem missing_user_is_reported_as_success (s : session) (e : stmt_env)
    (user : admin_user) (currentStatus : bool) (formData : formData_t) (d : db) :
  (rolbypassrls s = true
   /\ find_admin_user (au_id user) (admin_users d) = None)
  \/ (rolbypassrls s = false /\ rolname s <> "authenticated") ->
  Text.truthy (fd_username formData) = true ->
  Text.truthy (fd_email formData) = true ->
  handleToggleStatus s e (au_id user) currentStatus d
    = (d, toast_success (if negb currentStatus then "User activated successfully"
                         else "User deactivated successfully"))
  /\ handleDeleteUser s e true (au_id user) d
     = (d, Some (toast_success "User deleted successfully"))
  /\ handleSubmit s e formData (Some user) d
     = (d, toast_success "User updated successfully").
Proof.
  intros Hmissing Hname Hemail.
  assert (Hrec : forall c, rls_recursion s t_admin_users c = false).
  { intros c. destruct Hmissing as [[Hby _]|[_ Hrole]].
    - apply rls_recursion_bypass. exact Hby.
    - apply rls_recursion_other_role. exact Hrole. }
  unfold handleToggleStatus, handleDeleteUser, handleSubmit,
    update_admin_user, delete_admin_user, row_security.
  rewrite Hname, Hemail, !Hrec,
    !rls_permits_without_recursion by apply Hrec.
  cbn [negb orb andb guard rbind].
  destruct Hmissing as [[-> ->]|[-> _]]; repeat split; reflexivity.
Qed.

Lemma update_admin_user_changes s e id p d d' n :
  update_admin_user s e id p d = Ok (d', n) -> d' <> d ->
  exists old,
    find_admin_user id (admin_users d) = Some old
    /\ find_admin_user id (admin_users d')
       = Some (update_updated_at_column_admin_user (env_now e) (apply_patch p old))
    /\ (forall u, u <> id ->
          find_admin_user u (admin_users d') = find_admin_user u (admin_users d))
    /\ List.length (admin_users d') = List.length (admin_users d)
    /\ admin_user_permissions d' = admin_user_permissions d
    /\ system_settings d' = system_settings d.
Proof.
  unfold update_admin_user. intros Hrun Hchanged. bind_inv Hrun.
  destruct (negb (rls_permits s t_admin_users UPDATE (admin_users d)));
    [injection Hrun as <- _; congruence|].
  destruct (find_admin_user id (admin_users d)) as [old|] eqn:Hold;
    [|injection Hrun as <- _; congruence].
  bind_inv Hrun. injection Hrun as <- _.
  apply fire_audit_trigger_Ok in Hstep. subst a.
  pose proof (find_key au_id _ _ _ Hold) as Hid.
  exists old. split; [reflexivity|]. simpl_db.
  set (new := update_updated_at_column_admin_user (env_now e) (apply_patch p old)).
  assert (Hnew : au_id new = id) by exact Hid.
  unfold find_admin_user, replace_admin_user. rewrite Hnew.
  split; [apply (find_replace au_id) with (old := old); assumption|].
  split; [intros u Hne; apply (find_replace_other au_id); assumption|].
  split; [apply length_map|]. split; reflexivity.
Qed.

(** X9. The status switch writes the negation of the status the page
    showed, not of the status stored: when it changes the store, the row
    has [is_active = !currentStatus] and a new [updated_at], every other
    column of the row is as before, and so are all other users, the grants
    and the settings. *)
Theorem toggle_writes_the_negation_of_the_shown_status (s : session) (e : stmt_env)
    (userId : uuid) (currentStatus : bool) (d d' : db) (t : toast_t) :
  handleToggleStatus s e userId currentStatus d = (d', t) ->
  d' <> d ->
  exists old new,
    find_admin_user userId (admin_users d) = Some old
    /\ find_admin_user userId (admin_users d') = Some new
    /\ au_is_active new = negb currentStatus
    /\ au_updated_at new = env_now e
    /\ (au_id new, au_username new, au_email new, au_password_hash new, au_role new,
        au_last_login new, au_created_at new)
       = (au_id old, au_username old, au_email old, au_password_hash old, au_role old,
          au_last_login old, au_created_at old)
    /\ (forall u, u <> userId ->
          find_admin_user u (admin_users d') = find_admin_user u (admin_users d))
    /\ admin_user_permissions d' = admin_user_permissions d
    /\ system_settings d' = system_settings d.
Proof.
  unfold handleToggleStatus. intros Hrun Hchanged.
  destruct (update_admin_user _ _ _ _ _) as [[w n]|err] eqn:Hupd;
    [|injection Hrun as <- _; congruence].
  injection Hrun as <- _.
  apply update_admin_user_changes in Hupd
    as (old & Hold & Hnew & Hothers & _ & Hgrants & Hsettings); [|exact Hchanged].
  exists old. eexists. split; [exact Hold|]. split; [exact Hnew|].
  repeat split; assumption.
Qed.

(** X10. Editing a user with the password field left empty keeps the stored
    [password_hash]; the form never touches [is_active], [last_login] or
    [created_at], and writes its user name, e-mail address and role. *)
Theorem edit_without_password_keeps_the_hash (s : session) (e : stmt_env)
    (formData : formData_t) (user : admin_user) (d d' : db) (t : toast_t) :
  handleSubmit s e formData (Some user) d = (d', t) ->
  d' <> d ->
  fd_password formData = "" ->
  exists old new,
    find_admin_user (au_id user) (admin_users d) = Some old
    /\ find_admin_user (au_id user) (admin_users d') = Some new
    /\ au_password_hash new = au_password_hash old
    /\ (au_is_active new, au_last_login new, au_created_at new)
       = (au_is_active old, au_last_login old, au_created_at old)
    /\ (au_username new, au_email new, au_role new)
       = (fd_username formData, Some (fd_email formData), fd_role formData).
Proof.
  unfold handleSubmit. intros Hrun Hchanged Hpw.
  destruct (_ || _); [injection Hrun as <- _; congruence|].
  destruct (update_admin_user _ _ _ _ _) as [[w n]|err] eqn:Hupd;
    [|injection Hrun as <- _; congruence].
  injection Hrun as <- _.
  apply update_admin_user_changes in Hupd
    as (old & Hold & Hnew & _); [|exact Hchanged].
  exists old. eexists. split; [exact Hold|]. split; [exact Hnew|].
  rewrite Hpw. repeat split; reflexivity.
Qed.

(** X11. Opening the edit form on a stored user and submitting it unchanged
    rewrites the row with a new [updated_at] and nothing else. A user
    without an e-mail address cannot be saved from the form at all: the
    form shows the missing address as the empty string, which the check of
    the required fields refuses. *)
Theorem edit_form_round_trip (s : session) (e : stmt_env) (user : admin_user) (d : db) :
  find_admin_user (au_id user) (admin_users d) = Some user ->
  (Text.truthy (or_else (au_email user) "") = false ->
   handleSubmit s e (fst (handleEdit user)) (snd (handleEdit user)) d
   = (d, toast_error "Please fill in all required fields"))
  /\ (forall d' t,
        handleSubmit s e (fst (handleEdit user)) (snd (handleEdit user)) d = (d', t) ->
        d' <> d ->
        find_admin_user (au_id user) (admin_users d')
        = Some (update_updated_at_column_admin_user (env_now e) user)).
Proof.
  intros Hstored. unfold handleEdit. cbn [fst snd]. split.
  - intros Hmail. unfold handleSubmit. cbn [fd_email].
    rewrite Hmail. cbn [negb]. rewrite orb_true_r. reflexivity.
  - unfold handleSubmit. cbn [fd_username fd_email fd_password fd_role].
    intros d' t Hrun Hchanged.
    destruct (_ || _) eqn:Hcheck; [injection Hrun as <- _; congruence|].
    apply orb_false_elim in Hcheck as [Hcheck _].
    apply orb_false_elim in Hcheck as [_ Hmail].
    apply negb_false_iff in Hmail.
    destruct (update_admin_user _ _ _ _ _) as [[w n]|err] eqn:Hupd;
      [|injection Hrun as <- _; congruence].
    injection Hrun as <- _.
    apply update_admin_user_changes in Hupd
      as (old & Hold & Hnew & _); [|exact Hchanged].
    rewrite Hstored in Hold. injection Hold as <-. rewrite Hnew. f_equal.
    destruct user as [uid uname [mail|] hash role active login created updated];
      cbn in Hmail |- *; [|discriminate].
    unfold update_updated_at_column_admin_user, apply_patch. cbn.
    destruct (Text.truthy mail); [reflexivity|discriminate].
Qed.

(** ** Users: the permission dialog *)

Lemma In_existsb_eqb x (l : list string) :
  existsb (String.eqb x) l = true <-> In x l.
Proof.
  rewrite existsb_exists. split.
  - intros (y & Hin & Heq). apply String.eqb_eq in Heq. subst y. exact Hin.
  - intros Hin. exists x. split; [exact Hin|apply String.eqb_refl].
Qed.

(** X12. A click on a permission box flips that permission and no other:
    afterwards it is selected exactly when it was not before, every other
    permission is selected exactly when it was, and a selection without
    repeats stays without repeats. *)
Theorem click_flips_one_permission (permission_id : uuid) (sel : list uuid) :
  List.NoDup sel ->
  List.NoDup (clickPermission permission_id sel)
  /\ (In permission_id (clickPermission permission_id sel) <-> ~ In permission_id sel)
  /\ (forall q, q <> permission_id ->
        In q (clickPermission permission_id sel) <-> In q sel).
Proof.
  intros Hnodup. unfold clickPermission, onPermissionChange.
  destruct (existsb (String.eqb permission_id) sel) eqn:Hsel; cbn [negb].
  - apply In_existsb_eqb in Hsel. split; [apply List.NoDup_filter; exact Hnodup|].
    split.
    + rewrite filter_In, String.eqb_refl. cbn [negb]. split.
      * intros [_ Hfalse]. discriminate.
      * intros Hnot. contradiction.
    + intros q Hne. rewrite filter_In. split; [intros [Hin _]; exact Hin|].
      intros Hin. split; [exact Hin|].
      destruct (String.eqb_spec q permission_id); [contradiction|reflexivity].
  - assert (Hnot : ~ In permission_id sel).
    { intros Hin. apply In_existsb_eqb in Hin. congruence. }
    split; [apply NoDup_snoc; assumption|]. split.
    + split; [intros _; exact Hnot|]. intros _. apply in_or_app. right. left. reflexivity.
    + intros q Hne. rewrite in_app_iff. split.
      * intros [Hin|[Heq|[]]]; [exact Hin|congruence].
      * intros Hin. left. exact Hin.
Qed.

Lemma openPermissionDialog_fetched s user d :
  rolbypassrls s = true ->
  openPermissionDialog user (fetchUserPermissions s d) = permissions_of (au_id user) d.
Proof.
  intros Hby. unfold openPermissionDialog, fetchUserPermissions,
    select_user_permissions, permissions_of.
  rewrite !row_security_bypass, !rls_permits_bypass by exact Hby.
  cbn [rbind rows_of].
  induction (admin_user_permissions d) as [|g l IH]; [reflexivity|].
  cbn [map List.filter up_row].
  destruct (String.eqb (aup_user_id g) (au_id user)); cbn [map up_row];
    rewrite IH; reflexivity.
Qed.

Lemma NoDup_permissions_of u (tbl : list admin_user_permission) :
  List.NoDup (map grant_pair tbl) ->
  List.NoDup (map aup_permission_id
                (List.filter (fun up => String.eqb (aup_user_id up) u) tbl)).
Proof.
  induction tbl as [|g l IH]; cbn [map List.filter]; [constructor|].
  intros Hnodup. apply List.NoDup_cons_iff in Hnodup as [Hnew Hrest].
  destruct (String.eqb_spec (aup_user_id g) u) as [Hg|Hg]; [|auto].
  cbn [map]. constructor; [|auto].
  intros Hin. apply in_map_iff in Hin as (g' & Hperm & Hin').
  apply filter_In in Hin' as [Hin' Hu]. apply String.eqb_eq in Hu.
  apply Hnew. apply in_map_iff. exists g'. split; [|exact Hin'].
  unfold grant_pair. congruence.
Qed.

(** X13. Opening the permission dialog of a user and saving it untouched,
    from a session that bypasses row security, in a store that satisfies
    its constraints and with fresh row ids, is a successful save after which
    every user holds the permissions it held. The grants of the user are
    new rows all the same: who granted them is forgotten, and they are
    dated from the save. *)
Theorem saving_an_untouched_dialog_keeps_the_permissions (s : session) (e : stmt_env)
    (user : admin_user) (d : db) :
  consistent d ->
  rolbypassrls s = true ->
  (forall k g, In g (admin_user_permissions d) -> aup_id g <> env_row_id e k) ->
  (forall j k, (j < k < List.length (admin_user_permissions d))%nat ->
     env_row_id e j <> env_row_id e k) ->
  let run := saveUserPermissions s e (Some user)
               (openPermissionDialog user (fetchUserPermissions s d)) d in
  snd run = Some (toast_success "Permissions updated successfully")
  /\ (forall u, permissions_of u (List.last (fst run) d) = permissions_of u d)
  /\ (forall g, In g (admin_user_permissions (List.last (fst run) d)) ->
        aup_user_id g = au_id user ->
        aup_granted_by g = None /\ aup_created_at g = env_now e).
Proof.
  intros [Hkeys Hrefs] Hby Hfresh Hinj. cbv zeta.
  rewrite openPermissionDialog_fetched by exact Hby.
  unfold saveUserPermissions.
  rewrite delete_user_permissions_bypass by exact Hby.
  set (tbl1 := List.filter _ (admin_user_permissions d)).
  assert (Hnone : List.filter (fun up => String.eqb (aup_user_id up) (au_id user)) tbl1
                  = []) by apply filter_filter_neg_same.
  assert (Hothers : forall u, u <> au_id user ->
            List.filter (fun up => String.eqb (aup_user_id up) u) tbl1
            = List.filter (fun up => String.eqb (aup_user_id up) u)
                          (admin_user_permissions d))
    by (intros u Hne; apply filter_filter_neg_other; exact Hne).
  assert (Hsub : forall g, In g tbl1 ->
            In g (admin_user_permissions d) /\ aup_user_id g <> au_id user).
  { intros g Hg. apply filter_In in Hg as [Hin Hne]. split; [exact Hin|].
    intros Heq. rewrite Heq, String.eqb_refl in Hne. discriminate. }
  destruct (permissions_of (au_id user) d) as [|q0 sel0] eqn:Hheld.
  - cbn [List.length Nat.ltb Nat.leb fst snd List.last]. split; [reflexivity|]. split.
    + intros u. destruct (String.eqb_spec u (au_id user)) as [->|Hne].
      * rewrite Hheld. unfold permissions_of. simpl_db. rewrite Hnone. reflexivity.
      * unfold permissions_of. simpl_db. rewrite Hothers by exact Hne. reflexivity.
    + simpl_db. intros g Hg Hu. apply Hsub in Hg as [_ Hne]. contradiction.
  - set (sel := q0 :: sel0) in *.
    replace (0 <? List.length sel)%nat with true by reflexivity.
    fold (grants_for (au_id user) sel).
    assert (Hgrant : forall q, In q sel -> exists g,
              In g (admin_user_permissions d)
              /\ aup_user_id g = au_id user /\ aup_permission_id g = q).
    { intros q Hq. rewrite <- Hheld in Hq. unfold permissions_of in Hq.
      apply in_map_iff in Hq as (g & Hperm & Hg).
      apply filter_In in Hg as [Hin Hu]. apply String.eqb_eq in Hu. eauto. }
    assert (Hlen : (List.length sel <= List.length (admin_user_permissions d))%nat).
    { rewrite <- Hheld. unfold permissions_of. rewrite length_map.
      apply List.filter_length_le. }
    unfold insert_user_permissions.
    rewrite row_security_bypass, rls_permits_bypass by exact Hby. simpl_db.
    cbn [guard rbind].
    rewrite (insert_grant_rows_succeeds e (admin_users d) (admin_permissions d)
               (au_id user) sel 0%nat tbl1).
    + cbn [rbind fst snd List.last]. split; [reflexivity|]. split.
      * intros u. destruct (String.eqb_spec u (au_id user)) as [->|Hne].
        -- rewrite Hheld. apply permissions_after_insert. exact Hnone.
        -- rewrite other_permissions_after_insert by exact Hne.
           rewrite Hothers by exact Hne. reflexivity.
      * simpl_db. intros g Hg Hu. apply in_app_or in Hg as [Hg|Hg].
        -- apply Hsub in Hg as [_ Hne]. contradiction.
        -- apply grant_rows_spec in Hg as (_ & Hnobody & Hat & _).
           split; assumption.
    + destruct (Hgrant q0) as (g & Hin & Hu & _); [left; reflexivity|].
      apply (existsb_key_In au_id). rewrite <- Hu.
      apply (fk_grants_user d Hrefs). exact Hin.
    + intros q Hq. destruct (Hgrant q Hq) as (g & Hin & _ & Hperm).
      apply (existsb_key_In ap_id). rewrite <- Hperm.
      apply (fk_grants_permission d Hrefs). exact Hin.
    + rewrite <- Hheld. apply NoDup_permissions_of. apply (uk_grants_pair d Hkeys).
    + intros k g _ Hg. apply Hfresh. apply Hsub in Hg as [Hin _]. exact Hin.
    + intros j k Hjk Hk. apply Hinj. lia.
    + intros g q Hg _ [Hu _]. apply Hsub in Hg as [_ Hne]. contradiction.
Qed.

Lemma groupedPermissions_snoc permissions perm :
  groupedPermissions (permissions ++ [perm])
  = match groupedPermissions permissions with
    | None => None
    | Some groups =>
        match groups !! ap_module perm with
        | Some group => Some (<[ap_module perm := group ++ [perm]]> groups)
        | None =>
            if Js.inherited (ap_module perm) then None
            else Some (<[ap_module perm := [perm]]> groups)
        end
    end.
Proof. unfold groupedPermissions. rewrite fold_left_app. reflexivity. Qed.

Lemma filter_nonempty {A} (p : A -> bool) (l : list A) :
  List.filter p l <> [] -> exists x, In x l /\ p x = true.
Proof.
  destruct (List.filter p l) as [|x rest] eqn:Hf; [congruence|]. intros _.
  exists x. apply filter_In. rewrite Hf. left. reflexivity.
Qed.

(** X14. The permission dialog shows, under each module, exactly the
    permissions of that module in the order they were fetched, and a module
    without permissions has no group, as long as no module is named like a
    property of [Object.prototype]; when one is, the reduce throws and
    there are no groups at all. *)
Theorem groupedPermissions_files_by_module (permissions : list admin_permission) :
  match groupedPermissions permissions with
  | Some groups =>
      (forall perm, In perm permissions -> Js.inherited (ap_module perm) = false)
      /\ (forall module,
            groups !! module
            = match List.filter (fun perm => String.eqb (ap_module perm) module)
                                permissions with
              | [] => None
              | group => Some group
              end)
  | None =>
      exists perm, In perm permissions /\ Js.inherited (ap_module perm) = true
  end.
Proof.
  induction permissions as [|perm permissions IH] using rev_ind.
  - cbn. split; [intros perm []|reflexivity].
  - rewrite groupedPermissions_snoc.
    destruct (groupedPermissions permissions) as [groups|].
    + destruct IH as [Hplain Hgroups].
      assert (Hfiled : forall module,
        <[ap_module perm :=
            match groups !! ap_module perm with
            | Some group => group ++ [perm]
            | None => [perm]
            end]> groups !! module
        = match List.filter (fun perm => String.eqb (ap_module perm) module)
                            (permissions ++ [perm]) with
          | [] => None
          | group => Some group
          end).
      { intros module. rewrite List.filter_app. cbn [List.filter].
        destruct (String.eqb_spec (ap_module perm) module) as [Hm|Hm].
        - subst module. rewrite lookup_insert_eq, Hgroups.
          destruct (List.filter _ permissions); reflexivity.
        - rewrite lookup_insert_ne by exact Hm. rewrite app_nil_r. apply Hgroups. }
      destruct (groups !! ap_module perm) as [group|] eqn:Hown.
      * split; [|exact Hfiled].
        intros perm' Hin. apply in_app_or in Hin as [Hin|[<-|[]]];
          [apply Hplain; exact Hin|].
        rewrite Hgroups in Hown.
        destruct (filter_nonempty
                    (fun perm' => String.eqb (ap_module perm') (ap_module perm))
                    permissions) as (other & Hother & Hsame).
        { intros Hempty. rewrite Hempty in Hown. discriminate. }
        apply String.eqb_eq in Hsame. rewrite <- Hsame. apply Hplain. exact Hother.
      * destruct (Js.inherited (ap_module perm)) eqn:Hin.
        -- exists perm. split; [apply in_or_app; right; left; reflexivity|exact Hin].
        -- split; [|exact Hfiled].
           intros perm' Hin'. apply in_app_or in Hin' as [Hin'|[<-|[]]];
             [apply Hplain; exact Hin'|exact Hin].
    + destruct IH as (other & Hother & Hinherited).
      exists other. split; [apply in_or_app; left; exact Hother|exact Hinherited].
Qed.

(** ** Settings: what a save keeps *)




Lemma fetch_fold_snoc (l : list system_setting) x :
  fold_left (fun (acc : gmap string json) setting =>
               Js.assign (ss_setting_key setting) (ss_setting_value setting) acc)
            (l ++ [x]) ∅
  = Js.assign (ss_setting_key x) (ss_setting_value x)
      (fold_left (fun (acc : gmap string json) setting =>
                    Js.assign (ss_setting_key setting) (ss_setting_value setting) acc)
                 l ∅).
Proof. rewrite fold_left_app. reflexivity. Qed.

Lemma find_setting_snoc_fresh k x tbl :
  ~ In (ss_setting_key x) (map ss_setting_key tbl) ->
  find_setting k (tbl ++ [x])
  = if String.eqb (ss_setting_key x) k then Some x else find_setting k tbl.
Proof.
  intros Hfresh. unfold find_setting. induction tbl as [|y tbl IH]; cbn [app find].
  - destruct (String.eqb (ss_setting_key x) k); reflexivity.
  - cbn [map] in Hfresh.
    destruct (String.eqb_spec (ss_setting_key y) k) as [Hy|Hy].
    + destruct (String.eqb_spec (ss_setting_key x) k) as [Hx|Hx]; [|reflexivity].
      exfalso. apply Hfresh. left. congruence.
    + apply IH. intros Hin. apply Hfresh. right. exact Hin.
Qed.

(** Where keys are unique, the object [fetchSettings] builds for a session
    that bypasses row security reads as the table does, but for the key
    [__proto__], which it never holds. *)
Lemma fetchSettings_lookup s d k :
  List.NoDup (map ss_setting_key (system_settings d)) ->
  rolbypassrls s = true ->
  fetchSettings s d !! k
  = if String.eqb k "__proto__" then None else get_setting k d.
Proof.
  intros Hnodup Hby. unfold fetchSettings, get_setting.
  rewrite select_system_settings_bypass by exact Hby.
  destruct (String.eqb_spec k "__proto__") as [->|Hk];
    [rewrite fetch_fold_proto; apply lookup_empty|].
  induction (system_settings d) as [|x tbl IH] using rev_ind; [reflexivity|].
  rewrite map_app in Hnodup. cbn [map] in Hnodup.
  apply List.NoDup_remove in Hnodup as [Hnodup Hfresh]. rewrite app_nil_r in *.
  rewrite fetch_fold_snoc, find_setting_snoc_fresh by exact Hfresh.
  unfold Js.assign.
  destruct (String.eqb_spec (ss_setting_key x) k) as [Hx|Hx].
  - destruct (String.eqb_spec (ss_setting_key x) "__proto__"); [congruence|].
    rewrite Hx. apply lookup_insert_eq.
  - destruct (String.eqb (ss_setting_key x) "__proto__");
      [|rewrite lookup_insert_ne by exact Hx]; apply IH; exact Hnodup.
Qed.






(** ** The audit log page *)

Lemma filter_when {A} (b : bool) (p : A -> bool) (l : list A) :
  (if b then List.filter p l else l) = List.filter (fun x => negb b || p x) l.
Proof.
  destruct b; cbn [negb orb]; [reflexivity|].
  induction l as [|x l IH]; cbn; [reflexivity|]. rewrite <- IH. reflexivity.
Qed.

Lemma filter_bound {A B} (o : option B) (p : B -> A -> bool) (l : list A) :
  match o with Some v => List.filter (p v) l | None => l end
  = List.filter (fun x => match o with Some v => p v x | None => true end) l.
Proof.
  destruct o; [reflexivity|].
  induction l as [|x l IH]; cbn; [reflexivity|]. rewrite <- IH. reflexivity.
Qed.

Lemma filter_twice {A} (p q : A -> bool) (l : list A) :
  List.filter q (List.filter p l) = List.filter (fun x => p x && q x) l.
Proof.
  induction l as [|x l IH]; cbn; [reflexivity|].
  destruct (p x); cbn; [|exact IH]. destruct (q x); rewrite IH; reflexivity.
Qed.

Lemma applyFilters_keeps filters logs :
  applyFilters filters logs = List.filter (keeps filters) logs.
Proof.
  unfold applyFilters. cbv zeta.
  rewrite (filter_when (Text.truthy (f_action filters))).
  rewrite (filter_when (Text.truthy (f_table filters))).
  rewrite (filter_when (Text.truthy (f_user filters))).
  rewrite (filter_bound (f_dateFrom filters)
             (fun dateFrom log => new_Date (al_created_at (log_row log)) >=? dateFrom)).
  rewrite (filter_bound (f_dateTo filters)
             (fun dateTo log => new_Date (al_created_at (log_row log)) <=? dateTo)).
  rewrite (filter_when (Text.truthy (f_search filters))).
  rewrite !filter_twice. apply List.filter_ext. intros log.
  unfold keeps. rewrite !andb_assoc. reflexivity.
Qed.

(** X17. The filters of the audit log page judge each fetched log on its
    own, against all criteria at once: the result is the sub-list of the
    logs that pass, so filtering a second time changes nothing, the cleared
    filters show every log, and the logs of two pages are filtered page by
    page. *)
Theorem applyFilters_judges_each_log_alone (filters : filters_t)
    (logs more : list AuditLog) :
  applyFilters filters logs = List.filter (keeps filters) logs
  /\ applyFilters filters (applyFilters filters logs) = applyFilters filters logs
  /\ applyFilters clearFilters logs = logs
  /\ applyFilters filters (logs ++ more)
     = applyFilters filters logs ++ applyFilters filters more.
Proof.
  rewrite !applyFilters_keeps. split; [reflexivity|]. split; [|split].
  - rewrite filter_twice. apply List.filter_ext. intros log.
    destruct (keeps filters log); reflexivity.
  - induction logs as [|log logs IH]; [reflexivity|].
    cbn [List.filter]. change (keeps clearFilters log) with true.
    rewrite IH. reflexivity.
  - apply List.filter_app.
Qed.

Lemma lower_ascii_idem c : Text.lower_ascii (Text.lower_ascii c) = Text.lower_ascii c.
Proof.
  destruct c as [[] [] [] [] [] [] [] []]; vm_compute; reflexivity.
Qed.

Lemma toLowerCase_idem s : Text.toLowerCase (Text.toLowerCase s) = Text.toLowerCase s.
Proof.
  induction s as [|c s IH]; cbn [Text.toLowerCase]; [reflexivity|].
  rewrite lower_ascii_idem, IH. reflexivity.
Qed.

Lemma truthy_toLowerCase s : Text.truthy (Text.toLowerCase s) = Text.truthy s.
Proof. destruct s; reflexivity. Qed.

(** X18. The user filter and the search box ignore the case of what was
    typed: the term is lowered before it is compared, so typing it in lower
    case to begin with shows the same logs. *)
Theorem text_filters_ignore_the_case_of_the_term (filters : filters_t)
    (logs : list AuditLog) :
  applyFilters
    {| f_action := f_action filters; f_table := f_table filters;
       f_user := Text.toLowerCase (f_user filters);
       f_dateFrom := f_dateFrom filters; f_dateTo := f_dateTo filters;
       f_search := Text.toLowerCase (f_search filters) |} logs
  = applyFilters filters logs.
Proof.
  rewrite !applyFilters_keeps. apply List.filter_ext. intros log.
  unfold keeps. cbn [f_action f_table f_user f_dateFrom f_dateTo f_search].
  rewrite !truthy_toLowerCase, !toLowerCase_idem. reflexivity.
Qed.

(** X19. With a user filter set, a log is shown only to a session that
    bypasses row security, and only if it carries the name of a stored user
    that matches: records without an acting identity, or of no stored user,
    are never shown, whatever the term. *)
Theorem user_filter_shows_only_logs_of_known_users (s : session) (d : db)
    (filters : filters_t) (log : AuditLog) :
  Text.truthy (f_user filters) = true ->
  In log (applyFilters filters (fetchAuditLogs s d)) ->
  rolbypassrls s = true
  /\ exists u au,
       al_user_id (log_row log) = Some u
       /\ find_admin_user u (admin_users d) = Some au
       /\ Text.includes (Text.toLowerCase (au_username au))
                        (Text.toLowerCase (f_user filters)) = true.
Proof.
  intros Huser Hin. rewrite applyFilters_keeps in Hin.
  apply filter_In in Hin as [Hin Hkeeps].
  unfold keeps in Hkeeps. rewrite Huser in Hkeeps. cbn [negb orb] in Hkeeps.
  do 3 (apply andb_prop in Hkeeps as [Hkeeps _]).
  apply andb_prop in Hkeeps as [_ Hname].
  unfold fetchAuditLogs in Hin.
  destruct (rolbypassrls s) eqn:Hby;
    [|rewrite select_audit_logs_no_bypass in Hin by exact Hby; destruct Hin].
  rewrite select_audit_logs_bypass in Hin by exact Hby.
  split; [reflexivity|].
  apply in_map_iff in Hin as (a & <- & _).
  unfold username_includes in Hname. unfold embed_admin_users in Hname |- *.
  cbn [log_admin_users log_row] in Hname |- *.
  rewrite rls_permits_bypass in Hname by exact Hby.
  destruct (al_user_id a) as [u|]; [|discriminate].
  destruct (find_admin_user u (admin_users d)) as [au|] eqn:Hau; [|discriminate].
  exists u, au. split; [reflexivity|]. split; [exact Hau|exact Hname].
Qed.

Lemma distinct_snoc xs x :
  distinct (xs ++ [x])
  = if existsb (String.eqb x) (distinct xs) then distinct xs else distinct xs ++ [x].
Proof. unfold distinct. rewrite fold_left_app. reflexivity. Qed.

Lemma distinct_spec xs :
  List.NoDup (distinct xs) /\ forall x, In x (distinct xs) <-> In x xs.
Proof.
  induction xs as [|y xs [IHn IHi]] using rev_ind.
  - split; [constructor|]. intros x. reflexivity.
  - rewrite distinct_snoc.
    destruct (existsb (String.eqb y) (distinct xs)) eqn:Hy.
    + apply In_existsb_eqb in Hy. split; [exact IHn|].
      intros x. rewrite in_app_iff, IHi. split; [auto|].
      intros [Hx|[<-|[]]]; [exact Hx|]. apply IHi. exact Hy.
    + assert (Hnot : ~ In y (distinct xs)).
      { intros Hin. apply In_existsb_eqb in Hin. congruence. }
      split; [apply NoDup_snoc; assumption|].
      intros x. rewrite !in_app_iff, IHi. reflexivity.
Qed.

(** X20. The action menu offers each action of the fetched logs once, and
    nothing else; and choosing an offered action never empties the list. *)
Theorem uniqueActions_offers_each_action_once (logs : list AuditLog) :
  List.NoDup (uniqueActions logs)
  /\ (forall action,
        In action (uniqueActions logs)
        <-> exists log, In log logs /\ al_action (log_row log) = action)
  /\ (forall action,
        In action (uniqueActions logs) -> applyFilters (by_action action) logs <> []).
Proof.
  unfold uniqueActions.
  destruct (distinct_spec (map (fun log => al_action (log_row log)) logs))
    as [Hnodup Hin].
  assert (Hoffered : forall action,
            In action (distinct (map (fun log => al_action (log_row log)) logs))
            <-> exists log, In log logs /\ al_action (log_row log) = action).
  { intros action. rewrite Hin, in_map_iff. split.
    - intros (log & Heq & Hlog). eauto.
    - intros (log & Hlog & Heq). eauto. }
  split; [exact Hnodup|]. split; [exact Hoffered|].
  intros action Hoff. apply Hoffered in Hoff as (log & Hlog & Haction).
  assert (Hshown : In log (applyFilters (by_action action) logs)).
  { rewrite applyFilters_keeps. apply filter_In. split; [exact Hlog|].
    unfold keeps, by_action.
    cbn [f_action f_table f_user f_dateFrom f_dateTo f_search].
    rewrite Haction, String.eqb_refl, orb_true_r. reflexivity. }
  intros Hempty. rewrite Hempty in Hshown. destruct Hshown.
Qed.

Lemma count_char_app c s1 s2 :
  count_char c (s1 ++ s2)%string = (count_char c s1 + count_char c s2)%nat.
Proof.
  induction s1 as [|c' s1 IH]; [reflexivity|].
  change (count_char c (String c' (s1 ++ s2))
          = (count_char c (String c' s1) + count_char c s2)%nat).
  cbn [count_char]. rewrite IH. lia.
Qed.

Lemma count_char_join c sep : forall l,
  count_char c (Text.join sep l)
  = (list_sum (map (count_char c) l) + (List.length l - 1) * count_char c sep)%nat.
Proof.
  induction l as [|x [|y l] IH]; [reflexivity|cbn; lia|].
  change (Text.join sep (x :: y :: l))
    with (x ++ sep ++ Text.join sep (y :: l))%string.
  rewrite !count_char_app, IH. unfold list_sum.
  cbn [map fold_right List.length Nat.sub Nat.mul]. rewrite Nat.sub_0_r. lia.
Qed.

(** X21. The export writes the fields as they are, without quoting: a line
    has five separating commas plus every comma of its fields, and the file
    has one line break per log plus every line break of the fields. So a
    name or record id that contains a comma shifts the columns of its
    line. *)
Theorem exportLogs_does_not_quote (filteredLogs : list AuditLog) :
  (forall log,
     count_char comma (csv_line log)
     = (5 + (count_char comma (toISOString (al_created_at (log_row log)))
             + count_char comma (or_else (log_admin_users log) "Unknown")
             + count_char comma (al_action (log_row log))
             + count_char comma (al_table_name (log_row log))
             + count_char comma (al_record_id (log_row log))
             + count_char comma (or_else (al_ip_address (log_row log)) "")))%nat)
  /\ count_char newline (exportLogs filteredLogs)
     = (List.length filteredLogs
        + list_sum (map (fun log => count_char newline (csv_line log)) filteredLogs))%nat.
Proof.
  split.
  - intros log. unfold csv_line. rewrite count_char_join. unfold list_sum.
    cbn [map fold_right List.length Nat.sub Nat.mul].
    change (count_char comma ",") with 1%nat. lia.
  - unfold exportLogs. rewrite count_char_join. unfold list_sum.
    cbn [map fold_right List.length Nat.sub Nat.mul].
    rewrite length_map, map_map, Nat.sub_0_r.
    change (count_char newline (String "010" "")) with 1%nat.
    change (count_char newline csv_header) with 0%nat. lia.
Qed.

Lemma exec_audit_badge s e r d d' n a :
  exec s e r d = Ok (d', n) -> In a (audit_logs d') ->
  In a (audit_logs d) \/ is_Some (fst (getActionBadge (al_action a))).
Proof.
  intros Hrun Hin. apply exec_outcome in Hrun. unfold statement_outcome in Hrun.
  destruct (mutation_of e r) as [[[t c] id]|].
  - destruct Hrun as [[_ ->]|(_ & Hrow & _ & a' & Hlogs & Hrec)]; [left; exact Hin|].
    rewrite Hlogs in Hin. apply in_app_or in Hin as [Hin|[<-|[]]]; [left; exact Hin|].
    right. unfold records_mutation in Hrec.
    destruct Hrec as (_ & _ & -> & _).
    destruct c; cbn in Hrow |- *; [destruct Hrow|eauto..].
  - destruct Hrun as (<- & _). left. exact Hin.
Qed.

(** X22. Every record the audit trigger writes is shown with one of the
    three coloured badges: whatever requests are made, the records they add
    to the log have the action INSERT, UPDATE or DELETE, never one that
    falls to the outline badge. *)
Theorem trigger_records_get_a_coloured_badge
    (reqs : list (session * stmt_env * request)) (d : db) (a : audit_log) :
  In a (audit_logs (fst (run reqs d))) ->
  In a (audit_logs d) \/ is_Some (fst (getActionBadge (al_action a))).
Proof.
  revert d. induction reqs as [|[[s e] r] rest IH]; intros d; cbn [run].
  - intros Hin. left. exact Hin.
  - destruct (exec s e r d) as [[d' n]|err] eqn:Hrun; [|apply IH].
    specialize (IH d'). destruct (run rest d') as [df j]. cbn [fst] in *.
    intros Hin. destruct (IH Hin) as [Hold|Hbadge]; [|right; exact Hbadge].
    eapply exec_audit_badge; eassumption.
Qed.

(** ** Settings: what a refresh shows after a save *)

(** X23. After a successful batch save, a refresh shows what was sent:
    under every key but [__proto__], the value the request carried for it,
    and the setting the store held before where the form has no entry; and
    nothing under [__proto__]. An input changed to a value shows that
    value, but an emptied number input, which the form holds as [NaN],
    shows as [null]. *)
Theorem refresh_after_save_shows_what_was_sent (s : session) (e : stmt_env)
    (client_clock : nat -> timestamptz) (form : gmap string form_value)
    (d d' : db) :
  consistent d ->
  handleSaveAll s e client_clock (sent <$> form) d
  = (d', toast_success "System settings saved successfully") ->
  (forall key,
     fetchSettings s d' !! key
     = if String.eqb key "__proto__" then None
       else match form !! key with
            | Some value => Some (sent value)
            | None => fetchSettings s d !! key
            end)
  /\ (forall key value before,
        form = handleInputChange key value before -> key <> "__proto__" ->
        fetchSettings s d' !! key
        = match value with Held v => Some v | NaN => Some JNull end).
Proof.
  intros [Hkeys Hrefs] Hrun.
  pose proof (uk_settings_key d Hkeys) as Hnodup.
  unfold handleSaveAll in Hrun.
  fold (updates_of client_clock (sent <$> form)) in Hrun.
  destruct (upsert_system_settings s e (updates_of client_clock (sent <$> form)) d)
    as [[w n]|err] eqn:Hupsert; [|discriminate].
  injection Hrun as ->.
  pose proof (upsert_system_settings_bypass _ _ _ _ _ Hupsert) as Hby.
  unfold upsert_system_settings in Hupsert.
  bind_inv Hupsert. injection Hupsert as <- _.
  pose proof (upsert_rows_ok (admin_users d) e _ _ _ _ _
                (conj (uk_settings_id d Hkeys)
                   (conj Hnodup (fk_settings_updated_by d Hrefs))) Hstep)
    as (_ & Hnodup' & _).
  apply upsert_rows_Ok in Hstep as (Hvals & Hothers & _).
  assert (Hshown : forall key,
            fetchSettings s (with_system_settings a d) !! key
            = if String.eqb key "__proto__" then None
              else match form !! key with
                   | Some value => Some (sent value)
                   | None => fetchSettings s d !! key
                   end).
  { intros key.
    rewrite fetchSettings_lookup by (simpl_db; assumption).
    destruct (String.eqb_spec key "__proto__") as [->|Hkey]; [reflexivity|].
    unfold get_setting at 1. simpl_db.
    destruct (form !! key) as [value|] eqn:Hk.
    - assert (Hsent : (sent <$> form) !! key = Some (sent value))
        by (rewrite lookup_fmap, Hk; reflexivity).
      destruct (in_updates_of client_clock _ key _ Hsent) as (u & Hu & <- & <-).
      apply (Hvals u Hu).
    - rewrite fetchSettings_lookup by assumption.
      destruct (String.eqb_spec key "__proto__"); [contradiction|].
      unfold get_setting. rewrite Hothers; [reflexivity|].
      intros u Hu Heq. apply updates_of_in in Hu.
      rewrite Heq, lookup_fmap, Hk in Hu. discriminate Hu. }
  split; [exact Hshown|].
  intros key value before -> Hkey. rewrite Hshown.
  destruct (String.eqb_spec key "__proto__"); [contradiction|].
  unfold handleInputChange. rewrite lookup_insert_eq.
  destruct value; reflexivity.
Qed.

(** ** The reports *)

Lemma tally_snoc keys k :
  tally (keys ++ [k])
  = Js.assign k
      match tally keys !! k with
      | Some (Count n) => Count (n + 1)
      | Some (Text t) =>
          if Text.truthy t then Text (t ++ "1")%string else Count 1
      | None =>
          if Js.inherited k then Text (inherited_text k ++ "1")%string
          else Count 1
      end (tally keys).
Proof. unfold tally. rewrite fold_left_app. reflexivity. Qed.

Lemma string_app_assoc (a b c : string) :
  ((a ++ b) ++ c = a ++ (b ++ c))%string.
Proof.
  induction a as [|x a IH]; [reflexivity|].
  change (String x ((a ++ b) ++ c) = String x (a ++ (b ++ c)))%string.
  rewrite IH. reflexivity.
Qed.

Lemma truthy_app_ones t n : Text.truthy (t ++ ones (S n))%string = true.
Proof.
  cbn [ones]. rewrite <- string_app_assoc.
  destruct (t ++ ones n)%string; reflexivity.
Qed.

(** X25. The counts of a report: a value of the column is counted as often
    as it occurs in the rows, and a value that does not occur has no entry
    (rather than a zero), unless the value names a property that every
    object inherits: such a value gets no number but a text, the inherited
    property's followed by a [1] for each occurrence, and the value
    [__proto__] gets no entry however often it occurs. *)
Theorem tally_counts_occurrences (keys : list string) (k : string) :
  tally keys !! k
  = match count_occ string_dec keys k with
    | O => None
    | S n =>
        if String.eqb k "__proto__" then None
        else if Js.inherited k
             then Some (Text (inherited_text k ++ ones (S n)))
             else Some (Count (S n))
    end.
Proof.
  induction keys as [|k' keys IH] using rev_ind; [reflexivity|].
  rewrite tally_snoc, count_occ_app. cbn [count_occ]. unfold Js.assign.
  destruct (string_dec k' k) as [->|Hne].
  - rewrite Nat.add_1_r.
    destruct (String.eqb_spec k "__proto__") as [Hk|Hk].
    + rewrite IH. destruct (count_occ string_dec keys k); reflexivity.
    + rewrite lookup_insert_eq, IH.
      destruct (count_occ string_dec keys k) as [|n].
      * destruct (Js.inherited k); reflexivity.
      * destruct (Js.inherited k).
        -- rewrite truthy_app_ones. cbn [ones].
           rewrite !string_app_assoc. reflexivity.
        -- rewrite Nat.add_1_r. reflexivity.
  - rewrite Nat.add_0_r.
    destruct (String.eqb k' "__proto__");
      [|rewrite lookup_insert_ne by exact Hne]; exact IH.
Qed.

(** ** The seed rows *)

Lemma find_app_old {A} (p : A -> bool) (l more : list A) x :
  find p l = Some x -> find p (l ++ more) = Some x.
Proof.
  induction l as [|y l IH]; cbn [app find]; [discriminate|].
  destruct (p y); [intros H; exact H|exact IH].
Qed.

Lemma has_setting_app key tbl more :
  has_setting key (tbl ++ more) = has_setting key tbl || has_setting key more.
Proof. apply existsb_app. Qed.

Lemma insert_settings_do_nothing_Ok e : forall rows i tbl tbl',
  insert_settings_do_nothing e i rows tbl = Ok tbl' ->
  (exists added, tbl' = tbl ++ added)
  /\ (forall r, In r rows -> has_setting (fst (fst r)) tbl' = true).
Proof.
  induction rows as [|[[key value] description] rest IH]; intros i tbl tbl' Hrun;
    cbn [insert_settings_do_nothing] in Hrun.
  - injection Hrun as <-. split; [exists []; rewrite app_nil_r; reflexivity|].
    intros r [].
  - destruct (has_setting key tbl) eqn:Hhas.
    + apply IH in Hrun as [[added ->] Hall]. split; [eauto|].
      intros r [<-|Hr]; [|apply Hall; exact Hr].
      cbn [fst]. rewrite has_setting_app, Hhas. reflexivity.
    + bind_inv Hrun. apply IH in Hrun as [[added ->] Hall].
      split; [eexists; rewrite <- app_assoc; reflexivity|].
      intros r [<-|Hr]; [|apply Hall; exact Hr].
      cbn [fst]. rewrite !has_setting_app. unfold has_setting at 2.
      cbn [existsb ss_setting_key]. rewrite String.eqb_refl.
      rewrite orb_true_r. reflexivity.
Qed.

Lemma insert_settings_do_nothing_present e : forall rows i tbl,
  (forall r, In r rows -> has_setting (fst (fst r)) tbl = true) ->
  insert_settings_do_nothing e i rows tbl = Ok tbl.
Proof.
  induction rows as [|[[key value] description] rest IH]; intros i tbl Hall;
    cbn [insert_settings_do_nothing]; [reflexivity|].
  pose proof (Hall (key, value, description) (or_introl eq_refl)) as Hkey.
  cbn [fst] in Hkey. rewrite Hkey.
  apply IH. intros r Hr. apply Hall. right. exact Hr.
Qed.

(** X26. The seed of the settings adds what is missing and touches nothing
    else: a setting the store already holds keeps its row, customised value
    included; afterwards every default key is present; and running the seed
    again changes nothing. *)
Theorem seed_system_settings_adds_only_what_is_missing (e : stmt_env) (d d' : db) :
  seed_system_settings e d = Ok d' ->
  (forall k old, find_setting k (system_settings d) = Some old ->
     find_setting k (system_settings d') = Some old)
  /\ (forall key value description,
        In (key, value, description) default_system_settings ->
        is_Some (find_setting key (system_settings d')))
  /\ (forall e', seed_system_settings e' d' = Ok d')
  /\ admin_users d' = admin_users d
  /\ audit_logs d' = audit_logs d.
Proof.
  unfold seed_system_settings. intros Hrun. bind_inv Hrun. injection Hrun as <-.
  apply insert_settings_do_nothing_Ok in Hstep as [[added ->] Hall]. simpl_db.
  split; [|split; [|split; [|split; reflexivity]]].
  - intros k old Hold. apply find_app_old. exact Hold.
  - intros key value description Hin.
    specialize (Hall _ Hin). cbn [fst] in Hall.
    apply has_setting_find in Hall as [x Hx]. exists x. exact Hx.
  - intros e'. rewrite insert_settings_do_nothing_present by exact Hall.
    reflexivity.
Qed.

Lemma insert_admin_users_do_nothing_Ok e : forall rows i tbl tbl',
  insert_admin_users_do_nothing e i rows tbl = Ok tbl' ->
  (exists added, tbl' = tbl ++ added)
  /\ (forall v, In v rows ->
        existsb (fun au => String.eqb (au_username au) (v_username v)) tbl' = true).
Proof.
  induction rows as [|v rest IH]; intros i tbl tbl' Hrun;
    cbn [insert_admin_users_do_nothing] in Hrun.
  - injection Hrun as <-. split; [exists []; rewrite app_nil_r; reflexivity|].
    intros r [].
  - destruct (existsb _ tbl) eqn:Hhas.
    + apply IH in Hrun as [[added ->] Hall]. split; [eauto|].
      intros r [<-|Hr]; [|apply Hall; exact Hr].
      rewrite existsb_app, Hhas. reflexivity.
    + bind_inv Hrun. apply IH in Hrun as [[added ->] Hall].
      split; [eexists; rewrite <- app_assoc; reflexivity|].
      intros r [<-|Hr]; [|apply Hall; exact Hr].
      rewrite !existsb_app. cbn [existsb au_username]. rewrite String.eqb_refl.
      rewrite orb_true_r. reflexivity.
Qed.

Lemma insert_admin_users_do_nothing_present e : forall rows i tbl,
  (forall v, In v rows ->
     existsb (fun au => String.eqb (au_username au) (v_username v)) tbl = true) ->
  insert_admin_users_do_nothing e i rows tbl = Ok tbl.
Proof.
  induction rows as [|v rest IH]; intros i tbl Hall;
    cbn [insert_admin_users_do_nothing]; [reflexivity|].
  rewrite (Hall v) by (left; reflexivity).
  apply IH. intros r Hr. apply Hall. right. exact Hr.
Qed.

(** X27. The seed of the administrators adds the accounts whose user name
    is missing and touches nothing else: an account the store already holds
    keeps its row (a changed password, role or status included); afterwards
    every default user name is present; running the seed again changes
    nothing; and no audit record is written. *)
Theorem seed_admin_users_adds_only_what_is_missing (e : stmt_env) (d d' : db) :
  seed_admin_users e d = Ok d' ->
  (forall id old, find_admin_user id (admin_users d) = Some old ->
     find_admin_user id (admin_users d') = Some old)
  /\ (forall v, In v default_admin_users ->
        exists au, In au (admin_users d') /\ au_username au = v_username v)
  /\ (forall e', seed_admin_users e' d' = Ok d')
  /\ audit_logs d' = audit_logs d.
Proof.
  unfold seed_admin_users. intros Hrun. bind_inv Hrun. injection Hrun as <-.
  apply insert_admin_users_do_nothing_Ok in Hstep as [[added ->] Hall]. simpl_db.
  split; [|split; [|split; [|reflexivity]]].
  - intros id old Hold. apply find_app_old. exact Hold.
  - intros v Hin. specialize (Hall _ Hin).
    apply existsb_exists in Hall as (au & Hau & Heq).
    apply String.eqb_eq in Heq. eauto.
  - intros e'. rewrite insert_admin_users_do_nothing_present by exact Hall.
    reflexivity.
Qed.

Lemma insert_admin_users_do_nothing_conflict e v au : forall rows i tbl,
  In v rows -> List.NoDup (map v_username rows) ->
  (forall au', In au' tbl -> au_username au' <> v_username v) ->
  In au tbl -> au_email au = Some (v_email v) ->
  insert_admin_users_do_nothing e i rows tbl = Err unique_violation.
Proof.
  induction rows as [|r rest IH]; intros i tbl Hv Hnodup Hname Hau Hmail;
    [destruct Hv|].
  cbn [map] in Hnodup. apply List.NoDup_cons_iff in Hnodup as [Hr Hnodup].
  cbn [insert_admin_users_do_nothing].
  destruct Hv as [->|Hv].
  - assert (Hmissing : existsb (fun au' => String.eqb (au_username au') (v_username v))
                               tbl = false).
    { apply not_true_is_false. intros Hex.
      apply existsb_exists in Hex as (au' & Hin & Heq).
      apply String.eqb_eq in Heq. exact (Hname au' Hin Heq). }
    rewrite Hmissing.
    assert (Htaken : admin_user_unique
              {| au_id := env_row_id e i; au_username := v_username v;
                 au_email := Some (v_email v);
                 au_password_hash := v_password_hash v; au_role := v_role v;
                 au_is_active := true; au_last_login := None;
                 au_created_at := env_now e; au_updated_at := env_now e |} tbl
              = false).
    { apply not_true_is_false. intros Hunique.
      unfold admin_user_unique in Hunique. rewrite forallb_forall in Hunique.
      specialize (Hunique au Hau). cbn [au_id au_username au_email] in Hunique.
      rewrite Hmail in Hunique. cbn [opt_eqb] in Hunique.
      rewrite String.eqb_refl, andb_false_r in Hunique. discriminate. }
    rewrite Htaken. reflexivity.
  - destruct (existsb _ tbl); [apply IH; assumption|].
    destruct (admin_user_unique _ tbl); cbn [guard rbind]; [|reflexivity].
    apply IH; try assumption.
    + intros au' Hin. apply in_app_or in Hin as [Hin|[<-|[]]]; [apply Hname; exact Hin|].
      cbn [au_username]. intros Heq. apply Hr. rewrite Heq. apply in_map. exact Hv.
    + apply in_or_app. left. exact Hau.
Qed.

(** X28. A user name is the only conflict the seed of the administrators
    steps over: when a default account is missing but its e-mail address is
    held by another account, the seed fails with a unique violation. *)
Theorem seed_admin_users_fails_on_a_taken_email (e : stmt_env) (d : db)
    (v : admin_user_values) (au : admin_user) :
  In v default_admin_users ->
  (forall au', In au' (admin_users d) -> au_username au' <> v_username v) ->
  In au (admin_users d) -> au_email au = Some (v_email v) ->
  seed_admin_users e d = Err unique_violation.
Proof.
  intros Hv Hname Hau Hmail. unfold seed_admin_users.
  rewrite (insert_admin_users_do_nothing_conflict e v au) by
    (try assumption; repeat constructor; cbn; intuition discriminate).
  reflexivity.
Qed.

End Store.

(** * The properties on the small installation *)

(** C1, as stated, fails: deactivating [admin1] writes an audit record whose
    [old_values] is NULL, not the state [admin1] had before the update. *)
Lemma update_audit_record_misses_prior_state :
  exists d' a,
    exec any_active_admin unconstrained as_service an_env deactivate_admin1 seeded
    = Ok (d', 1%nat)
    /\ audit_logs d' = [a]
    /\ al_action a = "UPDATE"
    /\ row_json tr_admin_users "u2" seeded = Some (to_jsonb admin1)
    /\ al_old_values a = None
    /\ al_old_values a <> row_json tr_admin_users "u2" seeded.
Proof.
  eexists. eexists. split; [vm_compute; reflexivity|].
  split; [reflexivity|]. split; [reflexivity|]. split; [reflexivity|].
  split; [reflexivity|]. discriminate.
Qed.

Lemma update_audit_record_has_no_before_witness :
  let d' := commit (exec any_active_admin unconstrained as_service an_env
                         deactivate_admin1 seeded) seeded in
  mutation_of an_env deactivate_admin1 = Some (tr_admin_users, UPDATE, "u2")
  /\ exec any_active_admin unconstrained as_service an_env deactivate_admin1 seeded
     = Ok (d', 1%nat)
  /\ exists a,
       audit_logs d' = audit_logs seeded ++ [a]
       /\ al_action a = "UPDATE"
       /\ al_new_values a = row_json tr_admin_users "u2" d'
       /\ is_Some (row_json tr_admin_users "u2" seeded)
       /\ al_old_values a = None.
Proof.
  cbv zeta. split; [reflexivity|]. split; [vm_compute; reflexivity|].
  apply (update_audit_record_has_no_before any_active_admin unconstrained
           as_service an_env deactivate_admin1 tr_admin_users "u2" seeded
           (commit (exec any_active_admin unconstrained as_service an_env
                         deactivate_admin1 seeded) seeded));
    [reflexivity|vm_compute; reflexivity].
Defined.

(** C3, as stated, fails: [admin1] holds [p1]. Saving the selection
    [p1; p2] with the store's own role takes the store through a state in
    which [admin1] holds no grant at all; saving [p1; p9], whose insert the
    store rejects ([p9] is no permission), leaves [admin1] with no grant for
    good. An empty grant set is neither the old set nor the new one. *)
Lemma saveUserPermissions_leaves_no_grants :
  let saved := saveUserPermissions any_active_admin as_service an_env
                 (Some admin1) ["p1"; "p2"] seeded in
  let rejected := saveUserPermissions any_active_admin as_service an_env
                    (Some admin1) ["p1"; "p9"] seeded in
  permissions_of "u2" seeded = ["p1"]
  /\ map (permissions_of "u2") (fst saved) = [[]; ["p1"; "p2"]]
  /\ snd saved = Some (toast_success "Permissions updated successfully")
  /\ map (permissions_of "u2") (fst rejected) = [[]; []]
  /\ snd rejected = Some (toast_error "Failed to save permissions")
  /\ exists d', In d' (fst rejected)
                /\ permissions_of "u2" d' <> permissions_of "u2" seeded
                /\ permissions_of "u2" d' <> ["p1"; "p9"].
Proof.
  cbv zeta. split; [reflexivity|].
  split; [vm_compute; reflexivity|]. split; [vm_compute; reflexivity|].
  split; [vm_compute; reflexivity|]. split; [vm_compute; reflexivity|].
  eexists. split; [vm_compute; left; reflexivity|].
  split; vm_compute; discriminate.
Qed.



(** Creating [bob] with the password [hunter2]: the stored hash ends with
    the password. *)
Lemma submitted_password_is_stored_in_clear_witness :
  let formData := {| fd_username := "bob"; fd_email := "bob@system.com";
                     fd_password := "hunter2"; fd_role := admin |} in
  let run := handleSubmit any_active_admin as_service an_env
               formData None seeded in
  fst run <> seeded
  /\ exists row,
       find_admin_user "r0" (admin_users (fst run)) = Some row
       /\ au_password_hash row = "$2b$10$hunter2"
       /\ Text.includes (au_password_hash row) "hunter2" = true.
Proof.
  cbv zeta.
  assert (Hchanged :
    fst (handleSubmit any_active_admin as_service an_env
           {| fd_username := "bob"; fd_email := "bob@system.com";
              fd_password := "hunter2"; fd_role := admin |} None seeded)
    <> seeded).
  { vm_compute. intros Heq. apply (f_equal audit_logs) in Heq. discriminate Heq. }
  split; [exact Hchanged|].
  apply (submitted_password_is_stored_in_clear any_active_admin
           as_service an_env
           {| fd_username := "bob"; fd_email := "bob@system.com";
              fd_password := "hunter2"; fd_role := admin |}
           None seeded _ _ (surjective_pairing _) Hchanged).
  reflexivity.
Defined.

(** The deactivated [localadmin] is denied everything. *)
Lemma inactive_identity_is_denied_witness :
  rolbypassrls as_localadmin = false
  /\ not_an_active_identity as_localadmin (admin_users seeded)
  /\ (forall t c,
        rls_permits any_active_admin as_localadmin t c (admin_users seeded) = false)
  /\ (forall e r,
        commit (exec any_active_admin unconstrained as_localadmin e r seeded) seeded
        = seeded)
  /\ fetchAuditLogs any_active_admin as_localadmin seeded = [].
Proof.
  assert (Hin : not_an_active_identity as_localadmin (admin_users seeded)).
  { intros au [<-|[<-|[<-|[]]]] Hid; cbn in Hid; try discriminate; reflexivity. }
  pose proof (inactive_identity_is_denied any_active_admin unconstrained
                as_localadmin seeded eq_refl Hin) as (H1 & H2 & _ & _ & _ & _ & H7).
  repeat split; assumption.
Defined.

(** C7, as stated, fails: the stored [maintenance_mode] names the super
    administrator as its updater. Setting it, with the store's own role,
    overwrites the value and the timestamp, and the setting's [updated_by]
    stays what it was; a setting that is created has no [updated_by] at
    all. The same call in the session of [admin1] stores nothing. *)
Lemma updateSetting_records_no_updater :
  exists d' settings' d'' settings'',
    updateSetting any_active_admin as_service an_env 555 "maintenance_mode"
      (JBool true) ∅ configured = Ok (d', settings')
    /\ get_setting "maintenance_mode" d' = Some (JBool true)
    /\ ss_updated_at <$> find_setting "maintenance_mode" (system_settings d')
       = Some 100
    /\ ss_updated_by <$> find_setting "maintenance_mode" (system_settings configured)
       = Some (Some "u1")
    /\ ss_updated_by <$> find_setting "maintenance_mode" (system_settings d')
       = Some (Some "u1")
    /\ ss_updated_by <$> find_setting "maintenance_mode" (system_settings d')
       <> Some (auth_uid as_service)
    /\ updateSetting any_active_admin as_service an_env 555 "session_timeout"
         (JNum 3600) ∅ configured = Ok (d'', settings'')
    /\ ss_updated_by <$> find_setting "session_timeout" (system_settings d'')
       = Some None
    /\ updateSetting any_active_admin as_admin1 an_env 555 "maintenance_mode"
         (JBool true) ∅ configured = Err invalid_object_definition.
Proof.
  eexists. eexists. eexists. eexists. split; [vm_compute; reflexivity|].
  split; [reflexivity|]. split; [reflexivity|]. split; [reflexivity|].
  split; [reflexivity|]. split; [cbn; discriminate|].
  split; [vm_compute; reflexivity|]. split; [reflexivity|].
  vm_compute. reflexivity.
Qed.

(** Setting [session_timeout], which the installation does not hold, with
    the store's own role. *)
Lemma updateSetting_upserts_witness :
  let run := updateSetting any_active_admin as_service an_env 555
               "session_timeout" (JNum 3600) ∅ seeded in
  exists d' settings',
    run = Ok (d', settings')
    /\ settings' !! "session_timeout" = Some (JNum 3600)
    /\ fetchSettings any_active_admin as_service d' !! "session_timeout"
       = Some (JNum 3600).
Proof.
  cbv zeta.
  destruct (updateSetting any_active_admin as_service an_env 555
              "session_timeout" (JNum 3600) ∅ seeded) as [[d' settings']|err] eqn:Hrun;
    [|vm_compute in Hrun; discriminate Hrun].
  exists d', settings'. split; [reflexivity|].
  destruct (updateSetting_upserts any_active_admin as_service an_env 555
              "session_timeout" (JNum 3600) ∅ settings' seeded d' Hrun)
    as (_ & H1 & H2 & _).
  split; assumption.
Defined.

(** C9, as stated, fails: with 1001 audit records, the record of the
    instant 0 created half a millisecond after it, and one more every
    millisecond, the filter from the instant 0 to the instant 1 (in
    milliseconds) shows one record, the one created at 1.5 ms, which lies
    outside the interval; the record created at 0.5 ms lies inside and is
    not shown: it is not among the 1000 newest. *)
Lemma date_filter_misses_older_records :
  let shown := map log_row
                 (applyFilters (date_range 0 1)
                    (fetchAuditLogs any_active_admin as_service long_history)) in
  shown = [audit_log_at 1]
  /\ al_created_at (audit_log_at 1) = 1500
  /\ ~ (1000 * 0 <= al_created_at (audit_log_at 1) <= 1000 * 1)
  /\ In (audit_log_at 0) (audit_logs long_history)
  /\ 1000 * 0 <= al_created_at (audit_log_at 0) <= 1000 * 1
  /\ ~ In (audit_log_at 0) shown.
Proof.
  cbv zeta.
  assert (Hshown : map log_row
            (applyFilters (date_range 0 1)
               (fetchAuditLogs any_active_admin as_service long_history))
          = [audit_log_at 1])
    by (vm_compute; reflexivity).
  split; [exact Hshown|]. split; [reflexivity|]. split; [cbn; lia|].
  split; [left; reflexivity|]. split; [cbn; lia|].
  rewrite Hshown. intros [Heq|[]]. discriminate Heq.
Qed.

(** * The further properties on the small installation *)

Lemma seeded_consistent : consistent seeded.
Proof.
  split.
  - constructor; try intros t; cbn;
      repeat (apply List.NoDup_cons; [cbn; intuition discriminate|]);
      apply List.NoDup_nil.
  - constructor; intros x Hin; cbn in Hin;
      repeat (destruct Hin as [<-|Hin]); try destruct Hin; cbn; auto 10.
Qed.

(** The super administrator's session: the fetches, the switch and a save
    of permissions fail. *)
Lemma authenticated_sessions_meet_the_policy_recursion_witness :
  rolname as_superadmin = "authenticated"
  /\ rolbypassrls as_superadmin = false
  /\ fetchSettings any_active_admin as_superadmin seeded = ∅
  /\ handleToggleStatus any_active_admin as_superadmin an_env "u2" true seeded
     = (seeded, toast_error "Failed to update user status")
  /\ saveUserPermissions any_active_admin as_superadmin an_env (Some admin1)
       ["p1"; "p2"] seeded
     = ([seeded; seeded], Some (toast_error "Failed to save permissions")).
Proof.
  split; [reflexivity|]. split; [reflexivity|].
  destruct (authenticated_sessions_meet_the_policy_recursion any_active_admin
              unconstrained as_superadmin an_env seeded eq_refl eq_refl)
    as (Hsettings & _ & _ & _ & Htoggle & _ & Hsave & _).
  split; [exact Hsettings|]. split; [apply Htoggle|apply Hsave].
Defined.

(** A session of the role [anon]: nothing is changed and nothing is read. *)
Lemma only_bypass_sessions_reach_the_tables_witness :
  rolbypassrls as_anon = false
  /\ commit (exec any_active_admin unconstrained as_anon an_env deactivate_admin1
               audited) audited
     = audited
  /\ fetchAuditLogs any_active_admin as_anon audited = [].
Proof.
  split; [reflexivity|].
  destruct (only_bypass_sessions_reach_the_tables any_active_admin unconstrained
              as_anon audited eq_refl) as (Hexec & _ & Hlogs & _).
  split; [apply Hexec|exact Hlogs].
Defined.

(** Deactivating [admin1] and then revoking its grants keeps the
    constraints. *)
Lemma requests_keep_the_constraints_witness :
  consistent seeded
  /\ consistent
       (fst (run any_active_admin unconstrained
               [(as_service, an_env, deactivate_admin1);
                (as_superadmin, an_env, DeleteUserPermissions "u2")] seeded)).
Proof.
  split; [exact seeded_consistent|].
  apply (requests_keep_the_constraints any_active_admin unconstrained
           [(as_service, an_env, deactivate_admin1);
            (as_superadmin, an_env, DeleteUserPermissions "u2")] seeded).
  exact seeded_consistent.
Defined.


(** The super administrator, actor of an audit record, deleted by the
    store's own role. *)
Lemma actor_of_an_audit_record_is_not_deleted_witness :
  In a_super_admin_action (audit_logs audited)
  /\ fst (handleDeleteUser any_active_admin as_service an_env true "u1" audited)
     = audited.
Proof.
  split; [left; reflexivity|].
  apply (actor_of_an_audit_record_is_not_deleted any_active_admin as_service an_env
           true "u1" a_super_admin_action audited);
    [left; reflexivity|reflexivity].
Defined.

(** Deleting [admin1], who holds [p1]. *)
Lemma deleting_a_user_cascades_to_its_grants_witness :
  let run := handleDeleteUser any_active_admin as_service an_env true "u2" seeded in
  fst run <> seeded
  /\ permissions_of "u2" seeded = ["p1"]
  /\ find_admin_user "u2" (admin_users (fst run)) = None
  /\ permissions_of "u2" (fst run) = [].
Proof.
  cbv zeta.
  assert (Hchanged :
    fst (handleDeleteUser any_active_admin as_service an_env true "u2" seeded)
    <> seeded).
  { vm_compute. intros Heq. apply (f_equal audit_logs) in Heq. discriminate Heq. }
  split; [exact Hchanged|]. split; [reflexivity|].
  destruct (deleting_a_user_cascades_to_its_grants any_active_admin as_service
              an_env "u2" seeded _ _ (surjective_pairing _) Hchanged)
    as (_ & Hgone & Hgrants & _).
  split; assumption.
Defined.

(** Toggling, deleting and editing [a_stranger]. *)
Lemma missing_user_is_reported_as_success_witness :
  let formData := {| fd_username := "stranger"; fd_email := "stranger@system.com";
                     fd_password := ""; fd_role := admin |} in
  rolbypassrls as_service = true
  /\ find_admin_user "u9" (admin_users seeded) = None
  /\ handleToggleStatus any_active_admin as_service an_env "u9" false seeded
     = (seeded, toast_success "User activated successfully")
  /\ handleDeleteUser any_active_admin as_service an_env true "u9" seeded
     = (seeded, Some (toast_success "User deleted successfully"))
  /\ handleSubmit any_active_admin as_service an_env formData (Some a_stranger) seeded
     = (seeded, toast_success "User updated successfully").
Proof.
  cbv zeta. split; [reflexivity|]. split; [reflexivity|].
  apply (missing_user_is_reported_as_success any_active_admin as_service an_env
           a_stranger false
           {| fd_username := "stranger"; fd_email := "stranger@system.com";
              fd_password := ""; fd_role := admin |} seeded);
    [left; split; reflexivity|reflexivity|reflexivity].
Defined.

(** Switching off [admin1], shown as active. *)
Lemma toggle_writes_the_negation_of_the_shown_status_witness :
  let run := handleToggleStatus any_active_admin as_service an_env "u2" true seeded in
  fst run <> seeded
  /\ exists new,
       find_admin_user "u2" (admin_users (fst run)) = Some new
       /\ au_is_active new = false
       /\ au_updated_at new = 100.
Proof.
  cbv zeta.
  assert (Hchanged :
    fst (handleToggleStatus any_active_admin as_service an_env "u2" true seeded)
    <> seeded).
  { vm_compute. intros Heq. apply (f_equal audit_logs) in Heq. discriminate Heq. }
  split; [exact Hchanged|].
  destruct (toggle_writes_the_negation_of_the_shown_status any_active_admin
              as_service an_env "u2" true seeded _ _ (surjective_pairing _) Hchanged)
    as (old & new & _ & Hnew & Hactive & Hat & _).
  exists new. split; [exact Hnew|]. split; assumption.
Defined.

(** Changing the e-mail address of [admin1], password left empty. *)
Lemma edit_without_password_keeps_the_hash_witness :
  let formData := {| fd_username := "admin1"; fd_email := "new@system.com";
                     fd_password := ""; fd_role := admin |} in
  let run := handleSubmit any_active_admin as_service an_env formData
               (Some admin1) seeded in
  fst run <> seeded
  /\ exists old new,
       find_admin_user "u2" (admin_users seeded) = Some old
       /\ find_admin_user "u2" (admin_users (fst run)) = Some new
       /\ au_password_hash new = au_password_hash old
       /\ au_email new = Some "new@system.com".
Proof.
  cbv zeta.
  assert (Hchanged :
    fst (handleSubmit any_active_admin as_service an_env
           {| fd_username := "admin1"; fd_email := "new@system.com";
              fd_password := ""; fd_role := admin |} (Some admin1) seeded)
    <> seeded).
  { vm_compute. intros Heq. apply (f_equal audit_logs) in Heq. discriminate Heq. }
  split; [exact Hchanged|].
  destruct (edit_without_password_keeps_the_hash any_active_admin as_service an_env
              {| fd_username := "admin1"; fd_email := "new@system.com";
                 fd_password := ""; fd_role := admin |}
              admin1 seeded _ _ (surjective_pairing _) Hchanged eq_refl)
    as (old & new & Hold & Hnew & Hhash & _ & Hform).
  exists old, new. split; [exact Hold|]. split; [exact Hnew|].
  split; [exact Hhash|]. injection Hform as _ Hmail _. exact Hmail.
Defined.

(** Opening the edit form on [admin1] and submitting it as it is. *)
Lemma edit_form_round_trip_witness :
  let run := handleSubmit any_active_admin as_service an_env
               (fst (handleEdit admin1)) (snd (handleEdit admin1)) seeded in
  find_admin_user "u2" (admin_users seeded) = Some admin1
  /\ fst run <> seeded
  /\ find_admin_user "u2" (admin_users (fst run))
     = Some (update_updated_at_column_admin_user 100 admin1).
Proof.
  cbv zeta. split; [reflexivity|].
  assert (Hchanged :
    fst (handleSubmit any_active_admin as_service an_env
           (fst (handleEdit admin1)) (snd (handleEdit admin1)) seeded)
    <> seeded).
  { vm_compute. intros Heq. apply (f_equal audit_logs) in Heq. discriminate Heq. }
  split; [exact Hchanged|].
  apply (proj2 (edit_form_round_trip any_active_admin as_service an_env admin1
                  seeded eq_refl) _ _ (surjective_pairing _) Hchanged).
Defined.

(** Unticking [p1] in the selection [p1; p2]. *)
Lemma click_flips_one_permission_witness :
  List.NoDup ["p1"; "p2"]
  /\ List.NoDup (clickPermission "p1" ["p1"; "p2"])
  /\ (In "p1" (clickPermission "p1" ["p1"; "p2"]) <-> ~ In "p1" ["p1"; "p2"])
  /\ (forall q, q <> "p1" ->
        In q (clickPermission "p1" ["p1"; "p2"]) <-> In q ["p1"; "p2"]).
Proof.
  assert (Hnodup : List.NoDup ["p1"; "p2"]).
  { repeat (apply List.NoDup_cons; [cbn; intuition discriminate|]).
    apply List.NoDup_nil. }
  split; [exact Hnodup|].
  apply (click_flips_one_permission "p1" ["p1"; "p2"] Hnodup).
Defined.

(** The dialog of [admin1] opened and saved with the store's own role. *)
Lemma saving_an_untouched_dialog_keeps_the_permissions_witness :
  let run := saveUserPermissions any_active_admin as_service an_env (Some admin1)
               (openPermissionDialog admin1
                  (fetchUserPermissions any_active_admin as_service seeded))
               seeded in
  consistent seeded
  /\ rolbypassrls as_service = true
  /\ snd run = Some (toast_success "Permissions updated successfully")
  /\ (forall u, permissions_of u (List.last (fst run) seeded) = permissions_of u seeded).
Proof.
  cbv zeta. split; [exact seeded_consistent|]. split; [reflexivity|].
  destruct (saving_an_untouched_dialog_keeps_the_permissions any_active_admin
              as_service an_env admin1 seeded seeded_consistent)
    as (Htoast & Hsame & _).
  - reflexivity.
  - intros k g [<-|[]]. destruct k as [|[|k]]; cbn; discriminate.
  - intros j k Hjk. cbn in Hjk. lia.
  - split; assumption.
Defined.



(** The log filtered by the user SUPER, with the store's own role. *)
Lemma user_filter_shows_only_logs_of_known_users_witness :
  let filters := {| f_action := ""; f_table := ""; f_user := "SUPER";
                    f_dateFrom := None; f_dateTo := None; f_search := "" |} in
  let log := {| log_row := a_super_admin_action;
                log_admin_users := Some "superadmin" |} in
  In log (applyFilters filters (fetchAuditLogs any_active_admin as_service audited))
  /\ rolbypassrls as_service = true
  /\ exists u au,
       al_user_id (log_row log) = Some u
       /\ find_admin_user u (admin_users audited) = Some au
       /\ Text.includes (Text.toLowerCase (au_username au)) "super" = true.
Proof.
  cbv zeta.
  assert (Hshown :
    In {| log_row := a_super_admin_action; log_admin_users := Some "superadmin" |}
       (applyFilters
          {| f_action := ""; f_table := ""; f_user := "SUPER";
             f_dateFrom := None; f_dateTo := None; f_search := "" |}
          (fetchAuditLogs any_active_admin as_service audited))).
  { vm_compute. left. reflexivity. }
  split; [exact Hshown|].
  exact (user_filter_shows_only_logs_of_known_users any_active_admin
           as_service audited
           {| f_action := ""; f_table := ""; f_user := "SUPER";
              f_dateFrom := None; f_dateTo := None; f_search := "" |}
           {| log_row := a_super_admin_action;
              log_admin_users := Some "superadmin" |}
           eq_refl Hshown).
Defined.

(** The record the trigger writes when [admin1] is deactivated. *)
Lemma trigger_records_get_a_coloured_badge_witness :
  let d' := fst (run any_active_admin unconstrained
                   [(as_service, an_env, deactivate_admin1)] seeded) in
  let a := List.last (audit_logs d') a_super_admin_action in
  In a (audit_logs d')
  /\ ~ In a (audit_logs seeded)
  /\ is_Some (fst (getActionBadge (al_action a))).
Proof.
  cbv zeta.
  assert (Hin :
    In (List.last
          (audit_logs (fst (run any_active_admin unconstrained
                              [(as_service, an_env, deactivate_admin1)] seeded)))
          a_super_admin_action)
       (audit_logs (fst (run any_active_admin unconstrained
                           [(as_service, an_env, deactivate_admin1)] seeded)))).
  { vm_compute. left. reflexivity. }
  split; [exact Hin|]. split; [intros []|].
  destruct (trigger_records_get_a_coloured_badge any_active_admin unconstrained
              [(as_service, an_env, deactivate_admin1)] seeded _ Hin)
    as [[]|Hbadge].
  exact Hbadge.
Defined.

(** The maintenance mode switched on and the login attempts emptied, then
    saved with the store's own role and refreshed. *)
Lemma refresh_after_save_shows_what_was_sent_witness :
  let run := handleSaveAll any_active_admin as_service an_env (fun _ => 555)
               (sent <$> a_form) seeded in
  consistent seeded
  /\ snd run = toast_success "System settings saved successfully"
  /\ fetchSettings any_active_admin as_service (fst run) !! "maintenance_mode"
     = Some (JBool true)
  /\ fetchSettings any_active_admin as_service (fst run) !! "max_login_attempts"
     = Some JNull.
Proof.
  cbv zeta. split; [exact seeded_consistent|].
  assert (Hsaved :
    handleSaveAll any_active_admin as_service an_env (fun _ => 555)
      (sent <$> a_form) seeded
    = (fst (handleSaveAll any_active_admin as_service an_env (fun _ => 555)
              (sent <$> a_form) seeded),
       toast_success "System settings saved successfully")).
  { vm_compute. reflexivity. }
  split; [rewrite Hsaved; reflexivity|].
  destruct (refresh_after_save_shows_what_was_sent any_active_admin as_service
              an_env (fun _ => 555) a_form seeded _ seeded_consistent Hsaved)
    as [Hshown Hinput].
  split.
  - rewrite Hshown. vm_compute. reflexivity.
  - apply (Hinput "max_login_attempts" NaN
             (handleInputChange "maintenance_mode" (Held (JBool true)) ∅));
      [reflexivity|discriminate].
Defined.

(** The seed of the settings on the installation, which holds
    [maintenance_mode] already. *)
Lemma seed_system_settings_adds_only_what_is_missing_witness :
  let d' := stored (seed_system_settings a_migration_env seeded) seeded in
  seed_system_settings a_migration_env seeded = Ok d'
  /\ find_setting "maintenance_mode" (system_settings d')
     = find_setting "maintenance_mode" (system_settings seeded)
  /\ is_Some (find_setting "session_timeout" (system_settings d'))
  /\ seed_system_settings an_env d' = Ok d'.
Proof.
  cbv zeta.
  assert (Hseed :
    seed_system_settings a_migration_env seeded
    = Ok (stored (seed_system_settings a_migration_env seeded) seeded)).
  { vm_compute. reflexivity. }
  split; [exact Hseed|].
  destruct (seed_system_settings_adds_only_what_is_missing a_migration_env seeded _
              Hseed) as (Hkept & Hdefaults & Hagain & _).
  split; [apply Hkept; reflexivity|].
  split; [|apply Hagain].
  apply (Hdefaults "session_timeout" (JNum 3600) "Session timeout in seconds").
  right; right; left; reflexivity.
Defined.

(** The seed of the administrators on an installation that holds only the
    deactivated [localadmin]. *)
Lemma seed_admin_users_adds_only_what_is_missing_witness :
  let d := with_admin_users [localadmin] seeded in
  let d' := stored (seed_admin_users an_env d) d in
  seed_admin_users an_env d = Ok d'
  /\ find_admin_user "u3" (admin_users d') = Some localadmin
  /\ (exists au, In au (admin_users d') /\ au_username au = "admin1")
  /\ seed_admin_users a_migration_env d' = Ok d'.
Proof.
  cbv zeta.
  assert (Hseed :
    seed_admin_users an_env (with_admin_users [localadmin] seeded)
    = Ok (stored (seed_admin_users an_env (with_admin_users [localadmin] seeded))
            (with_admin_users [localadmin] seeded))).
  { vm_compute. reflexivity. }
  split; [exact Hseed|].
  destruct (seed_admin_users_adds_only_what_is_missing an_env
              (with_admin_users [localadmin] seeded) _ Hseed)
    as (Hkept & Hdefaults & Hagain & _).
  split; [apply Hkept; reflexivity|].
  split; [|apply Hagain].
  apply (Hdefaults {| v_username := "admin1"; v_email := "admin1@system.com";
                      v_password_hash := "$2b$10$example_hash_for_admin123";
                      v_role := admin |}).
  right; left; reflexivity.
Defined.

(** The seed of the administrators where the super administrator's e-mail
    address is held by the account [root]. *)
Lemma seed_admin_users_fails_on_a_taken_email_witness :
  let d := with_admin_users [renamed_superadmin] seeded in
  In renamed_superadmin (admin_users d)
  /\ au_email renamed_superadmin = Some "super@admin.com"
  /\ seed_admin_users a_migration_env d = Err unique_violation.
Proof.
  cbv zeta. split; [left; reflexivity|]. split; [reflexivity|].
  apply (seed_admin_users_fails_on_a_taken_email a_migration_env
           (with_admin_users [renamed_superadmin] seeded)
           {| v_username := "superadmin"; v_email := "super@admin.com";
              v_password_hash := "$2b$10$example_hash_for_password123";
              v_role := super_admin |}
           renamed_superadmin).
  - left; reflexivity.
  - intros au' [<-|[]]. discriminate.
  - left; reflexivity.
  - reflexivity.
Defined.
